(** * things3-mcp: the write-and-recover layer

    A shallow embedding of the payload encoder ([src/utils/url-scheme.ts]),
    the to-do tools ([src/tools/todos.ts]), the checklist reader
    ([src/utils/database.ts]) and the automation templates
    ([src/templates/applescript-templates.ts]), with the properties the
    specification states about them.

    Conventions.  A JavaScript string is a [string]: its bytes are the UTF-8
    encoding of the text.  A value that may be [undefined] is an [option]; a
    value that may also be [null] is a [Nullable].  A JavaScript object used
    as a record of named values is an association list, in insertion order.
    Code that talks to the host application runs in a small state-and-error
    monad over the log of channel events, the host being an oracle that
    answers from the history of the interaction. *)

From Stdlib Require Import ZArith List String Ascii Bool Lia.
From Stdlib Require Import DecimalString DecimalNat SpecFloat.
Import ListNotations.

Local Open Scope string_scope.
Set Warnings "-register-all".

(* ================================================================== *)
(** ** Characters and strings *)

Module Str.

Definition dquote : ascii := ascii_of_nat 34.
Definition backslash : ascii := ascii_of_nat 92.
Definition lf : ascii := ascii_of_nat 10.
Definition cr : ascii := ascii_of_nat 13.
Definition tab : ascii := ascii_of_nat 9.
Definition space : ascii := ascii_of_nat 32.

Definition chr (c : ascii) : string := String c EmptyString.

(** [Array.prototype.join] on an array of strings. *)
Definition join (sep : string) (xs : list string) : string := String.concat sep xs.

(** [String.prototype.split] with a one-character separator: the pieces
    between the separators, at least one piece. *)
Fixpoint split (sep : ascii) (s : string) : list string :=
  match s with
  | EmptyString => [EmptyString]
  | String c rest =>
      if Ascii.eqb c sep then EmptyString :: split sep rest
      else match split sep rest with
           | [] => [chr c]
           | piece :: pieces => String c piece :: pieces
           end
  end.

Fixpoint drop_while (p : ascii -> bool) (s : string) : string :=
  match s with
  | EmptyString => EmptyString
  | String c rest => if p c then drop_while p rest else s
  end.

Fixpoint rev_string (s : string) : string :=
  match s with
  | EmptyString => EmptyString
  | String c rest => rev_string rest ++ chr c
  end.

Definition trim_with (p : ascii -> bool) (s : string) : string :=
  rev_string (drop_while p (rev_string (drop_while p s))).

Definition is_space (c : ascii) : bool := Ascii.eqb c space.

(** The white space and the line terminators of the language, which
    [String.prototype.trim] removes and [parseInt] skips, as the bytes of
    UTF-8.  One byte: TAB, LF, VT, FF, CR and the space. *)
Definition is_js_space (c : ascii) : bool :=
  let n := nat_of_ascii c in
  (Nat.leb 9 n && Nat.leb n 13) || Nat.eqb n 32.

(** Two bytes: U+00A0. *)
Definition space2 (n1 n2 : nat) : bool := Nat.eqb n1 194 && Nat.eqb n2 160.

(** Three bytes: U+1680; U+2000 to U+200A, U+2028, U+2029 and U+202F;
    U+205F; U+3000; U+FEFF. *)
Definition space3 (n1 n2 n3 : nat) : bool :=
  (Nat.eqb n1 225 && Nat.eqb n2 154 && Nat.eqb n3 128)
  || (Nat.eqb n1 226 && Nat.eqb n2 128
      && ((Nat.leb 128 n3 && Nat.leb n3 138) || Nat.eqb n3 168 || Nat.eqb n3 169
          || Nat.eqb n3 175))
  || (Nat.eqb n1 226 && Nat.eqb n2 129 && Nat.eqb n3 159)
  || (Nat.eqb n1 227 && Nat.eqb n2 128 && Nat.eqb n3 128)
  || (Nat.eqb n1 239 && Nat.eqb n2 187 && Nat.eqb n3 191).

(** The text starts with a white space character. *)
Definition starts_with_space (s : string) : bool :=
  match s with
  | String c1 r1 =>
      is_js_space c1
      || match r1 with
         | String c2 r2 =>
             space2 (nat_of_ascii c1) (nat_of_ascii c2)
             || match r2 with
                | String c3 _ => space3 (nat_of_ascii c1) (nat_of_ascii c2) (nat_of_ascii c3)
                | EmptyString => false
                end
         | EmptyString => false
         end
  | EmptyString => false
  end.

(** The text without the white space at its start. *)
Fixpoint trim_start (s : string) : string :=
  match s with
  | EmptyString => EmptyString
  | String c1 r1 =>
      if is_js_space c1 then trim_start r1
      else
        match r1 with
        | String c2 r2 =>
            if space2 (nat_of_ascii c1) (nat_of_ascii c2) then trim_start r2
            else
              match r2 with
              | String c3 r3 =>
                  if space3 (nat_of_ascii c1) (nat_of_ascii c2) (nat_of_ascii c3)
                  then trim_start r3
                  else s
              | EmptyString => s
              end
        | EmptyString => s
        end
  end.

(** The same on a text written backwards, where the bytes of a character
    come last byte first. *)
Fixpoint trim_start_reversed (s : string) : string :=
  match s with
  | EmptyString => EmptyString
  | String c1 r1 =>
      if is_js_space c1 then trim_start_reversed r1
      else
        match r1 with
        | String c2 r2 =>
            if space2 (nat_of_ascii c2) (nat_of_ascii c1) then trim_start_reversed r2
            else
              match r2 with
              | String c3 r3 =>
                  if space3 (nat_of_ascii c3) (nat_of_ascii c2) (nat_of_ascii c1)
                  then trim_start_reversed r3
                  else s
              | EmptyString => s
              end
        | EmptyString => s
        end
  end.

(** [String.prototype.trim]. *)
Definition trim (s : string) : string :=
  rev_string (trim_start_reversed (rev_string (trim_start s))).

(** The text starts with a byte below 128 that is no white space. *)
Definition plain_head (s : string) : bool :=
  match s with
  | EmptyString => false
  | String c _ => Nat.ltb (nat_of_ascii c) 128 && negb (is_js_space c)
  end.

Fixpoint forallb_string (p : ascii -> bool) (s : string) : bool :=
  match s with
  | EmptyString => true
  | String c rest => p c && forallb_string p rest
  end.

Fixpoint existsb_string (p : ascii -> bool) (s : string) : bool :=
  match s with
  | EmptyString => false
  | String c rest => p c || existsb_string p rest
  end.

Definition has_char (c : ascii) (s : string) : bool :=
  existsb_string (Ascii.eqb c) s.

(** [needle] occurs in [s] ([String.prototype.includes], AppleScript
    [contains] taken on the bytes). *)
Fixpoint contains (needle s : string) : bool :=
  String.prefix needle s ||
  match s with
  | EmptyString => false
  | String _ rest => contains needle rest
  end.

(** A JavaScript string in a condition: the empty string is falsy. *)
Definition truthy (s : string) : bool :=
  match s with EmptyString => false | _ => true end.

Definition is_digit (c : ascii) : bool :=
  let n := nat_of_ascii c in Nat.leb 48 n && Nat.leb n 57.

Definition digit_val (c : ascii) : Z := Z.of_nat (nat_of_ascii c) - 48.

(** Decimal rendering of a natural number and of an integer. *)
Definition of_nat (n : nat) : string := NilEmpty.string_of_uint (Nat.to_uint n).

Definition of_Z (z : Z) : string :=
  if (z <? 0)%Z then String "-" (of_nat (Z.to_nat (- z))) else of_nat (Z.to_nat z).

End Str.

(* ================================================================== *)
(** ** Script string literals *)

Module Escape.
Import Str.

(** Modelled from the spec: [AppleScriptBridge.escapeString]
    ([src/utils/applescript.ts], not among the sources).  The specification
    of the payload encoder says that string values embedded in script text
    are escaped against the scripting language's string-literal syntax,
    quote and backslash: each backslash and each double quote gets a
    backslash in front, every other character stands for itself. *)
Fixpoint escapeString (s : string) : string :=
  match s with
  | EmptyString => EmptyString
  | String c rest =>
      if Ascii.eqb c backslash then String backslash (String backslash (escapeString rest))
      else if Ascii.eqb c dquote then String backslash (String dquote (escapeString rest))
      else String c (escapeString rest)
  end.

(** The character an escape of the scripting language stands for. *)
Definition decode_escape (e : ascii) : option ascii :=
  if Ascii.eqb e backslash then Some backslash
  else if Ascii.eqb e dquote then Some dquote
  else if Ascii.eqb e "n" then Some lf
  else if Ascii.eqb e "r" then Some cr
  else if Ascii.eqb e "t" then Some tab
  else None.

(** The inverse parser: the body of an automation-script string literal.
    A backslash introduces one of the escapes of the language (backslash,
    quote, [n], [r], [t]); a bare double quote would end the literal, so the
    body is refused; a backslash before anything else, or at the end, is
    refused as well. *)
Fixpoint unescape (s : string) : option string :=
  match s with
  | EmptyString => Some EmptyString
  | String c rest =>
      if Ascii.eqb c backslash then
        match rest with
        | EmptyString => None
        | String e rest' =>
            match decode_escape e, unescape rest' with
            | Some d, Some tail => Some (String d tail)
            | _, _ => None
            end
        end
      else if Ascii.eqb c dquote then None
      else option_map (String c) (unescape rest)
  end.

(** The literal as it stands in a generated script: the escaped body between
    two double quotes, as in [set t to to do id "${escapedId}"]. *)
Definition literal (s : string) : string :=
  String dquote (escapeString s ++ chr dquote).

(** Reading script text from inside a literal up to the quote that ends
    it: the string the literal denotes and the text after it. *)
Fixpoint read_body (text : string) : option (string * string) :=
  match text with
  | EmptyString => None
  | String c rest =>
      if Ascii.eqb c backslash then
        match rest with
        | EmptyString => None
        | String e rest' =>
            match decode_escape e, read_body rest' with
            | Some d, Some (value, after) => Some (String d value, after)
            | _, _ => None
            end
        end
      else if Ascii.eqb c dquote then Some (EmptyString, rest)
      else
        match read_body rest with
        | Some (value, after) => Some (String c value, after)
        | None => None
        end
  end.

Definition read_literal (text : string) : option (string * string) :=
  match text with
  | String c rest => if Ascii.eqb c dquote then read_body rest else None
  | EmptyString => None
  end.

End Escape.

(* ================================================================== *)
(** ** JavaScript values and [JSON.stringify] *)

Module Json.
Import Str.

(** A value that is absent ([undefined]), cleared ([null]) or set. *)
Inductive Nullable (A : Type) : Type :=
| Undefined
| Null
| Val (a : A).
Arguments Undefined {A}.
Arguments Null {A}.
Arguments Val {A} a.

(** The values the encoder puts into a command document. *)
Inductive JSValue : Type :=
| JUndefined
| JNull
| JBool (b : bool)
| JString (s : string)
| JArray (items : list JSValue)
| JObject (fields : list (string * JSValue)).

Definition is_undefined (v : JSValue) : bool :=
  match v with JUndefined => true | _ => false end.

Definition of_option_string (o : option string) : JSValue :=
  match o with Some s => JString s | None => JUndefined end.

(** A string that may be [undefined] or [null], as the value it is. *)
Definition of_nullable_string (x : Nullable string) : JSValue :=
  match x with Undefined => JUndefined | Null => JNull | Val s => JString s end.

Definition of_option_bool (o : option bool) : JSValue :=
  match o with Some b => JBool b | None => JUndefined end.

Definition of_option_strings (o : option (list string)) : JSValue :=
  match o with Some xs => JArray (map JString xs) | None => JUndefined end.

(** Objects as association lists in insertion order. *)
Definition Obj := list (string * JSValue).

Fixpoint get (k : string) (o : Obj) : option JSValue :=
  match o with
  | [] => None
  | (k', v) :: rest => if String.eqb k k' then Some v else get k rest
  end.

Definition has_key (k : string) (o : Obj) : bool :=
  existsb (fun kv => String.eqb k (fst kv)) o.

(** [o[k] = v]: an existing property keeps its place, a new one goes last. *)
Fixpoint set (k : string) (v : JSValue) (o : Obj) : Obj :=
  match o with
  | [] => [(k, v)]
  | (k', v') :: rest =>
      if String.eqb k k' then (k', v) :: rest else (k', v') :: set k v rest
  end.

(** [delete o[k]]. *)
Definition delete (k : string) (o : Obj) : Obj :=
  filter (fun kv => negb (String.eqb k (fst kv))) o.

Definition hex_digit_lower (n : nat) : ascii :=
  if Nat.ltb n 10 then ascii_of_nat (48 + n) else ascii_of_nat (87 + n).

(** One character inside a JSON string. *)
Definition quote_char (c : ascii) : string :=
  let n := nat_of_ascii c in
  if Ascii.eqb c dquote then String backslash (chr dquote)
  else if Ascii.eqb c backslash then String backslash (chr backslash)
  else if Nat.eqb n 8 then String backslash "b"
  else if Nat.eqb n 9 then String backslash "t"
  else if Nat.eqb n 10 then String backslash "n"
  else if Nat.eqb n 12 then String backslash "f"
  else if Nat.eqb n 13 then String backslash "r"
  else if Nat.ltb n 32 then
    String backslash ("u00" ++ chr (hex_digit_lower (n / 16)) ++ chr (hex_digit_lower (n mod 16)))
  else chr c.

Fixpoint quote_body (s : string) : string :=
  match s with
  | EmptyString => EmptyString
  | String c rest => quote_char c ++ quote_body rest
  end.

Definition quote (s : string) : string :=
  String dquote (quote_body s ++ chr dquote).

(** [JSON.stringify]: [None] is the result [undefined].  A property whose
    value is [undefined] is left out of an object; an [undefined] element of
    an array is written [null]. *)
Fixpoint stringify (v : JSValue) : option string :=
  match v with
  | JUndefined => None
  | JNull => Some "null"
  | JBool b => Some (if b then "true" else "false")
  | JString s => Some (quote s)
  | JArray items =>
      Some ("[" ++ join ","
              (map (fun x => match stringify x with Some t => t | None => "null" end) items)
            ++ "]")
  | JObject fields =>
      Some ("{" ++ join ","
              ((fix props (fs : list (string * JSValue)) : list string :=
                  match fs with
                  | [] => []
                  | (k, x) :: fs' =>
                      match stringify x with
                      | Some t => (quote k ++ ":" ++ t) :: props fs'
                      | None => props fs'
                      end
                  end) fields)
            ++ "}")
  end.

Definition stringify_items (items : list JSValue) : string :=
  match stringify (JArray items) with Some t => t | None => "null" end.

End Json.

(* ================================================================== *)
(** ** Percent-encoding *)

Module Url.
Import Str.

Definition hex_digit_upper (n : nat) : ascii :=
  if Nat.ltb n 10 then ascii_of_nat (48 + n) else ascii_of_nat (55 + n).

Definition percent (c : ascii) : string :=
  let n := nat_of_ascii c in
  String "%" (String (hex_digit_upper (n / 16)) (chr (hex_digit_upper (n mod 16)))).

Definition is_alnum (c : ascii) : bool :=
  let n := nat_of_ascii c in
  (Nat.leb 48 n && Nat.leb n 57) || (Nat.leb 65 n && Nat.leb n 90)
  || (Nat.leb 97 n && Nat.leb n 122).

Definition one_of (set : string) (c : ascii) : bool := has_char c set.

(** [encodeURIComponent]: letters, digits and [-_.!~*'()] stand for
    themselves, every other byte of the UTF-8 encoding is percent-encoded. *)
Definition uri_unreserved (c : ascii) : bool :=
  is_alnum c || one_of "-_.!~*'()" c.

Fixpoint encodeURIComponent (s : string) : string :=
  match s with
  | EmptyString => EmptyString
  | String c rest =>
      (if uri_unreserved c then chr c else percent c) ++ encodeURIComponent rest
  end.

(** The [application/x-www-form-urlencoded] serializer behind
    [URLSearchParams.prototype.toString]: a space becomes [+], letters,
    digits and [*-._] stand for themselves, every other byte is
    percent-encoded. *)
Definition form_safe (c : ascii) : bool := is_alnum c || one_of "*-._" c.

Definition form_char (c : ascii) : string :=
  if Ascii.eqb c space then "+"
  else if form_safe c then chr c
  else percent c.

Fixpoint form_encode (s : string) : string :=
  match s with
  | EmptyString => EmptyString
  | String c rest => form_char c ++ form_encode rest
  end.

(** A [URLSearchParams] object: the list of name-value pairs, in the order
    of the [append] calls. *)
Definition URLSearchParams := list (string * string).

Definition append (k v : string) (ps : URLSearchParams) : URLSearchParams :=
  (ps ++ [(k, v)])%list.

Definition toString (ps : URLSearchParams) : string :=
  join "&" (map (fun kv => form_encode (fst kv) ++ "=" ++ form_encode (snd kv)) ps).

(** [s.replace(/\+/g, '%20')]. *)
Fixpoint replace_plus (s : string) : string :=
  match s with
  | EmptyString => EmptyString
  | String c rest =>
      if Ascii.eqb c "+" then "%20" ++ replace_plus rest
      else String c (replace_plus rest)
  end.

(** A name or a value as it stands in the query string of [buildUrl]. *)
Definition encode_component (s : string) : string := replace_plus (form_encode s).

Definition encode_pair (kv : string * string) : string :=
  encode_component (fst kv) ++ "=" ++ encode_component (snd kv).

(** The characters of a query string: the ones that stand for themselves,
    the percent sign of an encoded byte, and the two separators. *)
Definition query_char (c : ascii) : bool := form_safe c || one_of "%&=" c.

End Url.

(* ================================================================== *)
(** ** JavaScript dates *)

Module JsDate.
Import Str.
Local Open Scope Z_scope.

(** A [Date] object is its time value: milliseconds since the epoch, UTC.
    The executing system contributes its clock, a time value in the range
    of [Date], and its local time zone, as the language has it:
    [LocalTZA t true] is the offset of local time from UTC, in milliseconds
    (east of Greenwich is positive), at the instant [t], and
    [LocalTZA t false] is the offset at the local time [t]; where the zone
    changes its offset, for daylight saving time or otherwise, the two
    depend on [t].  The engine contributes what it makes of a text that is
    not in the date-time string format of the language, which the language
    leaves to it. *)
Record Clock : Type := {
  now : Z;
  LocalTZA : Z -> bool -> Z;
  fallback_parse : string -> option Z
}.

Definition msPerDay : Z := 86400000.
Definition msPerHour : Z := 3600000.
Definition msPerMinute : Z := 60000.

(** Day number of a calendar date of the proleptic Gregorian calendar
    ([m] from 1 to 12; a day past the end of the month runs into the next
    one, as [MakeDay] has it). *)
Definition days_from_civil (y m d : Z) : Z :=
  let y' := if m <=? 2 then y - 1 else y in
  let era := y' / 400 in
  let yoe := y' - era * 400 in
  let mp := (m + 9) mod 12 in
  let doy := (153 * mp + 2) / 5 + d - 1 in
  let doe := yoe * 365 + yoe / 4 - yoe / 100 + doy in
  era * 146097 + doe - 719468.

(** Calendar date of a day number: year, month (1 to 12), day of month.
    [YearFromTime], [MonthFromTime] and [DateFromTime] in one. *)
Definition civil_from_days (z : Z) : Z * Z * Z :=
  let z' := z + 719468 in
  let era := z' / 146097 in
  let doe := z' - era * 146097 in
  let yoe := (doe - doe / 1460 + doe / 36524 - doe / 146096) / 365 in
  let doy := doe - (365 * yoe + yoe / 4 - yoe / 100) in
  let mp := (5 * doy + 2) / 153 in
  let d := doy - (153 * mp + 2) / 5 + 1 in
  let m := if mp <? 10 then mp + 3 else mp - 9 in
  let y := yoe + era * 400 in
  (if m <=? 2 then y + 1 else y, m, d).

Definition Day (t : Z) : Z := t / msPerDay.
Definition TimeWithinDay (t : Z) : Z := t mod msPerDay.
Definition LocalTime (c : Clock) (t : Z) : Z := t + LocalTZA c t true.
Definition UTC (c : Clock) (t : Z) : Z := t - LocalTZA c t false.

Definition ymd_utc (t : Z) : Z * Z * Z := civil_from_days (Day t).
Definition ymd_local (c : Clock) (t : Z) : Z * Z * Z := ymd_utc (LocalTime c t).

(** The day, in local time, an instant falls on. *)
Definition local_day (c : Clock) (t : Z) : Z := Day (LocalTime c t).

Definition getFullYear (c : Clock) (t : Z) : Z := fst (fst (ymd_local c t)).
(** Months count from 0. *)
Definition getMonth (c : Clock) (t : Z) : Z := snd (fst (ymd_local c t)) - 1.
Definition getDate (c : Clock) (t : Z) : Z := snd (ymd_local c t).

(** [MakeDay(year, month, date)], the month counting from 0. *)
Definition MakeDay (year month date : Z) : Z :=
  days_from_civil (year + month / 12) (month mod 12 + 1) 1 + date - 1.

(** [d.setDate(dt)]: the day of the month is replaced in local time. *)
Definition setDate (c : Clock) (t dt : Z) : Z :=
  let lt := LocalTime c t in
  UTC c (MakeDay (getFullYear c t) (getMonth c t) dt * msPerDay + TimeWithinDay lt).

(** A time value outside the range of [Date] is no date. *)
Definition TimeClip (t : Z) : option Z :=
  if Z.abs t <=? 8640000000000000 then Some t else None.

Fixpoint zeros (n : nat) : string :=
  match n with
  | O => EmptyString
  | S n' => String "0" (zeros n')
  end.

Definition pad_left (width : nat) (s : string) : string :=
  (zeros (width - String.length s) ++ s)%string.

Definition pad (width : nat) (z : Z) : string := pad_left width (of_nat (Z.to_nat z)).

(** The year of [toISOString]: four digits from 0 to 9999, a sign and six
    digits otherwise. *)
Definition iso_year (y : Z) : string :=
  if (0 <=? y) && (y <=? 9999) then pad 4 y
  else if y <? 0 then String "-" (pad 6 (- y))
  else String "+" (pad 6 y).

(** The characters of the date part of [toISOString]: digits and signs. *)
Definition date_char (c : ascii) : bool :=
  is_digit c || Ascii.eqb c "-" || Ascii.eqb c "+".

Definition iso_date (ymd : Z * Z * Z) : string :=
  let '(y, m, d) := ymd in
  (iso_year y ++ "-" ++ pad 2 m ++ "-" ++ pad 2 d)%string.

Definition toISOString (t : Z) : string :=
  let w := TimeWithinDay t in
  (iso_date (ymd_utc t) ++ "T" ++ pad 2 (w / msPerHour) ++ ":"
   ++ pad 2 (w mod msPerHour / msPerMinute) ++ ":"
   ++ pad 2 (w mod msPerMinute / 1000) ++ "." ++ pad 3 (w mod 1000) ++ "Z")%string.

(** *** [Date.parse] on the date-time string format of the language

    [YYYY], [YYYY-MM], [YYYY-MM-DD], or a year of six digits with a sign;
    then perhaps [THH:mm], [THH:mm:ss] or [THH:mm:ss.s...]; then perhaps [Z]
    or an offset [+HH:mm] or [-HH:mm].  A date alone is read as UTC, a date
    and time with no offset as local time.  A day of the month up to 31 is
    taken, and runs into the next month when the month is shorter.  The
    empty text is no date; any other text outside the format is what the
    engine makes of it ([fallback_parse]). *)

(** Exactly [n] digits at the head of [s]. *)
Fixpoint read_digits (n : nat) (s : string) (acc : Z) : option (Z * string) :=
  match n with
  | O => Some (acc, s)
  | S n' =>
      match s with
      | String c rest =>
          if is_digit c then read_digits n' rest (acc * 10 + digit_val c) else None
      | EmptyString => None
      end
  end.

(** The fraction of a second: the first three digits count, the others are
    dropped. *)
Fixpoint read_fraction (s : string) (scale acc : Z) : Z * string :=
  match s with
  | String c rest =>
      if is_digit c then read_fraction rest (scale / 10) (acc + digit_val c * scale)
      else (acc, s)
  | EmptyString => (acc, s)
  end.

Definition expect (c : ascii) (s : string) : option string :=
  match s with
  | String c' rest => if Ascii.eqb c c' then Some rest else None
  | EmptyString => None
  end.

Definition read_year (s : string) : option (Z * string) :=
  match s with
  | String c rest =>
      if Ascii.eqb c "+" then read_digits 6 rest 0
      else if Ascii.eqb c "-" then
        match read_digits 6 rest 0 with
        | Some (y, rest') => if y =? 0 then None else Some (- y, rest')
        | None => None
        end
      else read_digits 4 s 0
  | EmptyString => None
  end.

(** The offset at the end of a date and time, in milliseconds; [None] inside
    is the absence of an offset. *)
Definition read_offset (s : string) : option (option Z) :=
  match s with
  | EmptyString => Some None
  | String c rest =>
      if Ascii.eqb c "Z" then
        match rest with EmptyString => Some (Some 0) | _ => None end
      else if Ascii.eqb c "+" || Ascii.eqb c "-" then
        match read_digits 2 rest 0 with
        | Some (h, r1) =>
            match expect ":" r1 with
            | Some r2 =>
                match read_digits 2 r2 0 with
                | Some (m, EmptyString) =>
                    if (h <=? 23) && (m <=? 59) then
                      let off := h * msPerHour + m * msPerMinute in
                      Some (Some (if Ascii.eqb c "-" then - off else off))
                    else None
                | _ => None
                end
            | None => None
            end
        | None => None
        end
      else None
  end.

(** The time of day after the [T], in milliseconds, with what follows. *)
Definition read_time (s : string) : option (Z * string) :=
  match read_digits 2 s 0 with
  | Some (h, r1) =>
      match expect ":" r1 with
      | Some r2 =>
          match read_digits 2 r2 0 with
          | Some (m, r3) =>
              let '(sec, ms, r6) :=
                match expect ":" r3 with
                | Some r4 =>
                    match read_digits 2 r4 0 with
                    | Some (sec, r5) =>
                        match expect "." r5 with
                        | Some (String c r6 as frac) =>
                            if is_digit c then
                              let '(ms, rest) := read_fraction frac 100 0 in (sec, ms, rest)
                            else (sec, 0, r5)
                        | _ => (sec, 0, r5)
                        end
                    | None => (0, 0, r3)
                    end
                | None => (0, 0, r3)
                end in
              if ((h <=? 23) && (m <=? 59) && (sec <=? 59))
                 || ((h =? 24) && (m =? 0) && (sec =? 0) && (ms =? 0))
              then Some (h * msPerHour + m * msPerMinute + sec * 1000 + ms, r6)
              else None
          | None => None
          end
      | None => None
      end
  | None => None
  end.

(** Year, month and day at the head of the text, a missing month or day
    being 1; the boolean tells whether text follows the date. *)
Definition read_date (s : string) : option (Z * Z * Z * string) :=
  match read_year s with
  | Some (y, r1) =>
      match expect "-" r1 with
      | Some r2 =>
          match read_digits 2 r2 0 with
          | Some (m, r3) =>
              match expect "-" r3 with
              | Some r4 =>
                  match read_digits 2 r4 0 with
                  | Some (d, r5) => Some (y, m, d, r5)
                  | None => None
                  end
              | None => Some (y, m, 1, r3)
              end
          | None => None
          end
      | None => Some (y, 1, 1, r1)
      end
  | None => None
  end.

Definition parse_format (c : Clock) (s : string) : option Z :=
  match read_date s with
  | Some (y, m, d, rest) =>
      if (1 <=? m) && (m <=? 12) && (1 <=? d) && (d <=? 31) then
        let day := days_from_civil y m 1 + d - 1 in
        match rest with
        | EmptyString => TimeClip (day * msPerDay)
        | String sep rest' =>
            if Ascii.eqb sep "T" then
              match read_time rest' with
              | Some (time, tail) =>
                  match read_offset tail with
                  | Some (Some off) => TimeClip (day * msPerDay + time - off)
                  | Some None => TimeClip (UTC c (day * msPerDay + time))
                  | None => None
                  end
              | None => None
              end
            else None
        end
      else None
  | None => None
  end.

(** [new Date(text).getTime()], [None] for [NaN]. *)
Definition parse (c : Clock) (s : string) : option Z :=
  match s with
  | EmptyString => None
  | _ =>
      match parse_format c s with
      | Some t => Some t
      | None =>
          match fallback_parse c s with
          | Some t => TimeClip t
          | None => None
          end
      end
  end.

End JsDate.

(* ================================================================== *)
(** ** The payload encoder: [URLSchemeHandler], the pure part *)

Module UrlScheme.
Import Str Json Url JsDate.

Inductive Things3Operation : Type :=
| ADD | ADD_PROJECT | UPDATE | UPDATE_PROJECT | SHOW | SEARCH | JSON.

Definition operation_name (op : Things3Operation) : string :=
  match op with
  | ADD => "add"
  | ADD_PROJECT => "add-project"
  | UPDATE => "update"
  | UPDATE_PROJECT => "update-project"
  | SHOW => "show"
  | SEARCH => "search"
  | JSON => "json"
  end.

Inductive Things3ItemType : Type :=
| TODO | PROJECT | HEADING | CHECKLIST_ITEM.

Definition item_type_name (t : Things3ItemType) : string :=
  match t with
  | TODO => "to-do"
  | PROJECT => "project"
  | HEADING => "heading"
  | CHECKLIST_ITEM => "checklist-item"
  end.

(** What the encoder reads from the executing system: the variable
    [THINGS3_AUTH_TOKEN] of the process environment and the clock. *)
Record Env : Type := {
  THINGS3_AUTH_TOKEN : option string;
  clock : Clock
}.

Definition getAuthToken (e : Env) : option string := THINGS3_AUTH_TOKEN e.

(** [if (authToken)]: the token counts when it is a non-empty string. *)
Definition token_given (e : Env) : option string :=
  match getAuthToken e with
  | Some t => if truthy t then Some t else None
  | None => None
  end.

(** The values of the parameter record of [buildUrl]: absent, [null], an
    array of strings, a boolean, or a string or number, the last carried as
    the text [String(value)] gives. *)
Inductive ParamValue : Type :=
| PUndefined
| PNull
| PArray (items : list string)
| PBool (b : bool)
| PScalar (text : string).

Definition of_option (o : option string) : ParamValue :=
  match o with Some s => PScalar s | None => PUndefined end.

(** The body of the [forEach] over [Object.entries(params)]. *)
Definition append_param (ps : URLSearchParams) (kv : string * ParamValue) : URLSearchParams :=
  let '(key, value) := kv in
  match value with
  | PNull | PUndefined => ps
  | PArray items => append key (join "," items) ps
  | PBool b => append key (if b then "true" else "false") ps
  | PScalar text => append key text ps
  end.

(** The [URLSearchParams] object [buildUrl] fills. *)
Definition url_params (e : Env) (params : list (string * ParamValue)) : URLSearchParams :=
  let urlParams : URLSearchParams := [] in
  let urlParams :=
    match token_given e with
    | Some authToken => append "auth-token" authToken urlParams
    | None => urlParams
    end in
  fold_left append_param params urlParams.

Definition query_string (e : Env) (params : list (string * ParamValue)) : string :=
  replace_plus (toString (url_params e params)).

Definition buildUrl (e : Env) (operation : Things3Operation)
  (params : list (string * ParamValue)) : string :=
  let baseUrl := "things:///" ++ operation_name operation in
  let queryString := query_string e params in
  if truthy queryString then baseUrl ++ "?" ++ queryString else baseUrl.

Definition buildJsonUrl (e : Env) (items : list JSValue) : string :=
  let jsonData := stringify_items items in
  let encodedData := encodeURIComponent jsonData in
  match token_given e with
  | Some authToken => "things:///json?data=" ++ encodedData ++ "&auth-token=" ++ authToken
  | None => "things:///json?data=" ++ encodedData
  end.

Definition isSameDay (c : Clock) (date1 date2 : Z) : bool :=
  (getFullYear c date1 =? getFullYear c date2)%Z
  && (getMonth c date1 =? getMonth c date2)%Z
  && (getDate c date1 =? getDate c date2)%Z.

(** [date.toISOString().split('T')[0]]. *)
Definition iso_day_part (date : Z) : option string :=
  hd_error (split "T" (toISOString date)).

Definition formatDateForUrl (e : Env) (isoDate : Nullable string) : option string :=
  match isoDate with
  | Undefined | Null => None
  | Val text =>
      if negb (truthy text) then None
      else
        match parse (clock e) text with
        | None => None
        | Some date =>
            let today := now (clock e) in
            if isSameDay (clock e) date today then Some "today"
            else
              let tomorrow := setDate (clock e) today (getDate (clock e) today + 1) in
              if isSameDay (clock e) date tomorrow then Some "tomorrow"
              else iso_day_part date
        end
  end.

Definition of_opt {A : Type} (o : option A) : Nullable A :=
  match o with Some a => Val a | None => Undefined end.

(** [a || b] on two strings that may be absent. *)
Definition or_else (a b : option string) : option string :=
  match a with
  | Some s => if truthy s then Some s else b
  | None => b
  end.

(** *** Creating a to-do *)

Record CreateTodoParams : Type := {
  ct_title : string;
  ct_notes : option string;
  ct_whenDate : option string;
  ct_deadline : option string;
  ct_tags : option (list string);
  ct_checklistItems : option (list string);
  ct_projectId : option string;
  ct_areaId : option string;
  ct_heading : option string
}.

Definition createTodo_params (e : Env) (params : CreateTodoParams)
  : list (string * ParamValue) :=
  let urlParams :=
    [ ("title", PScalar (ct_title params));
      ("notes", of_option (ct_notes params));
      ("when", of_option (formatDateForUrl e (of_opt (ct_whenDate params))));
      ("deadline", of_option (formatDateForUrl e (of_opt (ct_deadline params))));
      ("tags", of_option (option_map (join ",") (ct_tags params)));
      ("list-id", of_option (or_else (ct_projectId params) (ct_areaId params)));
      ("heading", of_option (ct_heading params)) ] in
  match ct_checklistItems params with
  | Some (item :: items) =>
      (urlParams ++ [("checklist-items", PScalar (join (chr lf) (item :: items)))])%list
  | _ => urlParams
  end.

(** The URL [createTodo] hands to [execute]. *)
Definition createTodo_url (e : Env) (params : CreateTodoParams) : string :=
  buildUrl e ADD (createTodo_params e params).

(** *** Updating a to-do

    The parameters of [updateTodo] as they arrive: the declared type of the
    notes is [string], but the only caller copies the notes of
    [todos_update], where the schema allows [null], and nothing on the way
    tests for it. *)

Record UpdateTodoParams : Type := {
  ut_title : option string;
  ut_notes : Nullable string;
  ut_whenDate : Nullable string;
  ut_deadline : Nullable string;
  ut_tags : option (list string);
  ut_completed : option bool;
  ut_canceled : option bool;
  ut_listId : Nullable string
}.

(** [x === null ? '' : formatDateForUrl(x)]. *)
Definition date_attribute (e : Env) (x : Nullable string) : JSValue :=
  match x with
  | Null => JString EmptyString
  | _ => of_option_string (formatDateForUrl e x)
  end.

(** [x === null ? '' : x]. *)
Definition id_attribute (x : Nullable string) : JSValue :=
  match x with
  | Null => JString EmptyString
  | Undefined => JUndefined
  | Val s => JString s
  end.

(** [attributes['auth-token'] = authToken] when a token is given. *)
Definition with_auth (e : Env) (attributes : Obj) : Obj :=
  match token_given e with
  | Some authToken => set "auth-token" (JString authToken) attributes
  | None => attributes
  end.

(** The loop that deletes every key whose value is [undefined]. *)
Definition remove_undefined (attributes : Obj) : Obj :=
  fold_left
    (fun (o : Obj) (key : string) =>
       match get key o with
       | Some JUndefined => delete key o
       | _ => o
       end)
    (map fst attributes) attributes.

Definition update_item (type : Things3ItemType) (id : string) (attributes : Obj) : JSValue :=
  JObject [ ("type", JString (item_type_name type));
            ("id", JString id);
            ("operation", JString "update");
            ("attributes", JObject attributes) ].

(** The attributes of the document [updateTodo] emits. *)
Definition updateTodo_attributes (e : Env) (params : UpdateTodoParams) : Obj :=
  let attributes : Obj :=
    [ ("title", of_option_string (ut_title params));
      ("notes", of_nullable_string (ut_notes params));
      ("when", date_attribute e (ut_whenDate params));
      ("deadline", date_attribute e (ut_deadline params));
      ("tags", of_option_strings (ut_tags params));
      ("completed", of_option_bool (ut_completed params));
      ("canceled", of_option_bool (ut_canceled params));
      ("list-id", id_attribute (ut_listId params)) ] in
  remove_undefined (with_auth e attributes).

Definition updateTodo_items (e : Env) (id : string) (params : UpdateTodoParams) : list JSValue :=
  [update_item TODO id (updateTodo_attributes e params)].

Definition updateTodo_url (e : Env) (id : string) (params : UpdateTodoParams) : string :=
  buildJsonUrl e (updateTodo_items e id params).

(** *** Status changes and tags over several to-dos *)

Definition batch_items (e : Env) (attributes : Obj) (ids : list string) : list JSValue :=
  map (fun id => update_item TODO id (with_auth e attributes)) ids.

Definition completeTodos_items (e : Env) (ids : list string) : list JSValue :=
  batch_items e [("completed", JBool true)] ids.

Definition uncompleteTodos_items (e : Env) (ids : list string) : list JSValue :=
  batch_items e [("completed", JBool false)] ids.

Definition cancelTodos_items (e : Env) (ids : list string) : list JSValue :=
  batch_items e [("canceled", JBool true)] ids.

Definition addTagsToItems_items (e : Env) (itemIds tags : list string) : list JSValue :=
  batch_items e [("add-tags", JArray (map JString tags))] itemIds.

(** [removeTagsFromItems(itemIds)]: the tags to remove are not even a
    parameter; every item gets the empty tag list. *)
Definition removeTagsFromItems_items (e : Env) (itemIds : list string) : list JSValue :=
  batch_items e [("tags", JArray [])] itemIds.

Definition completeTodos_url (e : Env) (ids : list string) : string :=
  buildJsonUrl e (completeTodos_items e ids).

Definition uncompleteTodos_url (e : Env) (ids : list string) : string :=
  buildJsonUrl e (uncompleteTodos_items e ids).

Definition removeTagsFromItems_url (e : Env) (itemIds : list string) : string :=
  buildJsonUrl e (removeTagsFromItems_items e itemIds).

(** *** Creating and updating a project *)

Record CreateProjectParams : Type := {
  cp_title : string;
  cp_notes : option string;
  cp_whenDate : option string;
  cp_deadline : option string;
  cp_tags : option (list string);
  cp_area : option string;
  cp_areaId : option string;
  cp_headings : option (list string)
}.

Definition heading_item (heading : string) : JSValue :=
  JObject [ ("type", JString (item_type_name HEADING));
            ("attributes", JObject [("title", JString heading)]) ].

Definition createProject_attributes (e : Env) (params : CreateProjectParams) : Obj :=
  let items :=
    match cp_headings params with
    | Some headings => map heading_item headings
    | None => []
    end in
  let attributes : Obj :=
    [ ("title", JString (cp_title params));
      ("notes", of_option_string (cp_notes params));
      ("when", of_option_string (formatDateForUrl e (of_opt (cp_whenDate params))));
      ("deadline", of_option_string (formatDateForUrl e (of_opt (cp_deadline params))));
      ("tags", of_option_strings (cp_tags params));
      ("area", of_option_string (cp_area params));
      ("area-id", of_option_string (cp_areaId params));
      ("items", match items with [] => JUndefined | _ => JArray items end) ] in
  remove_undefined (with_auth e attributes).

Definition createProject_items (e : Env) (params : CreateProjectParams) : list JSValue :=
  [JObject [ ("type", JString (item_type_name PROJECT));
             ("attributes", JObject (createProject_attributes e params)) ]].

Definition createProject_url (e : Env) (params : CreateProjectParams) : string :=
  buildJsonUrl e (createProject_items e params).

Record UpdateProjectParams : Type := {
  up_title : option string;
  up_notes : option string;
  up_whenDate : Nullable string;
  up_deadline : Nullable string;
  up_tags : option (list string);
  up_completed : option bool;
  up_canceled : option bool;
  up_areaId : Nullable string
}.

Definition updateProject_attributes (e : Env) (params : UpdateProjectParams) : Obj :=
  let attributes : Obj :=
    [ ("title", of_option_string (up_title params));
      ("notes", of_option_string (up_notes params));
      ("when", date_attribute e (up_whenDate params));
      ("deadline", date_attribute e (up_deadline params));
      ("tags", of_option_strings (up_tags params));
      ("completed", of_option_bool (up_completed params));
      ("canceled", of_option_bool (up_canceled params));
      ("area-id", id_attribute (up_areaId params)) ] in
  remove_undefined (with_auth e attributes).

Definition updateProject_items (e : Env) (id : string) (params : UpdateProjectParams)
  : list JSValue :=
  [update_item PROJECT id (updateProject_attributes e params)].

Definition updateProject_url (e : Env) (id : string) (params : UpdateProjectParams) : string :=
  buildJsonUrl e (updateProject_items e id params).

End UrlScheme.

(* ================================================================== *)
(** ** The automation templates *)

Module Templates.
Import Str.

Inductive TodoFilter : Type :=
| inbox | today | upcoming | anytime | someday | logbook.

Inductive TodoStatus : Type :=
| open | completed | cancelled.

(** A generated script, by what it does.  The templates build the text of
    the script; the model keeps the parts of the text that vary.  A string
    argument stands in the text as a literal ([Escape.literal]) and denotes
    the argument again when the script is read. *)
Inductive Script : Type :=
| ListTodosScript (source : option TodoFilter) (statusTest : option TodoStatus)
    (searchTest : option string)
| CompleteTodosScript (ids : list string)
| UncompleteTodosScript (ids : list string)
| DeleteTodosScript (ids : list string)
| RemoveTagsScript (itemIds : list string) (tags : list string).

(** [listTodos(filter, status, searchText)]: the list to query is the list
    named by the filter, or all to-dos; the status test and the search test
    are generated when the argument is given and, for the text, not empty. *)
Definition listTodos (filter : option TodoFilter) (status : option TodoStatus)
  (searchText : option string) : Script :=
  ListTodosScript filter status
    (match searchText with
     | Some text => if truthy text then Some text else None
     | None => None
     end).

Definition completeTodos (ids : list string) : Script := CompleteTodosScript ids.
Definition uncompleteTodos (ids : list string) : Script := UncompleteTodosScript ids.
Definition deleteTodos (ids : list string) : Script := DeleteTodosScript ids.
Definition removeTagsFromItems (itemIds tags : list string) : Script :=
  RemoveTagsScript itemIds tags.

End Templates.

(* ================================================================== *)
(** ** The host application, as the generated scripts see it *)

Module Things.
Import Str Templates.

(** The store of the application and the meaning of the generated scripts
    on it.  The scripts are read as their text says: [to do id] fails for an
    id the application does not hold and the [try] block around it ends;
    [delete] takes the to-do out of the store; texts are compared as
    strings (the case and other [considering] attributes of the scripting
    language are left out). *)

Record ToDo : Type := {
  id : string;
  name : string;
  notes : string;
  status : TodoStatus;
  lists : list TodoFilter;
  tag_names : string
}.

Definition Store := list ToDo.

Definition filter_eqb (a b : TodoFilter) : bool :=
  match a, b with
  | inbox, inbox | today, today | upcoming, upcoming
  | anytime, anytime | someday, someday | logbook, logbook => true
  | _, _ => false
  end.

Definition status_eqb (a b : TodoStatus) : bool :=
  match a, b with
  | open, open | completed, completed | cancelled, cancelled => true
  | _, _ => false
  end.

(** One row of the JSON array a list script returns. *)
Record TodosListResult : Type := {
  r_id : string;
  r_title : string;
  r_completed : bool
}.

Definition row_of (t : ToDo) : TodosListResult :=
  {| r_id := id t; r_title := name t; r_completed := status_eqb (status t) completed |}.

(** The list script: [repeat with t in todoList], the two tests around the
    construction of the row. *)
Definition run_listTodos (source : option TodoFilter) (statusTest : option TodoStatus)
  (searchTest : option string) (store : Store) : list TodosListResult :=
  let todoList :=
    match source with
    | Some l => filter (fun t => existsb (filter_eqb l) (lists t)) store
    | None => store
    end in
  let status_ok t :=
    match statusTest with Some st => status_eqb (status t) st | None => true end in
  let search_ok t :=
    match searchTest with
    | Some text => contains text (name t) || contains text (notes t)
    | None => true
    end in
  map row_of (filter (fun t => status_ok t && search_ok t) todoList).

Definition find_todo (i : string) (store : Store) : option ToDo :=
  find (fun t => String.eqb (id t) i) store.

(** The application knows a to-do of this id. *)
Definition knows (store : Store) (i : string) : bool :=
  match find_todo i store with Some _ => true | None => false end.

Definition remove_todo (i : string) (store : Store) : Store :=
  filter (fun t => negb (String.eqb (id t) i)) store.

Definition set_status (i : string) (st : TodoStatus) (store : Store) : Store :=
  map (fun t =>
         if String.eqb (id t) i
         then {| id := id t; name := name t; notes := notes t; status := st;
                 lists := lists t; tag_names := tag_names t |}
         else t) store.

(** The delete script: for each id a [try] block; [to do id] fails for an
    id the application does not know, and the block is left without the
    count being raised. *)
Fixpoint run_deleteTodos (ids : list string) (deletedCount : nat) (store : Store)
  : nat * Store :=
  match ids with
  | [] => (deletedCount, store)
  | i :: rest =>
      match find_todo i store with
      | Some _ => run_deleteTodos rest (S deletedCount) (remove_todo i store)
      | None => run_deleteTodos rest deletedCount store
      end
  end.

(** The status scripts: as above, and the count is raised only for an item
    whose status the script changed. *)
Fixpoint run_setStatus (from to : TodoStatus) (ids : list string) (count : nat)
  (store : Store) : nat * Store :=
  match ids with
  | [] => (count, store)
  | i :: rest =>
      match find_todo i store with
      | Some t =>
          if status_eqb (status t) from
          then run_setStatus from to rest (S count) (set_status i to store)
          else run_setStatus from to rest count store
      | None => run_setStatus from to rest count store
      end
  end.

Definition run_completeTodos (ids : list string) (store : Store) : nat * Store :=
  run_setStatus open completed ids 0 store.

Definition run_uncompleteTodos (ids : list string) (store : Store) : nat * Store :=
  run_setStatus completed open ids 0 store.

(** *** The tag-removal subroutine

    [removeTag(tagList, tagToRemove)]: the text items of the list between
    commas, each trimmed of the spaces at its ends, the ones equal to the
    tag left out, the others joined again with a comma and a space. *)
Definition trim_spaces : string -> string := trim_with is_space.

Definition removeTag (tagList tagToRemove : string) : string :=
  let tagItems := split "," tagList in
  let newItems :=
    filter (fun t => negb (String.eqb t tagToRemove)) (map trim_spaces tagItems) in
  join ", " newItems.

(** What the script does with one item whose tag names read [currentTags]
    ([None]: missing value): the new tag names it writes, or [None] when it
    writes nothing. *)
Definition removeTags_write (currentTags : option string) (tags : list string)
  : option string :=
  match currentTags with
  | None => None
  | Some current =>
      if negb (truthy current) then None
      else
        let originalTags := current in
        let currentTags := fold_left removeTag tags current in
        if String.eqb currentTags originalTags then None else Some currentTags
  end.

(** A tag name as the text items of the subroutine give it back: no comma
    in it, no space at its ends. *)
Definition plain_tag (t : string) : bool :=
  negb (has_char "," t) && String.eqb (trim_spaces t) t.

(** The tag names of a set of tags, as the application gives them. *)
Definition tag_names_of (tags : list string) : string := join ", " tags.

Definition set_tag_names (i : string) (names : string) (store : Store) : Store :=
  map (fun t =>
         if String.eqb (id t) i
         then {| id := id t; name := name t; notes := notes t; status := status t;
                 lists := lists t; tag_names := names |}
         else t) store.

(** The tag-removal script over to-dos: an unknown id is skipped, an item
    is written and counted only when its tag names changed. *)
Fixpoint run_removeTags (itemIds tags : list string) (updatedCount : nat) (store : Store)
  : nat * Store :=
  match itemIds with
  | [] => (updatedCount, store)
  | i :: rest =>
      match find_todo i store with
      | Some t =>
          match removeTags_write (Some (tag_names t)) tags with
          | Some names => run_removeTags rest tags (S updatedCount) (set_tag_names i names store)
          | None => run_removeTags rest tags updatedCount store
          end
      | None => run_removeTags rest tags updatedCount store
      end
  end.

End Things.

(* ================================================================== *)
(** ** The channels *)

Module Channel.
Import Str Templates Things.

Inductive ErrorType : Type :=
| THINGS_NOT_RUNNING | APPLESCRIPT_ERROR | INVALID_PARAMETER | NOT_FOUND
| TIMEOUT | UNKNOWN | INVALID_REFERENCE.

(** What a call throws: a [Things3Error] with its type and message, or any
    other [Error] with its message.  (The [details] a [Things3Error] may
    carry are not kept.) *)
Inductive Exn : Type :=
| Things3Error (type : ErrorType) (message : string)
| Error (message : string).

Definition exn_message (x : Exn) : string :=
  match x with Things3Error _ m => m | Error m => m end.

(** One use of a channel, or a wait. *)
Inductive Event : Type :=
| EvEnsureRunning
| EvEnsureTags (tags : list string)
| EvExecute (script : Script)
| EvOpen (url : string)
| EvSleep (ms : Z).

(** What the automation channel hands back: the text of the reply.  A reply
    that is the JSON array of a list script is kept as the rows it encodes. *)
Inductive Reply : Type :=
| ReplyText (text : string)
| ReplyRows (rows : list TodosListResult).

(** The host and the operating system, as an oracle: each answer is a
    function of the events so far and of the request.  [bridge] and
    [ensureTagsExist] belong to [AppleScriptBridge] and [BaseTool], [open] is
    the command [execute] starts; an answer [Some x] or [inl x] is the
    failure of the call. *)
Record Host : Type := {
  ensure_running : list Event -> option Exn;
  ensure_tags : list Event -> list string -> option Exn;
  execute_script : list Event -> Script -> Exn + Reply;
  open_url : list Event -> string -> option string
}.

(** Computations: the log of events is threaded through, a call returns or
    throws. *)
Definition M (A : Type) : Type := list Event -> (Exn + A) * list Event.

Definition ret {A : Type} (a : A) : M A := fun log => (inr a, log).

Definition throw {A : Type} (x : Exn) : M A := fun log => (inl x, log).

Definition bind {A B : Type} (m : M A) (k : A -> M B) : M B :=
  fun log =>
    match m log with
    | (inr a, log') => k a log'
    | (inl x, log') => (inl x, log')
    end.

(** [try { m } catch (error) { handler(error) }]. *)
Definition try_catch {A : Type} (m : M A) (handler : Exn -> M A) : M A :=
  fun log =>
    match m log with
    | (inr a, log') => (inr a, log')
    | (inl x, log') => handler x log'
    end.

Definition record (ev : Event) : M unit := fun log => (inr tt, (log ++ [ev])%list).

Definition of_failure (o : option Exn) : M unit :=
  match o with Some x => throw x | None => ret tt end.

Definition ensureThings3Running (h : Host) : M unit :=
  fun log => bind (record EvEnsureRunning) (fun _ => of_failure (ensure_running h log)) log.

Definition ensureTagsExist (h : Host) (tags : list string) : M unit :=
  fun log => bind (record (EvEnsureTags tags)) (fun _ => of_failure (ensure_tags h log tags)) log.

Definition execute (h : Host) (script : Script) : M Reply :=
  fun log =>
    bind (record (EvExecute script))
      (fun _ => match execute_script h log script with
                | inr reply => ret reply
                | inl x => throw x
                end) log.

(** [execAsync(`open ...`)]. *)
Definition exec_open (h : Host) (url : string) : M unit :=
  fun log =>
    bind (record (EvOpen url))
      (fun _ => of_failure (option_map Error (open_url h log url))) log.

(** [await new Promise(resolve => setTimeout(resolve, ms))]. *)
Definition sleep (ms : Z) : M unit := record (EvSleep ms).

(** The [catch] at the end of every tool: a [Things3Error] passes, anything
    else becomes a [Things3Error] of type [UNKNOWN] with the tool's message. *)
Definition wrap_unknown {A : Type} (message : string) (m : M A) : M A :=
  try_catch m
    (fun error =>
       match error with
       | Things3Error _ _ => throw error
       | Error _ => throw (Things3Error UNKNOWN message)
       end).

(** Run a computation from the empty log. *)
Definition run {A : Type} (m : M A) : (Exn + A) * list Event := m [].

End Channel.

Declare Scope chan_scope.
Delimit Scope chan_scope with chan.
Notation "x <- m ;; k" := (Channel.bind m (fun x => k))
  (at level 61, m at next level, right associativity) : chan_scope.
Notation "m ;;; k" := (Channel.bind m (fun _ => k))
  (at level 61, right associativity) : chan_scope.

(* ================================================================== *)
(** ** [URLSchemeHandler], the part that acts *)

Module UrlSchemeIO.
Import Str Json Channel UrlScheme.
Local Open Scope chan_scope.

(** The delays of the configuration, in milliseconds, and what the encoder
    reads from the system. *)
Record Config : Type := {
  delay_urlScheme : Z;
  delay_todoSearch : Z;
  env : Env
}.

(** [execute(url)]: start [open], wait for the host to process the command;
    a failure of either is thrown again as an [Error] with a prefix. *)
Definition execute (h : Host) (cfg : Config) (url : string) : M unit :=
  try_catch
    (exec_open h url ;;; sleep (delay_urlScheme cfg))
    (fun error => throw (Error ("URL scheme execution failed: " ++ exn_message error))).

Definition createTodo (h : Host) (cfg : Config) (params : CreateTodoParams) : M unit :=
  execute h cfg (createTodo_url (env cfg) params).

Definition updateTodo (h : Host) (cfg : Config) (id : string) (params : UpdateTodoParams)
  : M unit :=
  execute h cfg (updateTodo_url (env cfg) id params).

Definition completeTodos (h : Host) (cfg : Config) (ids : list string) : M unit :=
  execute h cfg (completeTodos_url (env cfg) ids).

Definition uncompleteTodos (h : Host) (cfg : Config) (ids : list string) : M unit :=
  execute h cfg (uncompleteTodos_url (env cfg) ids).

Definition removeTagsFromItems (h : Host) (cfg : Config) (itemIds : list string) : M unit :=
  execute h cfg (removeTagsFromItems_url (env cfg) itemIds).

Definition createProject (h : Host) (cfg : Config) (params : CreateProjectParams) : M unit :=
  execute h cfg (createProject_url (env cfg) params).

Definition updateProject (h : Host) (cfg : Config) (id : string)
  (params : UpdateProjectParams) : M unit :=
  execute h cfg (updateProject_url (env cfg) id params).

End UrlSchemeIO.

(* ================================================================== *)
(** ** A host that runs the scripts on its store *)

Module Sim.
Import Str Templates Things Channel.

(** The reply of the application to a script, on a store. *)
Definition answer (script : Script) (store : Store) : Reply :=
  match script with
  | ListTodosScript source statusTest searchTest =>
      ReplyRows (run_listTodos source statusTest searchTest store)
  | CompleteTodosScript ids => ReplyText (of_nat (fst (run_completeTodos ids store)))
  | UncompleteTodosScript ids => ReplyText (of_nat (fst (run_uncompleteTodos ids store)))
  | DeleteTodosScript ids => ReplyText (of_nat (fst (run_deleteTodos ids 0 store)))
  | RemoveTagsScript itemIds tags =>
      ReplyText (of_nat (fst (run_removeTags itemIds tags 0 store)))
  end.

(** A host no call to which fails, whose store is a function of the events
    so far: what the application holds after the commands it was sent and
    the time it was given. *)
Definition scripted_host (store_at : list Event -> Store) : Host :=
  {| ensure_running := fun _ => None;
     ensure_tags := fun _ _ => None;
     execute_script := fun log script => inr (answer script (store_at log));
     open_url := fun _ _ => None |}.

(** A host on which [open] fails. *)
Definition closed_host (message : string) (store : Store) : Host :=
  {| ensure_running := fun _ => None;
     ensure_tags := fun _ _ => None;
     execute_script := fun _ script => inr (answer script store);
     open_url := fun _ _ => Some message |}.

Definition is_open_event (ev : Event) : bool :=
  match ev with EvOpen _ => true | _ => false end.

End Sim.

(* ================================================================== *)
(** ** Numbers *)

Module JsNumber.
Local Open Scope Z_scope.

(** A number of the language is a double: not a number, an infinity, or
    the value [m * 2^e] of a finite double.  A zero is [Finite 0 e]: its
    sign makes no difference to what is done with numbers here. *)
Inductive Number : Type :=
| NaN
| Infinity (negative : bool)
| Finite (m e : Z).

Definition number_of_Z (z : Z) : Number := Finite z 0.
Definition number_of_nat (n : nat) : Number := Finite (Z.of_nat n) 0.

(** A number counts as true unless it is zero or not a number. *)
Definition truthy_number (x : Number) : bool :=
  match x with
  | NaN => false
  | Infinity _ => true
  | Finite m _ => negb (m =? 0)
  end.

(** [x || d] on a number that may be absent. *)
Definition number_or (x : option Number) (d : Number) : Number :=
  match x with
  | Some n => if truthy_number n then n else d
  | None => d
  end.

Definition of_spec_float (f : spec_float) : Number :=
  match f with
  | S754_zero _ => Finite 0 0
  | S754_infinity negative => Infinity negative
  | S754_nan => NaN
  | S754_finite negative m e => Finite (if negative then Z.neg m else Z.pos m) e
  end.

(** The double nearest to [m * 2^e], ties to even.  A value of at most 53
    bits with an exponent in the range of the doubles is a double, and
    stands for itself. *)
Definition round (m e : Z) : Number :=
  if (Z.abs m <? 2 ^ 53) && (-1074 <=? e) && (e <=? 971) then Finite m e
  else of_spec_float (binary_normalize 53 1024 m e false).

(** [x + y]. *)
Definition add (x y : Number) : Number :=
  match x, y with
  | NaN, _ | _, NaN => NaN
  | Infinity a, Infinity b => if Bool.eqb a b then Infinity a else NaN
  | Infinity a, Finite _ _ | Finite _ _, Infinity a => Infinity a
  | Finite m1 e1, Finite m2 e2 =>
      let e := Z.min e1 e2 in
      round (m1 * 2 ^ (e1 - e) + m2 * 2 ^ (e2 - e)) e
  end.

Inductive IntegerOrInfinity : Type :=
| MinusInfinity
| Integer (z : Z)
| PlusInfinity.

(** [ToIntegerOrInfinity]: not a number is 0, a finite number loses its
    fraction, towards zero. *)
Definition ToIntegerOrInfinity (x : Number) : IntegerOrInfinity :=
  match x with
  | NaN => Integer 0
  | Infinity negative => if negative then MinusInfinity else PlusInfinity
  | Finite m e => Integer (if 0 <=? e then m * 2 ^ e else Z.quot m (2 ^ (- e)))
  end.

(** [Array.prototype.slice(start, end)]: an index below zero counts from
    the end of the array, and every index is kept within the array. *)
Definition slice {A : Type} (start final : Number) (l : list A) : list A :=
  let len := Z.of_nat (List.length l) in
  let within (relative : IntegerOrInfinity) : Z :=
    match relative with
    | MinusInfinity => 0
    | Integer z => if z <? 0 then Z.max (len + z) 0 else Z.min z len
    | PlusInfinity => len
    end in
  let k := within (ToIntegerOrInfinity start) in
  let final := within (ToIntegerOrInfinity final) in
  firstn (Z.to_nat (final - k)) (skipn (Z.to_nat k) l).

End JsNumber.

(* ================================================================== *)
(** ** The to-do tools: [TodosTools] *)

Module Todos.
Import Str Templates Things Channel UrlScheme JsNumber.
Local Open Scope chan_scope.

Record TodosListParams : Type := {
  l_filter : option TodoFilter;
  l_status : option TodoStatus;
  l_searchText : option string;
  l_limit : option Number;
  l_offset : option Number
}.

(** [JSON.parse(response) as TodosListResult[]]. *)
Definition JSON_parse_rows (response : Reply) : M (list TodosListResult) :=
  match response with
  | ReplyRows rows => ret rows
  | ReplyText _ => throw (Error "Unexpected token in JSON")
  end.

(** [listTodos]: the filters by project, area and tags of the parameters do
    nothing in the source and are left out. *)
Definition listTodos (h : Host) (params : TodosListParams) : M (list TodosListResult) :=
  wrap_unknown "Failed to list TODOs"
    (ensureThings3Running h ;;;
     let script :=
       Templates.listTodos (l_filter params) (l_status params) (l_searchText params) in
     response <- Channel.execute h script ;;
     todos <- JSON_parse_rows response ;;
     let filtered := todos in
     let filtered :=
       match l_offset params, l_limit params with
       | None, None => filtered
       | _, _ =>
           let offset := number_or (l_offset params) (number_of_Z 0) in
           let limit := number_or (l_limit params) (number_of_nat (List.length filtered)) in
           slice offset (add offset limit) filtered
       end in
     ret filtered).

Record TodosCreateParams : Type := {
  p_title : string;
  p_notes : option string;
  p_whenDate : option string;
  p_deadline : option string;
  p_tags : option (list string);
  p_checklistItems : option (list string);
  p_projectId : option string;
  p_areaId : option string;
  p_heading : option string
}.

Record Correction : Type := {
  c_type : string;
  c_field : string;
  c_reason : string
}.

Record CorrectionReport : Type := {
  correctedData : TodosCreateParams;
  hasCorrections : bool;
  corrections : list Correction
}.

Record TodosCreateResult : Type := {
  cr_success : bool;
  cr_id : string;
  cr_correctionsMade : option (list string)
}.

(** [if (x) createParams.field = x] for a string that may be absent. *)
Definition if_truthy (o : option string) : option string :=
  match o with
  | Some s => if truthy s then Some s else None
  | None => None
  end.

(** The parameters [createTodo] passes on: the title, and every other
    field that is given (and, for a string, not empty). *)
Definition create_params (correctedParams : TodosCreateParams) : CreateTodoParams :=
  {| ct_title := p_title correctedParams;
     ct_notes := if_truthy (p_notes correctedParams);
     ct_whenDate := if_truthy (p_whenDate correctedParams);
     ct_deadline := if_truthy (p_deadline correctedParams);
     ct_tags := p_tags correctedParams;
     ct_checklistItems := p_checklistItems correctedParams;
     ct_projectId := if_truthy (p_projectId correctedParams);
     ct_areaId := if_truthy (p_areaId correctedParams);
     ct_heading := if_truthy (p_heading correctedParams) |}.

Definition by_type (c : Correction) : string := c_type c ++ ": " ++ c_reason c.
Definition by_field (c : Correction) : string := c_field c ++ ": " ++ c_reason c.

Definition title_is (title : string) (todo : TodosListResult) : bool :=
  String.eqb (r_title todo) title.

Section Tools.

(** [correctTodoCreateParams] of [src/utils/error-correction.ts], which is
    not among the sources: any function from the parameters to a report. *)
Variable correctTodoCreateParams : TodosCreateParams -> CorrectionReport.

Variable h : Host.
Variable cfg : UrlSchemeIO.Config.

Definition found (report : CorrectionReport) (id : string) : TodosCreateResult :=
  {| cr_success := true;
     cr_id := id;
     cr_correctionsMade :=
       if hasCorrections report then Some (map by_type (corrections report)) else None |}.

(** [createTodo].  The logging is left out, and so is the test
    [if (!newTodo)] on the first element of a list that is not empty. *)
Definition createTodo (params : TodosCreateParams) : M TodosCreateResult :=
  wrap_unknown "Failed to create TODO"
    (ensureThings3Running h ;;;
     let correctionReport := correctTodoCreateParams params in
     let correctedParams := correctedData correctionReport in
     match p_tags correctedParams with
     | Some (tag :: tags) => ensureTagsExist h (tag :: tags)
     | _ => ret tt
     end ;;;
     let createParams := create_params correctedParams in
     UrlSchemeIO.createTodo h cfg createParams ;;;
     sleep (UrlSchemeIO.delay_todoSearch cfg) ;;;
     searchResult <- listTodos h
       {| l_filter := None; l_status := Some open;
          l_searchText := Some (p_title correctedParams);
          l_limit := Some (number_of_nat 10); l_offset := None |} ;;
     let searchResult := filter (title_is (p_title correctedParams)) searchResult in
     match searchResult with
     | newTodo :: _ => ret (found correctionReport (r_id newTodo))
     | [] =>
         sleep 1000 ;;;
         searchResult <- listTodos h
           {| l_filter := Some inbox; l_status := Some open; l_searchText := None;
              l_limit := Some (number_of_nat 50); l_offset := None |} ;;
         match find (title_is (p_title correctedParams)) searchResult with
         | Some matchingTodo => ret (found correctionReport (r_id matchingTodo))
         | None =>
             ret {| cr_success := true;
                    cr_id := "unknown";
                    cr_correctionsMade := Some (map by_field (corrections correctionReport)) |}
         end
     end).

(** [ids: string | string[]]. *)
Inductive Ids : Type :=
| OneId (id : string)
| ManyIds (ids : list string).

Definition ids_array (ids : Ids) : list string :=
  match ids with OneId id => [id] | ManyIds l => l end.

Record CountResult : Type := {
  success : bool;
  count : Z
}.

(** [completeTodos]: the result field is [completedCount]. *)
Definition completeTodos (params_ids : Ids) : M CountResult :=
  wrap_unknown "Failed to complete TODOs"
    (ensureThings3Running h ;;;
     let ids := ids_array params_ids in
     UrlSchemeIO.completeTodos h cfg ids ;;;
     ret {| success := true; count := Z.of_nat (List.length ids) |}).

(** [uncompleteTodos]: the result field is [uncompletedCount]. *)
Definition uncompleteTodos (params_ids : Ids) : M CountResult :=
  wrap_unknown "Failed to uncomplete TODOs"
    (ensureThings3Running h ;;;
     let ids := ids_array params_ids in
     UrlSchemeIO.uncompleteTodos h cfg ids ;;;
     ret {| success := true; count := Z.of_nat (List.length ids) |}).

(** The digits of [parseInt] in a radix, most significant first; [None]
    while no digit has been read. *)
Definition digit_in (radix : Z) (c : ascii) : option Z :=
  let n := Z.of_nat (nat_of_ascii c) in
  let v :=
    (if (48 <=? n) && (n <=? 57) then n - 48
     else if (97 <=? n) && (n <=? 122) then n - 87
     else if (65 <=? n) && (n <=? 90) then n - 55
     else 36)%Z in
  if (v <? radix)%Z then Some v else None.

Fixpoint read_radix (radix : Z) (s : string) (acc : option Z) : option Z :=
  match s with
  | EmptyString => acc
  | String c rest =>
      match digit_in radix c with
      | Some v =>
          read_radix radix rest
            (Some (match acc with Some a => a * radix + v | None => v end)%Z)
      | None => acc
      end
  end.

Definition read_unsigned (s : string) : option Z :=
  match s with
  | String "0" (String x rest) =>
      if Ascii.eqb x "x" || Ascii.eqb x "X" then read_radix 16 rest None
      else read_radix 10 s None
  | _ => read_radix 10 s None
  end.

(** The global [parseInt] with no radix, on an integer small enough to be
    exact; [None] is [NaN]. *)
Definition parseInt (s : string) : option Z :=
  match trim_start s with
  | String "-" rest => option_map Z.opp (read_unsigned rest)
  | String "+" rest => read_unsigned rest
  | s' => read_unsigned s'
  end.

Definition reply_text (r : Reply) : string :=
  match r with
  | ReplyText t => t
  | ReplyRows _ => "["
  end.

(** [deleteTodos]: the result field is [deletedCount]. *)
Definition deleteTodos (params_ids : Ids) : M CountResult :=
  wrap_unknown "Failed to delete TODOs"
    (ensureThings3Running h ;;;
     let ids := ids_array params_ids in
     let script := Templates.deleteTodos ids in
     result <- Channel.execute h script ;;
     let deletedCount :=
       match parseInt (trim (reply_text result)) with
       | Some n => n
       | None => 0%Z
       end in
     ret {| success := (0 <? deletedCount)%Z; count := deletedCount |}).

End Tools.

End Todos.

(* ================================================================== *)
(** ** The checklist reader: [src/utils/database.ts] *)

Module Database.
Import Str.

(** What the [sqlite3] process and the timer do, in the order it happens.
    The data of an output event is the text [data.toString()] gives for
    the chunk. *)
Inductive ProcEvent : Type :=
| StdoutData (data : string)
| StderrData (data : string)
| Close (code : option Z)
| SpawnError (message : string)
| TimerFired.

Inductive Promise (A : Type) : Type :=
| Pending
| Resolved (value : A)
| Rejected (message : string).
Arguments Pending {A}.
Arguments Resolved {A} value.
Arguments Rejected {A} message.

Record QueryState : Type := {
  stdout : string;
  stderr : string;
  timer_armed : bool;
  promise : Promise string
}.

Definition initial : QueryState :=
  {| stdout := EmptyString; stderr := EmptyString; timer_armed := true;
     promise := Pending |}.

(** [resolve] and [reject] act on a pending promise only. *)
Definition settle (p outcome : Promise string) : Promise string :=
  match p with Pending => outcome | _ => p end.

Definition code_text (code : option Z) : string :=
  match code with Some z => of_Z z | None => "null" end.

Definition step (st : QueryState) (ev : ProcEvent) : QueryState :=
  match ev with
  | StdoutData data =>
      {| stdout := stdout st ++ data; stderr := stderr st;
         timer_armed := timer_armed st; promise := promise st |}
  | StderrData data =>
      {| stdout := stdout st; stderr := stderr st ++ data;
         timer_armed := timer_armed st; promise := promise st |}
  | TimerFired =>
      if timer_armed st then
        {| stdout := stdout st; stderr := stderr st; timer_armed := false;
           promise := settle (promise st) (Rejected "SQLite query timed out after 10s") |}
      else st
  | Close code =>
      {| stdout := stdout st; stderr := stderr st; timer_armed := false;
         promise :=
           settle (promise st)
             (match code with
              | Some Z0 => Resolved (trim (stdout st))
              | _ => Rejected ("sqlite3 exited with code " ++ code_text code ++ ": "
                               ++ stderr st)
              end) |}
  | SpawnError message =>
      {| stdout := stdout st; stderr := stderr st; timer_armed := false;
         promise := settle (promise st) (Rejected ("Failed to spawn sqlite3: " ++ message)) |}
  end.

(** The events that only bring output, and the output they bring. *)
Definition is_data (ev : ProcEvent) : bool :=
  match ev with
  | StdoutData _ | StderrData _ => true
  | _ => false
  end.

Definition out_of (evs : list ProcEvent) : string :=
  String.concat EmptyString
    (map (fun ev => match ev with StdoutData d => d | _ => EmptyString end) evs).

Definition err_of (evs : list ProcEvent) : string :=
  String.concat EmptyString
    (map (fun ev => match ev with StderrData d => d | _ => EmptyString end) evs).

(** The process, as an oracle: what happens after [spawn] with the query. *)
Definition Sqlite := string -> list ProcEvent.

Definition queryDatabase (db : Sqlite) (sql : string) : Promise string :=
  promise (fold_left step (db sql) initial).

Record ChecklistItemRow : Type := {
  ci_id : string;
  ci_title : string;
  ci_completed : bool
}.

(** [todoId.replace(/'/g, "''")]. *)
Fixpoint escape_quotes (s : string) : string :=
  match s with
  | EmptyString => EmptyString
  | String c rest =>
      if Ascii.eqb c "'" then String "'" (String "'" (escape_quotes rest))
      else String c (escape_quotes rest)
  end.

Definition checklist_sql (todoId : string) : string :=
  "SELECT uuid, title, status FROM TMChecklistItem WHERE task = '"
  ++ escape_quotes todoId ++ "' ORDER BY " ++ chr dquote ++ "index" ++ chr dquote ++ " ASC".

Definition row_of_line (line : string) : ChecklistItemRow :=
  let cells := split tab line in
  {| ci_id := nth 0 cells EmptyString;
     ci_title := nth 1 cells EmptyString;
     ci_completed :=
       match nth_error cells 2 with
       | Some status => String.eqb status "3"
       | None => false
       end |}.

(** [getChecklistItems]: the promise the caller awaits.  The [catch] logs
    the error and returns the empty list. *)
Definition getChecklistItems (db : Sqlite) (todoId : string)
  : Promise (list ChecklistItemRow) :=
  match queryDatabase db (checklist_sql todoId) with
  | Pending => Pending
  | Resolved output =>
      if negb (truthy output) then Resolved []
      else Resolved (map row_of_line (split lf output))
  | Rejected _ => Resolved []
  end.

End Database.

(* ================================================================== *)
(** ** The recovery protocol, as a sequence of events *)

Module Protocol.
Import Str Templates Things Channel UrlScheme Todos.

(** A host on which only a script can fail. *)
Definition cooperative (h : Host) : Prop :=
  (forall log, ensure_running h log = None)
  /\ (forall log tags, ensure_tags h log tags = None)
  /\ (forall log url, open_url h log url = None).

(** The events of a create up to the end of the settle delay. *)
Definition activation (cfg : UrlSchemeIO.Config) (corrected : TodosCreateParams)
  : list Event :=
  ([EvEnsureRunning]
  ++ match p_tags corrected with
     | Some (tag :: tags) => [EvEnsureTags (tag :: tags)]
     | _ => []
     end
  ++ [ EvOpen (createTodo_url (UrlSchemeIO.env cfg) (create_params corrected));
       EvSleep (UrlSchemeIO.delay_urlScheme cfg) ])%list.

(** The narrow search: the open to-dos whose title or notes contain the
    title.  The broad search: the open to-dos of the inbox. *)
Definition narrow (title : string) : Script :=
  Templates.listTodos None (Some open) (Some title).

Definition broad : Script := Templates.listTodos (Some inbox) (Some open) None.

Definition before_narrow (cfg : UrlSchemeIO.Config) (corrected : TodosCreateParams)
  : list Event :=
  (activation cfg corrected
   ++ [EvSleep (UrlSchemeIO.delay_todoSearch cfg); EvEnsureRunning])%list.

Definition before_broad (cfg : UrlSchemeIO.Config) (corrected : TodosCreateParams)
  : list Event :=
  (before_narrow cfg corrected
   ++ [EvExecute (narrow (p_title corrected)); EvSleep 1000; EvEnsureRunning])%list.

(** The matches of a search: the rows within the cap whose title is the
    requested one. *)
Definition matches (cap : nat) (title : string) (rows : list TodosListResult)
  : list TodosListResult :=
  filter (title_is title) (firstn cap rows).

End Protocol.

(* ================================================================== *)
(** ** Sample systems, hosts and requests *)

Module Examples.
Import Str Json JsDate UrlScheme Templates Things Channel Sim Todos.

(** A zone whose offset from UTC never changes. *)
Definition fixed_zone (offset : Z) : Z -> bool -> Z := fun _ _ => offset.

(** Noon of 2025-06-10 on a system whose zone is UTC. *)
Definition clock_utc : Clock :=
  {| now := 1749556800000; LocalTZA := fixed_zone 0; fallback_parse := fun _ => None |}.

(** Noon of 2025-06-10, local time, on a system five hours west of UTC all
    the year (as in Bogota or Lima). *)
Definition clock_west : Clock :=
  {| now := 1749574800000; LocalTZA := fixed_zone (-18000000);
     fallback_parse := fun _ => None |}.

(** 09:00 of 2025-06-10, local time, on a system nine hours east of UTC all
    the year (as in Tokyo). *)
Definition clock_east : Clock :=
  {| now := 1749513600000; LocalTZA := fixed_zone 32400000;
     fallback_parse := fun _ => None |}.

(** The zone of New York in 2025: five hours west of UTC, four from
    2025-03-09 07:00 UTC to 2025-11-02 06:00 UTC.  Of a local time the
    change in March skips, the offset before the change is taken; of a
    local time the change in November repeats, the first. *)
Definition new_york_2025 (t : Z) (isUTC : bool) : Z :=
  if isUTC then
    if (t <? 1741503600000)%Z then -18000000
    else if (t <? 1762063200000)%Z then -14400000
    else -18000000
  else
    if (t <? 1741489200000)%Z then -18000000
    else if (t <? 1762048800000)%Z then -14400000
    else -18000000.

(** 23:30 of 2025-03-08, local time, in New York: the night the clocks are
    put forward. *)
Definition clock_new_york : Clock :=
  {| now := 1741494600000; LocalTZA := new_york_2025; fallback_parse := fun _ => None |}.

Definition env_utc : Env := {| THINGS3_AUTH_TOKEN := None; clock := clock_utc |}.
Definition env_west : Env := {| THINGS3_AUTH_TOKEN := None; clock := clock_west |}.
Definition env_east : Env := {| THINGS3_AUTH_TOKEN := None; clock := clock_east |}.
Definition env_new_york : Env := {| THINGS3_AUTH_TOKEN := None; clock := clock_new_york |}.
Definition env_token : Env := {| THINGS3_AUTH_TOKEN := Some "s3cret"; clock := clock_utc |}.

Definition config (e : Env) : UrlSchemeIO.Config :=
  {| UrlSchemeIO.delay_urlScheme := 2000;
     UrlSchemeIO.delay_todoSearch := 500;
     UrlSchemeIO.env := e |}.

Definition no_correction (p : TodosCreateParams) : CorrectionReport :=
  {| correctedData := p; hasCorrections := false; corrections := [] |}.

Definition titled (title : string) : TodosCreateParams :=
  {| p_title := title; p_notes := None; p_whenDate := None; p_deadline := None;
     p_tags := None; p_checklistItems := None; p_projectId := None; p_areaId := None;
     p_heading := None |}.

Definition todo (i title : string) (st : TodoStatus) (tags : list string) : ToDo :=
  {| id := i; name := title; notes := EmptyString; status := st; lists := [inbox];
     tag_names := tag_names_of tags |}.

(** The update [{notes: null}]: the notes are to be cleared. *)
Definition notes_cleared : UpdateTodoParams :=
  {| ut_title := None; ut_notes := Null; ut_whenDate := Undefined; ut_deadline := Undefined;
     ut_tags := None; ut_completed := None; ut_canceled := None; ut_listId := Undefined |}.

(** The update [{whenDate: 'next week'}]: a date is set, in words the
    engine does not read. *)
Definition when_next_week : UpdateTodoParams :=
  {| ut_title := None; ut_notes := Undefined; ut_whenDate := Val "next week";
     ut_deadline := Undefined; ut_tags := None; ut_completed := None;
     ut_canceled := None; ut_listId := Undefined |}.

(** A host that holds the to-do [Buy milk] from the moment a URL was opened. *)
Definition milk_after_open (log : list Event) : Store :=
  if existsb is_open_event log then [todo "T-1" "Buy milk" open []] else [].

(** A host that holds two of three ids. *)
Definition two_of_three : Store :=
  [todo "A" "first" open []; todo "C" "third" open []].

Definition nothing_to_update : UpdateTodoParams :=
  {| ut_title := None; ut_notes := Undefined; ut_whenDate := Undefined; ut_deadline := Undefined;
     ut_tags := None; ut_completed := None; ut_canceled := None; ut_listId := Undefined |}.

(** Four [sqlite3] runs: the program cannot be started; it exits with
    status 1; it does not end within the ten seconds; it ends with no row. *)
Definition sqlite_missing : Database.Sqlite :=
  fun _ => [Database.SpawnError "spawn sqlite3 ENOENT"].

Definition sqlite_fails : Database.Sqlite :=
  fun _ => [Database.StderrData "Error: unable to open database file";
            Database.Close (Some 1%Z)].

Definition sqlite_hangs : Database.Sqlite :=
  fun _ => [Database.TimerFired; Database.Close None].

Definition sqlite_no_rows : Database.Sqlite :=
  fun _ => [Database.Close (Some 0%Z)].

End Examples.

(* ================================================================== *)
(** ** More of [URLSchemeHandler]: the other documents, and reading a
       query string back *)

Module UrlSchemeMore.
Import Str Json Url JsDate UrlScheme.

Definition completeProject_items (e : Env) (id : string) : list JSValue :=
  [update_item PROJECT id (with_auth e [("completed", JBool true)])].

(** [projectId || areaId || ''] *)
Definition bulkMove_listId (projectId areaId : option string) : string :=
  match or_else projectId areaId with
  | Some s => s
  | None => EmptyString
  end.

Definition bulkMoveTodos_items (e : Env) (todoIds : list string)
  (projectId areaId : option string) : list JSValue :=
  batch_items e [("list-id", JString (bulkMove_listId projectId areaId))] todoIds.

(** [bulkUpdateDates]: the two attributes are written as they come, a value
    [undefined] included; no loop deletes it. *)
Definition bulkUpdateDates_attributes (e : Env) (whenDate deadline : Nullable string) : Obj :=
  [ ("when", date_attribute e whenDate); ("deadline", date_attribute e deadline) ].

Definition bulkUpdateDates_items (e : Env) (todoIds : list string)
  (whenDate deadline : Nullable string) : list JSValue :=
  batch_items e (bulkUpdateDates_attributes e whenDate deadline) todoIds.

Definition bulkUpdateDates_url (e : Env) (todoIds : list string)
  (whenDate deadline : Nullable string) : string :=
  buildJsonUrl e (bulkUpdateDates_items e todoIds whenDate deadline).

Definition addChecklistItems_items (e : Env) (todoId : string) (items : list string)
  : list JSValue :=
  [update_item TODO todoId
     (with_auth e [("append-checklist-items", JString (join (chr lf) items))])].

(** *** Updates of a single attribute, as parameters of [updateTodo] *)

Definition dates_update (whenDate deadline : Nullable string) : UpdateTodoParams :=
  {| ut_title := None; ut_notes := Undefined; ut_whenDate := whenDate;
     ut_deadline := deadline; ut_tags := None; ut_completed := None;
     ut_canceled := None; ut_listId := Undefined |}.

Definition list_update (listId : Nullable string) : UpdateTodoParams :=
  {| ut_title := None; ut_notes := Undefined; ut_whenDate := Undefined;
     ut_deadline := Undefined; ut_tags := None; ut_completed := None;
     ut_canceled := None; ut_listId := listId |}.

Definition completed_update (completed : bool) : UpdateTodoParams :=
  {| ut_title := None; ut_notes := Undefined; ut_whenDate := Undefined;
     ut_deadline := Undefined; ut_tags := None; ut_completed := Some completed;
     ut_canceled := None; ut_listId := Undefined |}.

Definition canceled_update : UpdateTodoParams :=
  {| ut_title := None; ut_notes := Undefined; ut_whenDate := Undefined;
     ut_deadline := Undefined; ut_tags := None; ut_completed := None;
     ut_canceled := Some true; ut_listId := Undefined |}.

(** One [updateTodo] document for each id. *)
Definition single_updates (e : Env) (params : UpdateTodoParams) (ids : list string)
  : list JSValue :=
  flat_map (fun id => updateTodo_items e id params) ids.

(** The pair of a parameter that may be absent. *)
Definition pair_if (name : string) (value : option string) : URLSearchParams :=
  match value with
  | Some text => [(name, text)]
  | None => []
  end.

(** The characters that end or open something inside the double quotes of
    the command [open "..."] that [execute] hands to the shell: the double
    quote, the backslash, the dollar sign and the backquote. *)
Definition shell_special (c : ascii) : bool :=
  Ascii.eqb c dquote || Ascii.eqb c backslash || Ascii.eqb c "$" || Ascii.eqb c "`".

End UrlSchemeMore.

(* ================================================================== *)
(** ** [URLSearchParams] from a string *)

Module SearchParams.
Import Str Url.

Definition hex_val (c : ascii) : option nat :=
  let n := nat_of_ascii c in
  if Nat.leb 48 n && Nat.leb n 57 then Some (n - 48)
  else if Nat.leb 65 n && Nat.leb n 70 then Some (n - 55)
  else if Nat.leb 97 n && Nat.leb n 102 then Some (n - 87)
  else None.

(** Percent-decoding, to bytes: a percent sign followed by two
    hexadecimal digits is the byte they write; any other percent sign
    stands for itself.  What the bytes are read as is the reader's: a
    receiver may take them as they are ([parse]); [URLSearchParams] of the
    language decodes them as UTF-8 ([parse_text]). *)
Fixpoint percent_decode (s : string) : string :=
  match s with
  | EmptyString => EmptyString
  | String c rest =>
      if Ascii.eqb c "%" then
        match rest with
        | String h1 (String h2 rest') =>
            match hex_val h1, hex_val h2 with
            | Some a, Some b => String (ascii_of_nat (16 * a + b)) (percent_decode rest')
            | _, _ => String c (percent_decode rest)
            end
        | _ => String c (percent_decode rest)
        end
      else String c (percent_decode rest)
  end.

Fixpoint plus_to_space (s : string) : string :=
  match s with
  | EmptyString => EmptyString
  | String c rest => String (if Ascii.eqb c "+" then space else c) (plus_to_space rest)
  end.

Definition decode_component (s : string) : string := percent_decode (plus_to_space s).

(** The characters of an encoded name or value: never an ampersand, an
    equals sign or a question mark. *)
Definition encoded_char (c : ascii) : bool :=
  form_safe c || Ascii.eqb c "%" || Ascii.eqb c "+".

(** The characters [encodeURIComponent] writes. *)
Definition uri_char (c : ascii) : bool := uri_unreserved c || Ascii.eqb c "%".

(** A token that stands for itself in a URL: letters, digits and
    [-_.!~*'()] only. *)
Definition token_plain (e : UrlScheme.Env) : bool :=
  match UrlScheme.token_given e with
  | Some t => forallb_string uri_unreserved t
  | None => true
  end.

(** The text before the first [=] and the text after it; with no [=], the
    whole text and the empty string. *)
Fixpoint split_pair (s : string) : string * string :=
  match s with
  | EmptyString => (EmptyString, EmptyString)
  | String c rest =>
      if Ascii.eqb c "=" then (EmptyString, rest)
      else let '(name, value) := split_pair rest in (String c name, value)
  end.

Definition parse_sequence (s : string) : string * string :=
  let '(name, value) := split_pair s in
  (decode_component name, decode_component value).

(** The pairs of a query string, as bytes: a leading question mark is
    dropped, the text is cut at the ampersands, the empty pieces are left
    out, each piece is cut at its first equals sign and its two parts are
    percent-decoded. *)
Definition parse (init : string) : URLSearchParams :=
  let text :=
    match init with
    | String "?" rest => rest
    | _ => init
    end in
  map parse_sequence (filter truthy (split "&" text)).

(** [params.get(name)]: the value of the first pair of that name. *)
Fixpoint get (name : string) (ps : URLSearchParams) : option string :=
  match ps with
  | [] => None
  | (k, v) :: rest => if String.eqb k name then Some v else get name rest
  end.

(** *** Decoding UTF-8

    The decoder [URLSearchParams] reads names and values with: a sequence
    of bytes that is the UTF-8 form of a character is kept; of any other
    bytes, each longest run that starts a form and cannot be completed,
    and each byte that starts none, is replaced by U+FFFD. *)

Definition is_ascii (c : ascii) : bool := Nat.ltb (nat_of_ascii c) 128.

(** The UTF-8 form of U+FFFD before a text. *)
Definition replaced (rest : string) : string :=
  String (ascii_of_nat 239) (String (ascii_of_nat 191) (String (ascii_of_nat 189) rest)).

Definition between (lo hi : nat) (c : ascii) : bool :=
  Nat.leb lo (nat_of_ascii c) && Nat.leb (nat_of_ascii c) hi.

(** The bytes that may follow a first byte: E0 is followed by A0 to BF, ED
    by 80 to 9F, F0 by 90 to BF, F4 by 80 to 8F, any other by 80 to BF. *)
Definition second_byte (first : ascii) (c : ascii) : bool :=
  let n := nat_of_ascii first in
  if Nat.eqb n 224 then between 160 191 c
  else if Nat.eqb n 237 then between 128 159 c
  else if Nat.eqb n 240 then between 144 191 c
  else if Nat.eqb n 244 then between 128 143 c
  else between 128 191 c.

Fixpoint utf8_decode (s : string) : string :=
  match s with
  | EmptyString => EmptyString
  | String c1 r1 =>
      if is_ascii c1 then String c1 (utf8_decode r1)
      else if between 194 223 c1 then
        match r1 with
        | String c2 r2 =>
            if second_byte c1 c2 then String c1 (String c2 (utf8_decode r2))
            else replaced (utf8_decode r1)
        | EmptyString => replaced EmptyString
        end
      else if between 224 239 c1 then
        match r1 with
        | String c2 r2 =>
            if second_byte c1 c2 then
              match r2 with
              | String c3 r3 =>
                  if between 128 191 c3
                  then String c1 (String c2 (String c3 (utf8_decode r3)))
                  else replaced (utf8_decode r2)
              | EmptyString => replaced EmptyString
              end
            else replaced (utf8_decode r1)
        | EmptyString => replaced EmptyString
        end
      else if between 240 244 c1 then
        match r1 with
        | String c2 r2 =>
            if second_byte c1 c2 then
              match r2 with
              | String c3 r3 =>
                  if between 128 191 c3 then
                    match r3 with
                    | String c4 r4 =>
                        if between 128 191 c4
                        then String c1 (String c2 (String c3 (String c4 (utf8_decode r4))))
                        else replaced (utf8_decode r3)
                    | EmptyString => replaced EmptyString
                    end
                  else replaced (utf8_decode r2)
              | EmptyString => replaced EmptyString
              end
            else replaced (utf8_decode r1)
        | EmptyString => replaced EmptyString
        end
      else replaced (utf8_decode r1)
  end.

(** [new URLSearchParams(init)] for a string: the pairs of the query
    string, their names and values decoded as UTF-8. *)
Definition parse_text (init : string) : URLSearchParams :=
  map (fun kv => (utf8_decode (fst kv), utf8_decode (snd kv))) (parse init).

Record CallbackResult : Type := {
  cb_id : option string;
  cb_error : option string
}.

(** [parseCallbackResponse], from the search part [new URL(url).search] of
    the callback URL on: a value that is empty is left out of the result
    like a value that is missing. *)
Definition callback_of_search (search : string) : CallbackResult :=
  let params := parse_text search in
  let given (o : option string) :=
    match o with
    | Some v => if truthy v then Some v else None
    | None => None
    end in
  {| cb_id := given (get "x-things-id" params);
     cb_error := given (get "x-error" params) |}.

End SearchParams.

(* ================================================================== *)
(** ** More of [TodosTools]: updating, and adding checklist items *)

Module TodosMore.
Import Str Json Templates Things Channel UrlScheme UrlSchemeMore JsNumber Todos Protocol.
Local Open Scope chan_scope.

(** The URLs a log opened, in order. *)
Fixpoint opened (log : list Event) : list string :=
  match log with
  | [] => []
  | EvOpen url :: rest => url :: opened rest
  | _ :: rest => opened rest
  end.

(** The check of the tags a tool makes before it writes: none for no tags
    or an empty list. *)
Definition tag_check (tags : option (list string)) : list Event :=
  match tags with
  | Some (tag :: tags) => [EvEnsureTags (tag :: tags)]
  | _ => []
  end.

(** The events of a create: the check that the application runs, the check
    of the tags of the request, the opening of the creation URL, a wait,
    the narrow search and the broad search. *)
Definition create_event (cfg : UrlSchemeIO.Config) (corrected : TodosCreateParams)
  (ev : Event) : Prop :=
  ev = EvEnsureRunning
  \/ [ev] = tag_check (p_tags corrected)
  \/ ev = EvOpen (createTodo_url (UrlSchemeIO.env cfg) (create_params corrected))
  \/ (exists ms, ev = EvSleep ms)
  \/ ev = EvExecute (narrow (p_title corrected))
  \/ ev = EvExecute broad.

Definition is_things3_error (x : Exn) : bool :=
  match x with Things3Error _ _ => true | Error _ => false end.

(** The parameters of [todos_update], as its schema has them: the notes, a
    date, a project or an area may be [null]. *)
Record TodosUpdateParams : Type := {
  u_id : string;
  u_title : option string;
  u_notes : Nullable string;
  u_whenDate : Nullable string;
  u_deadline : Nullable string;
  u_tags : option (list string);
  u_projectId : Nullable string;
  u_areaId : Nullable string
}.

Record UpdateCorrectionReport : Type := {
  u_correctedData : TodosUpdateParams;
  u_hasCorrections : bool;
  u_corrections : list Correction
}.

Record TodosUpdateResult : Type := {
  ur_success : bool;
  ur_correctionsMade : list string
}.

(** A value that counts as true in [a || b]: a string that is not empty. *)
Definition truthy_value (x : Nullable string) : option string :=
  match x with
  | Val s => if truthy s then Some s else None
  | _ => None
  end.

(** [if (projectId !== undefined || areaId !== undefined)
      updateParams.listId = projectId || areaId || null]. *)
Definition update_listId (projectId areaId : Nullable string) : Nullable string :=
  match projectId, areaId with
  | Undefined, Undefined => Undefined
  | _, _ =>
      match truthy_value projectId with
      | Some p => Val p
      | None =>
          match truthy_value areaId with
          | Some a => Val a
          | None => Null
          end
      end
  end.

(** The [updateParams] of [updateTodo]: every field that is not
    [undefined] is copied; neither [completed] nor [canceled] is ever set. *)
Definition update_params (correctedParams : TodosUpdateParams) : UpdateTodoParams :=
  {| ut_title := u_title correctedParams;
     ut_notes := u_notes correctedParams;
     ut_whenDate := u_whenDate correctedParams;
     ut_deadline := u_deadline correctedParams;
     ut_tags := u_tags correctedParams;
     ut_completed := None;
     ut_canceled := None;
     ut_listId := update_listId (u_projectId correctedParams) (u_areaId correctedParams) |}.

(** What the [catch] at the end of a tool throws for what it caught. *)
Definition rethrown (message : string) (error : Exn) : Exn :=
  match error with
  | Things3Error _ _ => error
  | Error _ => Things3Error UNKNOWN message
  end.

(** The pagination of [listTodos]: [filtered.slice(offset, offset + limit)]
    with [offset || 0] and [limit || filtered.length], when either is given. *)
Definition page (params : TodosListParams) (filtered : list TodosListResult)
  : list TodosListResult :=
  match l_offset params, l_limit params with
  | None, None => filtered
  | _, _ =>
      let offset := number_or (l_offset params) (number_of_Z 0) in
      let limit := number_or (l_limit params) (number_of_nat (List.length filtered)) in
      slice offset (add offset limit) filtered
  end.

(** The outcome of a tool that acts through one URL, after the checks it
    makes through the bridge: the events are a beginning, not empty, of the
    checks, the opening of the URL and the wait after it, and all of them
    when the tool returns a result; what is thrown is a [Things3Error]. *)
Definition one_url_outcome {A : Type} (checks : list Event) (url : string) (delay : Z)
  (out : (Exn + A) * list Event) : Prop :=
  let whole := (checks ++ [EvOpen url; EvSleep delay])%list in
  (exists k, snd out = firstn (S k) whole)
  /\ (forall result, fst out = inr result -> snd out = whole)
  /\ (forall x, fst out = inl x -> is_things3_error x = true).

(** The outcome of a tool that acts through one script handed to
    [bridge.execute], after the check that the application runs. *)
Definition one_script_outcome {A : Type} (script : Script) (out : (Exn + A) * list Event)
  : Prop :=
  let whole := [EvEnsureRunning; EvExecute script] in
  (exists k, snd out = firstn (S k) whole)
  /\ (forall result, fst out = inr result -> snd out = whole)
  /\ (forall x, fst out = inl x -> is_things3_error x = true).

Section Tools.

(** [correctTodoUpdateParams] of [src/utils/error-correction.ts], which is
    not among the sources: any function from the parameters to a report. *)
Variable correctTodoUpdateParams : TodosUpdateParams -> UpdateCorrectionReport.

Variable h : Host.
Variable cfg : UrlSchemeIO.Config.

(** [updateTodo].  The logging is left out.  The message of the error names
    the id of the request, the URL the id of the corrected request. *)
Definition updateTodo (params : TodosUpdateParams) : M TodosUpdateResult :=
  wrap_unknown ("Failed to update TODO " ++ u_id params)
    (ensureThings3Running h ;;;
     let correctionReport := correctTodoUpdateParams params in
     let correctedParams := u_correctedData correctionReport in
     match u_tags correctedParams with
     | Some (tag :: tags) => ensureTagsExist h (tag :: tags)
     | _ => ret tt
     end ;;;
     let updateParams := update_params correctedParams in
     UrlSchemeIO.updateTodo h cfg (u_id correctedParams) updateParams ;;;
     ret {| ur_success := true;
            ur_correctionsMade := map by_field (u_corrections correctionReport) |}).

(** [URLSchemeHandler.addChecklistItems]. *)
Definition handler_addChecklistItems (todoId : string) (items : list string) : M unit :=
  UrlSchemeIO.execute h cfg
    (buildJsonUrl (UrlSchemeIO.env cfg)
       (addChecklistItems_items (UrlSchemeIO.env cfg) todoId items)).

(** [addChecklistItems]: the result field is [addedCount]. *)
Definition addChecklistItems (todoId : string) (items : list string) : M CountResult :=
  wrap_unknown ("Failed to add checklist items to TODO " ++ todoId)
    (ensureThings3Running h ;;;
     handler_addChecklistItems todoId items ;;;
     ret {| success := true; count := Z.of_nat (List.length items) |}).

End Tools.

End TodosMore.

(* ================================================================== *)
(** ** The query as [sqlite3] reads it, and the rows it prints *)

Module Sql.
Import Str Database.

(** A string literal of SQL after its opening quote: two quotes stand for
    one, a single quote ends the literal.  The result is the text the
    literal denotes and what follows the closing quote. *)
Fixpoint read_literal_body (s : string) : option (string * string) :=
  match s with
  | EmptyString => None
  | String c rest =>
      if Ascii.eqb c "'" then
        match rest with
        | String c' rest' =>
            if Ascii.eqb c' "'" then
              match read_literal_body rest' with
              | Some (text, after) => Some (String "'" text, after)
              | None => None
              end
            else Some (EmptyString, rest)
        | EmptyString => Some (EmptyString, rest)
        end
      else
        match read_literal_body rest with
        | Some (text, after) => Some (String c text, after)
        | None => None
        end
  end.

(** One row of [TMChecklistItem], and the line the command-line shell
    prints for it with the separator TAB. *)
Record Item : Type := {
  uuid : string;
  title : string;
  status : Z
}.

Definition line_of (item : Item) : string :=
  uuid item ++ chr tab ++ title item ++ chr tab ++ of_Z (status item).

(** The text of the rows, each line ended by a line feed. *)
Definition printed (items : list Item) : string :=
  String.concat EmptyString (map (fun item => line_of item ++ chr lf) items).

Definition row_of_item (item : Item) : ChecklistItemRow :=
  {| ci_id := uuid item;
     ci_title := title item;
     ci_completed := (status item =? 3)%Z |}.

(** A cell that prints on one line and in one column: no TAB and no line
    feed in it.  An id, moreover, is not empty and starts with no white
    space. *)
Definition cell (s : string) : bool :=
  negb (has_char tab s) && negb (has_char lf s).

(** The characters of the text of an integer. *)
Definition number_char (c : ascii) : bool := is_digit c || Ascii.eqb c "-".

Definition starts_plain (s : string) : bool :=
  truthy s && negb (starts_with_space s).

Definition printable (item : Item) : bool :=
  cell (uuid item) && starts_plain (uuid item) && cell (title item).

End Sql.

(* ================================================================== *)
(** ** Resources: which tool a URI is read with *)

Module Resources.
Import Str Templates.

Record ResourceDefinition : Type := {
  uri : string;
  name : string;
  description : string;
  mimeType : string
}.

Definition STATIC_RESOURCES : list ResourceDefinition :=
  [ {| uri := "things3://inbox"; name := "Inbox";
       description := "TODOs in the Inbox"; mimeType := "application/json" |};
    {| uri := "things3://today"; name := "Today";
       description := "TODOs scheduled for today"; mimeType := "application/json" |};
    {| uri := "things3://upcoming"; name := "Upcoming";
       description := "TODOs scheduled for upcoming dates"; mimeType := "application/json" |};
    {| uri := "things3://anytime"; name := "Anytime";
       description := "TODOs available anytime"; mimeType := "application/json" |};
    {| uri := "things3://someday"; name := "Someday";
       description := "TODOs deferred to someday"; mimeType := "application/json" |};
    {| uri := "things3://logbook"; name := "Logbook";
       description := "Completed TODOs"; mimeType := "application/json" |};
    {| uri := "things3://projects"; name := "All Projects";
       description := "List of all projects"; mimeType := "application/json" |};
    {| uri := "things3://areas"; name := "All Areas";
       description := "List of all areas"; mimeType := "application/json" |};
    {| uri := "things3://tags"; name := "All Tags";
       description := "List of all tags"; mimeType := "application/json" |} ].

(** The value of [FILTER_MAP[uri]]: a filter for one of the six keys of the
    object; for a name every object inherits from [Object.prototype], the
    function or object of that name, which counts as true in a condition;
    [undefined] for any other string. *)
Inductive Lookup : Type :=
| Own (filter : TodoFilter)
| Inherited (property : string)
| Missing.

Definition object_prototype_names : list string :=
  [ "constructor"; "__defineGetter__"; "__defineSetter__"; "hasOwnProperty";
    "__lookupGetter__"; "__lookupSetter__"; "isPrototypeOf"; "propertyIsEnumerable";
    "toString"; "valueOf"; "__proto__"; "toLocaleString" ].

Definition FILTER_MAP (key : string) : Lookup :=
  if String.eqb key "things3://inbox" then Own inbox
  else if String.eqb key "things3://today" then Own today
  else if String.eqb key "things3://upcoming" then Own upcoming
  else if String.eqb key "things3://anytime" then Own anytime
  else if String.eqb key "things3://someday" then Own someday
  else if String.eqb key "things3://logbook" then Own logbook
  else if existsb (String.eqb key) object_prototype_names then Inherited key
  else Missing.

(** A line terminator of a regular expression in the text: LF, CR, or the
    three bytes of U+2028 or of U+2029. *)
Fixpoint has_line_terminator (s : string) : bool :=
  match s with
  | EmptyString => false
  | String c rest =>
      Ascii.eqb c lf || Ascii.eqb c cr
      || (Nat.eqb (nat_of_ascii c) 226
          && match rest with
             | String c2 (String c3 _) =>
                 Nat.eqb (nat_of_ascii c2) 128
                 && (Nat.eqb (nat_of_ascii c3) 168 || Nat.eqb (nat_of_ascii c3) 169)
             | _ => false
             end)
      || has_line_terminator rest
  end.

(** What follows the prefix, when the text starts with it. *)
Fixpoint after_prefix (prefix s : string) : option string :=
  match prefix with
  | EmptyString => Some s
  | String p prefix' =>
      match s with
      | String c s' => if Ascii.eqb p c then after_prefix prefix' s' else None
      | EmptyString => None
      end
  end.

(** [uri.match(/^prefix(.+)$/)?.[1]]: the dot matches every character but
    a line terminator, and the dollar sign only the end of the text. *)
Definition match_id (prefix uri : string) : option string :=
  match after_prefix prefix uri with
  | Some rest =>
      if truthy rest && negb (has_line_terminator rest) then Some rest else None
  | None => None
  end.

(** The call [readResource] makes for a URI, or the error it throws. *)
Inductive Call : Type :=
| ListTodos (filter : Lookup)
| ListProjects
| ListAreas
| ListTags
| GetTodo (id : string)
| GetProject (id : string)
| UnknownResource (message : string).

Definition readResource (uri : string) : Call :=
  match FILTER_MAP uri with
  | Own filter => ListTodos (Own filter)
  | Inherited property => ListTodos (Inherited property)
  | Missing =>
      if String.eqb uri "things3://projects" then ListProjects
      else if String.eqb uri "things3://areas" then ListAreas
      else if String.eqb uri "things3://tags" then ListTags
      else
        match match_id "things3://todos/" uri with
        | Some id => GetTodo id
        | None =>
            match match_id "things3://projects/" uri with
            | Some id => GetProject id
            | None => UnknownResource ("Unknown resource URI: " ++ uri)
            end
        end
  end.

Definition is_list_call (call : Call) : bool :=
  match call with
  | ListTodos (Own _) | ListProjects | ListAreas | ListTags => true
  | _ => false
  end.

End Resources.

(* ================================================================== *)
(** ** The log level: [parseLogLevel] of the configuration and
       [isLevelEnabled] of the logger *)

Module Logging.
Import Str.

Inductive LogLevel : Type := DEBUG | INFO | WARN | ERROR.

(** The numbers of the [enum]. *)
Definition level_number (level : LogLevel) : Z :=
  match level with
  | DEBUG => 0
  | INFO => 1
  | WARN => 2
  | ERROR => 3
  end.

Definition validLevels : list string := ["debug"; "info"; "warn"; "error"].

(** [levelMap[key]] for a key of the object.  For any other key the value
    is [undefined] or, for a name every object inherits, a function or an
    object that no number is greater than or equal to: [isLevelEnabled] is
    false in both cases, which [None] stands for. *)
Definition levelMap (key : string) : option LogLevel :=
  if String.eqb key "debug" then Some DEBUG
  else if String.eqb key "info" then Some INFO
  else if String.eqb key "warn" then Some WARN
  else if String.eqb key "error" then Some ERROR
  else None.

(** [isLevelEnabled(level)] of a logger whose configuration has the level
    [config_level]. *)
Definition isLevelEnabled (config_level : string) (level : LogLevel) : bool :=
  match levelMap config_level with
  | Some configLevel => (level_number configLevel <=? level_number level)%Z
  | None => false
  end.

Section Platform.

(** [String.prototype.toLowerCase], whatever it does to a string. *)
Variable toLowerCase : string -> string.

(** [parseLogLevel(value)]: [validLevels.includes(level || '') ? level :
    'info'] with [level = value?.toLowerCase()]. *)
Definition parseLogLevel (value : option string) : string :=
  let level := option_map toLowerCase value in
  let text := match level with Some l => l | None => EmptyString end in
  if existsb (String.eqb text) validLevels then text else "info".

End Platform.

End Logging.

(* ================================================================== *)
(** * Properties *)

(** The keys of a record written out are distinct. *)
Ltac distinct_keys :=
  cbn [map fst]; repeat constructor; cbn [In]; intuition discriminate.

Section StringFacts.
Import Str.

Lemma append_assoc (a b c : string) : ((a ++ b) ++ c = a ++ (b ++ c))%string.
Proof. induction a as [|x a IH]; simpl; [reflexivity|]. rewrite IH. reflexivity. Qed.

Lemma append_empty_r (a : string) : (a ++ EmptyString)%string = a.
Proof. induction a as [|x a IH]; simpl; [reflexivity|]. rewrite IH. reflexivity. Qed.

Lemma forallb_string_app (p : ascii -> bool) (a b : string) :
  forallb_string p (a ++ b) = forallb_string p a && forallb_string p b.
Proof.
  induction a as [|c a IH]; simpl; [reflexivity|].
  rewrite IH, andb_assoc. reflexivity.
Qed.

Lemma has_char_app (c : ascii) (a b : string) :
  has_char c (a ++ b) = has_char c a || has_char c b.
Proof.
  unfold has_char. induction a as [|x a IH]; simpl; [reflexivity|].
  rewrite IH, orb_assoc. reflexivity.
Qed.

(** A character outside a class does not occur in a string of the class. *)
Lemma has_char_outside (p : ascii -> bool) (c : ascii) (s : string) :
  forallb_string p s = true -> p c = false -> has_char c s = false.
Proof.
  intros Hs Hc. unfold has_char.
  induction s as [|x s IH]; simpl in *; [reflexivity|].
  apply andb_true_iff in Hs as [Hx Hs].
  rewrite (IH Hs), orb_false_r.
  destruct (Ascii.eqb c x) eqn:E; [|reflexivity].
  apply Ascii.eqb_eq in E. subst x. congruence.
Qed.

Lemma split_first_piece (sep : ascii) (a b : string) :
  has_char sep a = false ->
  split sep (a ++ String sep b) = a :: split sep b.
Proof.
  unfold has_char. induction a as [|x a IH]; simpl; intros H.
  - rewrite Ascii.eqb_refl. reflexivity.
  - apply orb_false_iff in H as [Hx Ha].
    rewrite Ascii.eqb_sym, Hx, (IH Ha). reflexivity.
Qed.

Lemma string_of_uint_digits (d : Decimal.uint) :
  forallb_string is_digit (NilEmpty.string_of_uint d) = true.
Proof. induction d; simpl; auto. Qed.

Lemma of_nat_digits (n : nat) : forallb_string is_digit (of_nat n) = true.
Proof. apply string_of_uint_digits. Qed.

End StringFacts.

Section EscapeFacts.
Import Str Escape.

(** C5.  Escaping any string for a script literal and reading it back with
    the inverse parser gives the string back; in particular for the strings
    that hold a double quote, a backslash or a newline. *)
Theorem escape_unescape_roundtrip :
  forall s : string, unescape (escapeString s) = Some s.
Proof.
  induction s as [|c rest IH]; simpl; [reflexivity|].
  destruct (Ascii.eqb c backslash) eqn:Hb.
  - apply Ascii.eqb_eq in Hb; subst c. simpl. rewrite IH. reflexivity.
  - destruct (Ascii.eqb c dquote) eqn:Hq.
    + apply Ascii.eqb_eq in Hq; subst c. simpl. rewrite IH. reflexivity.
    + simpl. rewrite Hb, Hq, IH. reflexivity.
Qed.

(** A literal in script text ends where it should: the reader gets the
    string back and goes on with the text after the literal, whatever
    quotes and backslashes the string holds. *)
Lemma literal_read_back (s after : string) :
  read_literal (literal s ++ after) = Some (s, after).
Proof.
  unfold read_literal, literal. cbn [append]. rewrite Ascii.eqb_refl.
  rewrite append_assoc. cbn [chr append].
  induction s as [|c rest IH]; cbn [escapeString append read_body].
  - change (Ascii.eqb dquote backslash) with false. cbv iota.
    rewrite Ascii.eqb_refl. reflexivity.
  - destruct (Ascii.eqb c backslash) eqn:Hb.
    + apply Ascii.eqb_eq in Hb. subst c. cbn [append read_body].
      rewrite Ascii.eqb_refl. unfold decode_escape. rewrite Ascii.eqb_refl, IH.
      reflexivity.
    + destruct (Ascii.eqb c dquote) eqn:Hq.
      * apply Ascii.eqb_eq in Hq. subst c. cbn [append read_body].
        rewrite Ascii.eqb_refl. unfold decode_escape.
        change (Ascii.eqb dquote backslash) with false. cbv iota.
        rewrite Ascii.eqb_refl, IH. reflexivity.
      * cbn [append read_body]. rewrite Hb, Hq, IH. reflexivity.
Qed.

Example escape_quotes_backslash_newline :
  let s := "say " ++ chr dquote ++ "hi" ++ chr dquote ++ chr backslash ++ chr lf ++ "bye" in
  escapeString s
  = "say " ++ chr backslash ++ chr dquote ++ "hi" ++ chr backslash ++ chr dquote
    ++ chr backslash ++ chr backslash ++ chr lf ++ "bye"
  /\ unescape (escapeString s) = Some s.
Proof. split; reflexivity. Qed.

End EscapeFacts.







Section NumberFacts.
Import JsNumber.

(** The sum of two natural numbers, while it has at most 53 bits. *)
Lemma add_naturals (a b : nat) :
  (Z.of_nat (a + b) < 2 ^ 53)%Z ->
  add (number_of_nat a) (number_of_nat b) = number_of_nat (a + b).
Proof.
  intros Hbound. unfold add, number_of_nat, round.
  change (Z.min 0 0) with 0%Z. change (2 ^ (0 - 0))%Z with 1%Z.
  rewrite !Z.mul_1_r, <- Nat2Z.inj_add.
  replace (Z.abs (Z.of_nat (a + b)) <? 2 ^ 53)%Z with true
    by (symmetry; apply Z.ltb_lt; lia).
  reflexivity.
Qed.

(** A slice between two natural numbers. *)
Lemma slice_naturals {A : Type} (start final : nat) (l : list A) :
  slice (number_of_nat start) (number_of_nat final) l
  = firstn (final - start) (skipn start l).
Proof.
  unfold slice, number_of_nat, ToIntegerOrInfinity.
  change (0 <=? 0)%Z with true. cbv beta iota zeta. change (2 ^ 0)%Z with 1%Z.
  rewrite !Z.mul_1_r.
  replace (Z.of_nat start <? 0)%Z with false by (symmetry; apply Z.ltb_ge; lia).
  replace (Z.of_nat final <? 0)%Z with false by (symmetry; apply Z.ltb_ge; lia).
  destruct (Nat.le_gt_cases (List.length l) start) as [Hout|Hin].
  - rewrite !(skipn_all2 l) by lia. rewrite !firstn_nil. reflexivity.
  - replace (Z.to_nat (Z.min (Z.of_nat start) (Z.of_nat (List.length l))))
      with start by lia.
    replace (Z.to_nat (Z.min (Z.of_nat final) (Z.of_nat (List.length l))
                       - Z.min (Z.of_nat start) (Z.of_nat (List.length l))))
      with (Nat.min (final - start) (List.length (skipn start l)))
      by (rewrite length_skipn; lia).
    generalize (skipn start l). intros rest. generalize (final - start). intros n.
    destruct (Nat.le_gt_cases n (List.length rest)) as [Hle|Hgt].
    + replace (Nat.min n (List.length rest)) with n by lia. reflexivity.
    + replace (Nat.min n (List.length rest)) with (List.length rest) by lia.
      rewrite firstn_all, firstn_all2 by lia. reflexivity.
Qed.

End NumberFacts.

Section RecoveryFacts.
Import Str Templates Things Channel Sim UrlScheme JsNumber Todos Protocol.

Lemma ensureThings3Running_ok (h : Host) (log : list Event) :
  ensure_running h log = None ->
  ensureThings3Running h log = (inr tt, (log ++ [EvEnsureRunning])%list).
Proof.
  intros H. unfold ensureThings3Running, bind, record, of_failure. rewrite H. reflexivity.
Qed.

Lemma ensureTagsExist_ok (h : Host) (tags : list string) (log : list Event) :
  ensure_tags h log tags = None ->
  ensureTagsExist h tags log = (inr tt, (log ++ [EvEnsureTags tags])%list).
Proof.
  intros H. unfold ensureTagsExist, bind, record, of_failure. rewrite H. reflexivity.
Qed.

Lemma execute_ok (h : Host) (script : Script) (reply : Reply) (log : list Event) :
  execute_script h log script = inr reply ->
  Channel.execute h script log = (inr reply, (log ++ [EvExecute script])%list).
Proof.
  intros H. unfold Channel.execute, bind, record. rewrite H. reflexivity.
Qed.

Lemma url_execute_ok (h : Host) (cfg : UrlSchemeIO.Config) (url : string) (log : list Event) :
  open_url h log url = None ->
  UrlSchemeIO.execute h cfg url log
  = (inr tt, (log ++ [EvOpen url; EvSleep (UrlSchemeIO.delay_urlScheme cfg)])%list).
Proof.
  intros H.
  unfold UrlSchemeIO.execute, try_catch, bind, exec_open, sleep, record, of_failure.
  rewrite H. simpl. rewrite <- app_assoc. reflexivity.
Qed.

(** A list call on a host that keeps running and answers with rows: the
    rows within the limit. *)
Lemma listTodos_ok (h : Host) (params : TodosListParams) (rows : list TodosListResult)
  (cap : nat) (log : list Event) :
  ensure_running h log = None ->
  l_limit params = Some (number_of_nat (S cap)) -> l_offset params = None ->
  (Z.of_nat (S cap) < 2 ^ 53)%Z ->
  execute_script h (log ++ [EvEnsureRunning])
    (Templates.listTodos (l_filter params) (l_status params) (l_searchText params))
  = inr (ReplyRows rows) ->
  listTodos h params log
  = (inr (firstn (S cap) rows),
     (log ++ [EvEnsureRunning;
              EvExecute (Templates.listTodos (l_filter params) (l_status params)
                           (l_searchText params))])%list).
Proof.
  intros Hrun Hlimit Hoffset Hbound Hrows.
  unfold listTodos, wrap_unknown, try_catch, bind.
  rewrite (ensureThings3Running_ok _ _ Hrun).
  rewrite (execute_ok _ _ _ _ Hrows).
  rewrite Hlimit, Hoffset. cbn [JSON_parse_rows ret number_or].
  change (truthy_number (number_of_nat (S cap))) with true. cbv iota.
  change (number_of_Z 0) with (number_of_nat 0).
  rewrite (add_naturals 0 (S cap)) by exact Hbound.
  rewrite slice_naturals. cbn [Nat.add Nat.sub skipn].
  rewrite <- app_assoc. reflexivity.
Qed.

Lemma find_as_filter {A : Type} (p : A -> bool) (l : list A) :
  find p l = hd_error (filter p l).
Proof.
  induction l as [|a l IH]; simpl; [reflexivity|].
  destruct (p a); [reflexivity|exact IH].
Qed.

(** The events of a create up to the first search, on a cooperative host. *)
Lemma createTodo_prefix (h : Host) (cfg : UrlSchemeIO.Config) (corrected : TodosCreateParams) :
  cooperative h ->
  (ensureThings3Running h ;;;
   match p_tags corrected with
   | Some (tag :: tags) => ensureTagsExist h (tag :: tags)
   | _ => ret tt
   end ;;;
   UrlSchemeIO.createTodo h cfg (create_params corrected))%chan []
  = (inr tt, activation cfg corrected).
Proof.
  intros (Hrun & Htags & Hopen).
  unfold bind, activation, UrlSchemeIO.createTodo.
  rewrite (ensureThings3Running_ok _ _ (Hrun _)).
  destruct (p_tags corrected) as [[|tag tags]|]; cbn [ret app].
  - rewrite (url_execute_ok _ _ _ _ (Hopen _ _)). reflexivity.
  - rewrite (ensureTagsExist_ok _ _ _ (Htags _ _)).
    rewrite (url_execute_ok _ _ _ _ (Hopen _ _)). reflexivity.
  - rewrite (url_execute_ok _ _ _ _ (Hopen _ _)). reflexivity.
Qed.

(** C1.  On a host whose calls do not fail, a create of a to-do with
    (corrected) title [T] issues the activation, waits the settle delay and
    the search delay, and runs the narrow search over the open to-dos.  If
    one of the first 10 rows has exactly the title [T], the first such row
    gives the id of a successful result and nothing else happens.
    Otherwise the create waits one more second and lists the open to-dos of
    the inbox; the first of the first 50 rows with exactly the title [T]
    gives the id, and with no such row the result is still a success, with
    the id [unknown]. *)
Theorem createTodo_two_stage_recovery :
  forall (correct : TodosCreateParams -> CorrectionReport) (h : Host)
         (cfg : UrlSchemeIO.Config) (params : TodosCreateParams)
         (rows1 : list TodosListResult),
    let report := correct params in
    let corrected := correctedData report in
    let T := p_title corrected in
    cooperative h ->
    execute_script h (before_narrow cfg corrected) (narrow T) = inr (ReplyRows rows1) ->
    (forall newTodo others,
        matches 10 T rows1 = newTodo :: others ->
        exists result,
          run (createTodo correct h cfg params)
          = (inr result, (before_narrow cfg corrected ++ [EvExecute (narrow T)])%list)
          /\ cr_success result = true
          /\ cr_id result = r_id newTodo)
    /\
    (matches 10 T rows1 = [] ->
     forall rows2,
       execute_script h (before_broad cfg corrected) broad = inr (ReplyRows rows2) ->
       exists result,
         run (createTodo correct h cfg params)
         = (inr result, (before_broad cfg corrected ++ [EvExecute broad])%list)
         /\ cr_success result = true
         /\ cr_id result = match matches 50 T rows2 with
                           | m :: _ => r_id m
                           | [] => "unknown"
                           end).
Proof.
  intros correct h cfg params rows1 report corrected T Hcoop Hrows1.
  pose proof (createTodo_prefix h cfg corrected Hcoop) as Hprefix.
  destruct Hcoop as (Hrun & Htags & Hopen).
  assert (Hnarrow :
    listTodos h {| l_filter := None; l_status := Some open; l_searchText := Some T;
                   l_limit := Some (number_of_nat 10); l_offset := None |}
      (activation cfg corrected ++ [EvSleep (UrlSchemeIO.delay_todoSearch cfg)])%list
    = (inr (firstn 10 rows1),
       (before_narrow cfg corrected ++ [EvExecute (narrow T)])%list)).
  { rewrite (listTodos_ok h _ rows1 9); try reflexivity.
    - unfold before_narrow, narrow. cbn [l_filter l_status l_searchText].
      rewrite <- !app_assoc. reflexivity.
    - apply Hrun.
    - cbn [l_filter l_status l_searchText]. rewrite <- app_assoc. exact Hrows1. }
  assert (Hstart : forall k : list TodosListResult -> M TodosCreateResult,
    (ensureThings3Running h ;;;
     match p_tags corrected with
     | Some (tag :: tags) => ensureTagsExist h (tag :: tags)
     | _ => ret tt
     end ;;;
     UrlSchemeIO.createTodo h cfg (create_params corrected) ;;;
     sleep (UrlSchemeIO.delay_todoSearch cfg) ;;;
     searchResult <- listTodos h
       {| l_filter := None; l_status := Some open; l_searchText := Some T;
          l_limit := Some (number_of_nat 10); l_offset := None |} ;;
     k searchResult)%chan []
    = k (firstn 10 rows1) (before_narrow cfg corrected ++ [EvExecute (narrow T)])%list).
  { intros k. revert Hprefix. unfold bind at 1 2 3 4 5 6 7.
    destruct (ensureThings3Running h []) as [[x|[]] log1]; [discriminate|].
    destruct (match p_tags corrected with
              | Some (tag :: tags) => ensureTagsExist h (tag :: tags)
              | _ => ret tt
              end log1) as [[x|[]] log2]; [discriminate|].
    destruct (UrlSchemeIO.createTodo h cfg (create_params corrected) log2)
      as [[x|[]] log3]; [discriminate|].
    intros Heq. injection Heq as ->.
    unfold sleep, record. rewrite Hnarrow. reflexivity. }
  split.
  - intros newTodo others Hmatch.
    exists (found report (r_id newTodo)). split; [|split; reflexivity].
    unfold run, createTodo, wrap_unknown, try_catch.
    fold report. fold corrected. fold T.
    rewrite Hstart. unfold matches in Hmatch. rewrite Hmatch. reflexivity.
  - intros Hnone rows2 Hrows2.
    assert (Hbroad :
      listTodos h {| l_filter := Some inbox; l_status := Some open; l_searchText := None;
                     l_limit := Some (number_of_nat 50); l_offset := None |}
        (before_narrow cfg corrected ++ [EvExecute (narrow T); EvSleep 1000])%list
      = (inr (firstn 50 rows2), (before_broad cfg corrected ++ [EvExecute broad])%list)).
    { rewrite (listTodos_ok h _ rows2 49); try reflexivity.
      - unfold before_broad, broad. cbn [l_filter l_status l_searchText].
        rewrite <- !app_assoc. reflexivity.
      - apply Hrun.
      - cbn [l_filter l_status l_searchText]. unfold before_broad in Hrows2.
        rewrite <- !app_assoc in *. exact Hrows2. }
    unfold run, createTodo, wrap_unknown, try_catch.
    fold report. fold corrected. fold T.
    rewrite Hstart. unfold matches in Hnone. rewrite Hnone.
    unfold bind at 1. unfold sleep at 1. unfold record.
    rewrite <- app_assoc. cbn [app].
    unfold bind at 1. rewrite Hbroad.
    rewrite find_as_filter. unfold matches.
    destruct (filter (title_is T) (firstn 50 rows2)) as [|m ms]; cbn [hd_error ret].
    + eexists. split; [reflexivity|]. split; reflexivity.
    + eexists. split; [reflexivity|]. split; reflexivity.
Qed.

Lemma createTodo_two_stage_recovery_witness :
  (exists result,
     run (createTodo Examples.no_correction (scripted_host Examples.milk_after_open)
            (Examples.config Examples.env_utc) (Examples.titled "Buy milk"))
     = (inr result,
        [ EvEnsureRunning; EvOpen "things:///add?title=Buy%20milk"; EvSleep 2000;
          EvSleep 500; EvEnsureRunning;
          EvExecute (ListTodosScript None (Some open) (Some "Buy milk")) ])
     /\ cr_success result = true
     /\ cr_id result = "T-1")
  /\ (exists result,
        run (createTodo Examples.no_correction (scripted_host (fun _ => []))
               (Examples.config Examples.env_utc) (Examples.titled "Buy milk"))
        = (inr result,
           [ EvEnsureRunning; EvOpen "things:///add?title=Buy%20milk"; EvSleep 2000;
             EvSleep 500; EvEnsureRunning;
             EvExecute (ListTodosScript None (Some open) (Some "Buy milk"));
             EvSleep 1000; EvEnsureRunning;
             EvExecute (ListTodosScript (Some inbox) (Some open) None) ])
        /\ cr_success result = true
        /\ cr_id result = "unknown").
Proof.
  split.
  - destruct (createTodo_two_stage_recovery Examples.no_correction
                (scripted_host Examples.milk_after_open)
                (Examples.config Examples.env_utc) (Examples.titled "Buy milk")
                [row_of (Examples.todo "T-1" "Buy milk" open [])]) as [Hfound _].
    + repeat split.
    + reflexivity.
    + exact (Hfound (row_of (Examples.todo "T-1" "Buy milk" open [])) [] eq_refl).
  - destruct (createTodo_two_stage_recovery Examples.no_correction
                (scripted_host (fun _ => []))
                (Examples.config Examples.env_utc) (Examples.titled "Buy milk") [])
      as [_ Hbroad].
    + repeat split.
    + reflexivity.
    + exact (Hbroad eq_refl [] eq_refl).
Defined.

End RecoveryFacts.

Section DateFacts.
Import Str Json JsDate UrlScheme.
Local Open Scope Z_scope.

(** The calendar date of a day has a month from 1 to 12, and its day number
    is the day. *)
Lemma civil_from_days_spec (z : Z) :
  let '(y, m, d) := civil_from_days z in
  1 <= m <= 12 /\ days_from_civil y m 1 + d - 1 = z.
Proof.
  unfold civil_from_days, days_from_civil.
  set (z' := z + 719468).
  set (era := z' / 146097).
  set (doe := z' - era * 146097).
  assert (Hdoe : 0 <= doe <= 146096) by (subst doe era; Z.div_mod_to_equations; lia).
  set (yoe := (doe - doe / 1460 + doe / 36524 - doe / 146096) / 365).
  assert (Hyoe : 0 <= yoe <= 399) by (subst yoe; Z.div_mod_to_equations; lia).
  set (doy := doe - (365 * yoe + yoe / 4 - yoe / 100)).
  assert (Hdoy : 0 <= doy <= 365) by (subst doy yoe; Z.div_mod_to_equations; lia).
  set (mp := (5 * doy + 2) / 153).
  assert (Hmp : 0 <= mp <= 11) by (subst mp; Z.div_mod_to_equations; lia).
  set (m := if mp <? 10 then mp + 3 else mp - 9).
  assert (Hm : 1 <= m <= 12 /\ (m + 9) mod 12 = mp).
  { subst m. destruct (mp <? 10) eqn:E.
    - apply Z.ltb_lt in E. split; [lia|Z.div_mod_to_equations; lia].
    - apply Z.ltb_ge in E. split; [lia|Z.div_mod_to_equations; lia]. }
  destruct Hm as [Hm0 Hm1].
  split; [exact Hm0|].
  assert (Hy : (if m <=? 2
                then (if m <=? 2 then yoe + era * 400 + 1 else yoe + era * 400) - 1
                else (if m <=? 2 then yoe + era * 400 + 1 else yoe + era * 400))
               = yoe + era * 400).
  { destruct (m <=? 2); lia. }
  rewrite Hy, Hm1.
  replace ((yoe + era * 400) / 400) with era by (Z.div_mod_to_equations; lia).
  replace (yoe + era * 400 - era * 400) with yoe by lia.
  unfold doy, doe, z'. lia.
Qed.

Lemma civil_from_days_inj (a b : Z) : civil_from_days a = civil_from_days b -> a = b.
Proof.
  intros H.
  pose proof (civil_from_days_spec a) as Ha.
  pose proof (civil_from_days_spec b) as Hb.
  rewrite H in Ha. destruct (civil_from_days b) as [[y m] d]. lia.
Qed.

(** [isSameDay] holds exactly of two instants on one local day. *)
Lemma isSameDay_local_day (c : Clock) (d1 d2 : Z) :
  isSameDay c d1 d2 = true <-> local_day c d1 = local_day c d2.
Proof.
  unfold isSameDay, getFullYear, getMonth, getDate, ymd_local, ymd_utc.
  fold (local_day c d1). fold (local_day c d2).
  split.
  - intros H. apply civil_from_days_inj.
    destruct (civil_from_days (local_day c d1)) as [[y1 m1] e1].
    destruct (civil_from_days (local_day c d2)) as [[y2 m2] e2].
    cbn [fst snd] in H.
    apply andb_true_iff in H as [H H3]. apply andb_true_iff in H as [H1 H2].
    apply Z.eqb_eq in H1, H2, H3. f_equal; [f_equal|]; lia.
  - intros ->. rewrite !Z.eqb_refl. reflexivity.
Qed.

(** [setDate(getDate() + 1)] moves an instant to the next local day, when
    the zone has the local time of that day: when the instant found for it
    reads back as that local time. *)
Lemma local_day_tomorrow (c : Clock) (t : Z) :
  let next := (local_day c t + 1) * msPerDay + TimeWithinDay (LocalTime c t) in
  LocalTime c (UTC c next) = next ->
  local_day c (setDate c t (getDate c t + 1)) = local_day c t + 1.
Proof.
  intros next Hnext.
  assert (Hset : setDate c t (getDate c t + 1) = UTC c next).
  { unfold setDate, getFullYear, getMonth, getDate, ymd_local, ymd_utc, MakeDay.
    fold (local_day c t).
    pose proof (civil_from_days_spec (local_day c t)) as H.
    destruct (civil_from_days (local_day c t)) as [[y m] d].
    destruct H as [Hm Hz]. cbn [fst snd].
    replace ((m - 1) / 12) with 0 by (Z.div_mod_to_equations; lia).
    replace ((m - 1) mod 12 + 1) with m by (Z.div_mod_to_equations; lia).
    rewrite Z.add_0_r. unfold next. f_equal. f_equal. lia. }
  rewrite Hset. unfold local_day at 1. rewrite Hnext.
  unfold next, Day, TimeWithinDay, msPerDay.
  Z.div_mod_to_equations; lia.
Qed.

(** A zone of one offset has every local time. *)
Lemma fixed_zone_reads_back (c : Clock) (offset x : Z) :
  LocalTZA c = Examples.fixed_zone offset -> LocalTime c (UTC c x) = x.
Proof. intros H. unfold LocalTime, UTC. rewrite H. unfold Examples.fixed_zone. lia. Qed.

Lemma zeros_date_chars (n : nat) : forallb_string date_char (zeros n) = true.
Proof. induction n; simpl; auto. Qed.

Lemma digits_date_chars (s : string) :
  forallb_string is_digit s = true -> forallb_string date_char s = true.
Proof.
  induction s as [|c s IH]; simpl; [reflexivity|].
  intros H. apply andb_true_iff in H as [Hc Hs].
  unfold date_char at 1. rewrite Hc, (IH Hs). reflexivity.
Qed.

Lemma pad_date_chars (width : nat) (z : Z) : forallb_string date_char (pad width z) = true.
Proof.
  unfold pad, pad_left. rewrite forallb_string_app, zeros_date_chars.
  apply digits_date_chars, of_nat_digits.
Qed.

Lemma iso_date_chars (ymd : Z * Z * Z) : forallb_string date_char (iso_date ymd) = true.
Proof.
  destruct ymd as [[y m] d]. unfold iso_date, iso_year.
  destruct ((0 <=? y) && (y <=? 9999)); [|destruct (y <? 0)];
    repeat (rewrite ?forallb_string_app, ?pad_date_chars; simpl); reflexivity.
Qed.

(** The text before the [T] of [toISOString] is the date in UTC. *)
Lemma iso_day_part_utc (date : Z) : iso_day_part date = Some (iso_date (ymd_utc date)).
Proof.
  unfold iso_day_part, toISOString.
  change (iso_date (ymd_utc date) ++ "T" ++ ?rest)%string
    with (iso_date (ymd_utc date) ++ String "T" rest)%string.
  rewrite split_first_piece; [reflexivity|].
  apply (has_char_outside date_char); [apply iso_date_chars|reflexivity].
Qed.

(** What [formatDateForUrl] gives for a text that reads as a date. *)
Lemma formatDateForUrl_parsed (e : Env) (text : string) (date : Z) :
  parse (clock e) text = Some date ->
  formatDateForUrl e (Val text)
  = if isSameDay (clock e) date (now (clock e)) then Some "today"%string
    else if isSameDay (clock e) date
              (setDate (clock e) (now (clock e)) (getDate (clock e) (now (clock e)) + 1))
         then Some "tomorrow"%string
         else Some (iso_date (ymd_utc date)).
Proof.
  intros H. unfold formatDateForUrl.
  destruct text as [|ch text]; [discriminate H|].
  cbn [truthy negb]. rewrite H, iso_day_part_utc. reflexivity.
Qed.

(** What the code compares.  A text that does not read as a date gives
    [undefined].  Otherwise the local day the instant read falls on is
    compared with the local day of the system's clock: the same day gives
    [today]; the next day gives [tomorrow], when the zone has tomorrow's
    local time; and any other day gives the date of the instant in UTC. *)
Lemma formatDateForUrl_local_days (e : Env) (text : string) :
  let c := clock e in
  let next := (local_day c (now c) + 1) * msPerDay + TimeWithinDay (LocalTime c (now c)) in
  (parse c text = None -> formatDateForUrl e (Val text) = None)
  /\ (forall date : Z,
        parse c text = Some date ->
        LocalTime c (UTC c next) = next ->
        (local_day c date = local_day c (now c) ->
         formatDateForUrl e (Val text) = Some "today"%string)
        /\ (local_day c date = local_day c (now c) + 1 ->
            formatDateForUrl e (Val text) = Some "tomorrow"%string)
        /\ (local_day c date <> local_day c (now c) ->
            local_day c date <> local_day c (now c) + 1 ->
            formatDateForUrl e (Val text) = Some (iso_date (ymd_utc date)))).
Proof.
  intros c next. split.
  - intros Hparse. unfold formatDateForUrl. fold c. rewrite Hparse.
    destruct (negb (truthy text)); reflexivity.
  - intros date Hparse Hnext.
    pose proof (local_day_tomorrow c (now c) Hnext) as Htomorrow.
    rewrite (formatDateForUrl_parsed e text date Hparse). fold c.
    destruct (isSameDay c date (now c)) eqn:Htoday.
    + apply isSameDay_local_day in Htoday.
      split; [reflexivity|]. split; [lia|]. intros Hne. contradiction.
    + assert (Hne : local_day c date <> local_day c (now c)).
      { intros Heq. apply isSameDay_local_day in Heq. congruence. }
      split; [intros Heq; contradiction|].
      destruct (isSameDay c date (setDate c (now c) (getDate c (now c) + 1))) eqn:Htom.
      * apply isSameDay_local_day in Htom. rewrite Htomorrow in Htom.
        split; [reflexivity|]. intros _ Hne2. contradiction.
      * assert (Hne2 : local_day c date <> local_day c (now c) + 1).
        { intros Heq. rewrite <- Htomorrow in Heq.
          apply isSameDay_local_day in Heq. congruence. }
        split; [intros Heq; contradiction|].
        intros _ _. reflexivity.
Qed.

(** On a system in the UTC zone whose date is 2025-06-10, the four examples
    of the specification hold. *)
Lemma formatDateForUrl_examples_in_utc :
  ymd_local (clock Examples.env_utc) (now (clock Examples.env_utc)) = (2025, 6, 10)
  /\ formatDateForUrl Examples.env_utc (Val "2025-06-10T09:00:00Z"%string)
     = Some "today"%string
  /\ formatDateForUrl Examples.env_utc (Val "2025-06-11T00:00:00Z"%string)
     = Some "tomorrow"%string
  /\ formatDateForUrl Examples.env_utc (Val "2025-12-25"%string)
     = Some "2025-12-25"%string
  /\ formatDateForUrl Examples.env_utc (Val "next week"%string) = None.
Proof. repeat split. Qed.

(** C2.  The calendar date of the input is not what the code compares with
    the system's date: it compares the local day of the instant the input
    is read as, and a date without a time is read as midnight UTC.  On a
    system five hours west of UTC whose local date is 2025-06-10, the input
    [2025-06-11], whose calendar date is the day after the system's, gives
    [today]; [2025-06-12] gives [tomorrow]; and the specification's example
    [2025-06-11T00:00:00Z] gives [today]. *)
Theorem formatDateForUrl_date_without_time_west_of_utc :
  let c := clock Examples.env_west in
  ymd_local c (now c) = (2025, 6, 10)
  /\ option_map ymd_utc (parse c "2025-06-11") = Some (2025, 6, 11)
  /\ option_map (ymd_local c) (parse c "2025-06-11") = Some (2025, 6, 10)
  /\ formatDateForUrl Examples.env_west (Val "2025-06-11"%string) = Some "today"%string
  /\ formatDateForUrl Examples.env_west (Val "2025-06-12"%string) = Some "tomorrow"%string
  /\ formatDateForUrl Examples.env_west (Val "2025-06-11T00:00:00Z"%string)
     = Some "today"%string.
Proof. cbv zeta. repeat split. Qed.

(** Nine hours east of UTC, a date and time given in local time for the
    13th is neither today nor tomorrow, and the date returned is the 12th,
    the date of the instant in UTC. *)
Lemma formatDateForUrl_utc_date_east_of_utc :
  ymd_local (clock Examples.env_east) (now (clock Examples.env_east)) = (2025, 6, 10)
  /\ option_map (ymd_local (clock Examples.env_east))
       (parse (clock Examples.env_east) "2025-06-13T00:00:00") = Some (2025, 6, 13)
  /\ formatDateForUrl Examples.env_east (Val "2025-06-13T00:00:00"%string)
     = Some "2025-06-12"%string.
Proof. repeat split. Qed.

(** In New York, at 23:30 of 2025-03-08, the night the clocks are put
    forward: today is the 8th, tomorrow the 9th, and noon UTC of the 10th
    is neither. *)
Lemma formatDateForUrl_daylight_saving :
  ymd_local (clock Examples.env_new_york) (now (clock Examples.env_new_york)) = (2025, 3, 8)
  /\ formatDateForUrl Examples.env_new_york (Val "2025-03-09T04:59:00Z"%string)
     = Some "today"%string
  /\ formatDateForUrl Examples.env_new_york (Val "2025-03-09T12:00:00Z"%string)
     = Some "tomorrow"%string
  /\ formatDateForUrl Examples.env_new_york (Val "2025-03-10T12:00:00Z"%string)
     = Some "2025-03-10"%string.
Proof. repeat split. Qed.

End DateFacts.

Section ObjectFacts.
Import Str Json UrlScheme.

Lemma filter_absent_key (q : string * JSValue -> bool) (k : string) (o : Obj) :
  ~ In k (map fst o) ->
  filter (fun kv => negb (String.eqb k (fst kv) && q kv)) o = o.
Proof.
  induction o as [|[k' v] o IH]; simpl; intros Hk; [reflexivity|].
  destruct (String.eqb k k') eqn:E.
  - apply String.eqb_eq in E. subst k'. exfalso. apply Hk. now left.
  - simpl. f_equal. apply IH. intros Hin. apply Hk. now right.
Qed.

Lemma delete_absent_key (k : string) (o : Obj) : ~ In k (map fst o) -> delete k o = o.
Proof.
  intros Hk. unfold delete.
  rewrite <- (filter_absent_key (fun _ => true) k o Hk) at 2.
  apply filter_ext. intros kv. rewrite andb_true_r. reflexivity.
Qed.

Lemma keys_of_filter (p : string * JSValue -> bool) (k : string) (o : Obj) :
  In k (map fst (filter p o)) -> In k (map fst o).
Proof.
  rewrite !in_map_iff. intros (kv & Hk & Hin).
  apply filter_In in Hin as [Hin _]. exists kv. split; assumption.
Qed.

Lemma NoDup_keys_filter (p : string * JSValue -> bool) (o : Obj) :
  NoDup (map fst o) -> NoDup (map fst (filter p o)).
Proof.
  induction o as [|[k v] o IH]; simpl; intros H; [constructor|].
  inversion H as [|? ? Hk Ho]; subst.
  destruct (p (k, v)); simpl; [|apply IH, Ho].
  constructor; [|apply IH, Ho].
  intros Hin. apply Hk. eapply keys_of_filter, Hin.
Qed.

(** One turn of the loop of [remove_undefined], as a filter. *)
Lemma remove_undefined_step (k : string) (o : Obj) :
  NoDup (map fst o) ->
  match get k o with
  | Some JUndefined => delete k o
  | _ => o
  end
  = filter (fun kv => negb (String.eqb k (fst kv) && is_undefined (snd kv))) o.
Proof.
  induction o as [|[k' v] o IH]; intros Hnd; [reflexivity|].
  inversion Hnd as [|? ? Hk Ho]; subst.
  cbn [get filter fst snd].
  destruct (String.eqb k k') eqn:E.
  - apply String.eqb_eq in E. subst k'.
    rewrite (filter_absent_key _ k o Hk).
    destruct v; cbn [is_undefined andb negb]; try reflexivity.
    unfold delete. cbn [filter fst]. rewrite String.eqb_refl. cbn [negb].
    apply (delete_absent_key k o Hk).
  - cbn [andb negb]. rewrite <- (IH Ho).
    destruct (get k o) as [[]|]; try reflexivity.
    unfold delete. cbn [filter fst]. rewrite E. reflexivity.
Qed.

Lemma remove_undefined_loop (keys : list string) (o : Obj) :
  NoDup (map fst o) ->
  fold_left
    (fun (acc : Obj) (key : string) =>
       match get key acc with
       | Some JUndefined => delete key acc
       | _ => acc
       end) keys o
  = filter (fun kv => negb (existsb (String.eqb (fst kv)) keys && is_undefined (snd kv))) o.
Proof.
  revert o. induction keys as [|k keys IH]; intros o Hnd; cbn [fold_left].
  - symmetry. rewrite <- (filter_ext (fun _ => true)); [|reflexivity].
    induction o as [|kv o IHo]; simpl; [reflexivity|]. f_equal.
    apply IHo. inversion Hnd; assumption.
  - rewrite (remove_undefined_step k o Hnd).
    rewrite IH by (apply NoDup_keys_filter, Hnd).
    clear IH Hnd. induction o as [|[k' v] o IHo]; [reflexivity|].
    cbn [filter fst snd existsb].
    rewrite (String.eqb_sym k' k).
    destruct (String.eqb k k'); cbn [andb negb orb];
      destruct (is_undefined v) eqn:Hv; cbn [andb negb filter fst snd];
      rewrite ?Hv, ?andb_true_r, ?andb_false_r; cbn [negb];
      try (destruct (existsb (String.eqb k') keys); cbn [negb]);
      rewrite ?IHo; reflexivity.
Qed.

(** [remove_undefined] keeps exactly the properties whose value is not
    [undefined], in their order. *)
Lemma remove_undefined_filter (o : Obj) :
  NoDup (map fst o) ->
  remove_undefined o = filter (fun kv => negb (is_undefined (snd kv))) o.
Proof.
  intros Hnd. unfold remove_undefined.
  rewrite (remove_undefined_loop _ o Hnd).
  apply filter_ext_in. intros [k v] Hin.
  replace (existsb (String.eqb (fst (k, v))) (map fst o)) with true; [reflexivity|].
  symmetry. apply existsb_exists. exists k. split.
  - apply in_map_iff. exists (k, v). split; [reflexivity|assumption].
  - apply String.eqb_refl.
Qed.

Lemma has_key_filter (p : string * JSValue -> bool) (k : string) (o : Obj) :
  has_key k (filter p o) = existsb (fun kv => String.eqb k (fst kv) && p kv) o.
Proof.
  unfold has_key. induction o as [|kv o IH]; simpl; [reflexivity|].
  destruct (p kv) eqn:E; simpl; rewrite IH, ?andb_true_r, ?andb_false_r; reflexivity.
Qed.

Lemma get_absent_key (k : string) (o : Obj) : ~ In k (map fst o) -> get k o = None.
Proof.
  induction o as [|[k' v] o IH]; simpl; intros Hk; [reflexivity|].
  destruct (String.eqb k k') eqn:E.
  - apply String.eqb_eq in E. subst. exfalso. apply Hk. now left.
  - apply IH. intros Hin. apply Hk. now right.
Qed.

Lemma get_filter (p : string * JSValue -> bool) (k : string) (o : Obj) :
  NoDup (map fst o) ->
  get k (filter p o)
  = match get k o with
    | Some v => if p (k, v) then Some v else None
    | None => None
    end.
Proof.
  induction o as [|[k' v] o IH]; intros Hnd; [reflexivity|].
  inversion Hnd as [|? ? Hk Ho]; subst.
  cbn [get filter].
  destruct (String.eqb k k') eqn:E.
  - apply String.eqb_eq in E. subst k'.
    destruct (p (k, v)); cbn [get]; rewrite ?String.eqb_refl; [reflexivity|].
    apply get_absent_key. intros Hin. apply Hk. eapply keys_of_filter, Hin.
  - destruct (p (k', v)); cbn [get]; rewrite ?E; apply IH, Ho.
Qed.

Lemma updateTodo_keys_distinct (e : Env) (attributes : Obj) :
  map fst attributes
  = ["title"; "notes"; "when"; "deadline"; "tags"; "completed"; "canceled"; "list-id"] ->
  NoDup (map fst (with_auth e attributes)).
Proof.
  intros Hkeys. unfold with_auth.
  destruct attributes as [|[k1 v1] [|[k2 v2] [|[k3 v3] [|[k4 v4] [|[k5 v5] [|[k6 v6]
    [|[k7 v7] [|[k8 v8] [|]]]]]]]]]; try discriminate Hkeys.
  cbn [map fst] in Hkeys. injection Hkeys as -> -> -> -> -> -> -> ->.
  destruct (token_given e); cbn [set String.eqb Ascii.eqb Bool.eqb]; distinct_keys.
Qed.

(** C3.  The document [updateTodo] emits, attribute by attribute and state
    by state.  An attribute absent from the update does not appear.  A
    title, notes, tags, a flag or a list id that is set appears with its
    value; a when-date or deadline that is set appears with what
    [formatDateForUrl] makes of it, and does not appear when that is
    nothing.  A when-date, deadline or list id that is [null] appears with
    the empty string, the value that clears it; but notes that are [null]
    appear as [null], not as the empty string: the document of the update
    [{notes: null}] is [{"notes":null}]. *)
Theorem updateTodo_attribute_by_state :
  forall (e : Env) (id : string) (params : UpdateTodoParams),
    let attributes := updateTodo_attributes e params in
    updateTodo_url e id params = buildJsonUrl e [update_item TODO id attributes]
    /\ get "title" attributes = option_map JString (ut_title params)
    /\ get "notes" attributes
       = match ut_notes params with
         | Undefined => None
         | Null => Some JNull
         | Val text => Some (JString text)
         end
    /\ get "when" attributes
       = match ut_whenDate params with
         | Undefined => None
         | Null => Some (JString EmptyString)
         | Val text => option_map JString (formatDateForUrl e (Val text))
         end
    /\ get "deadline" attributes
       = match ut_deadline params with
         | Undefined => None
         | Null => Some (JString EmptyString)
         | Val text => option_map JString (formatDateForUrl e (Val text))
         end
    /\ get "tags" attributes
       = option_map (fun tags => JArray (map JString tags)) (ut_tags params)
    /\ get "completed" attributes = option_map JBool (ut_completed params)
    /\ get "canceled" attributes = option_map JBool (ut_canceled params)
    /\ get "list-id" attributes
       = match ut_listId params with
         | Undefined => None
         | Null => Some (JString EmptyString)
         | Val listId => Some (JString listId)
         end
    /\ stringify (JObject (updateTodo_attributes Examples.env_utc Examples.notes_cleared))
       = Some ("{" ++ quote "notes" ++ ":null}").
Proof.
  intros e id params attributes.
  split; [reflexivity|].
  subst attributes. unfold updateTodo_attributes.
  rewrite remove_undefined_filter by (apply updateTodo_keys_distinct; reflexivity).
  repeat rewrite get_filter by (apply updateTodo_keys_distinct; reflexivity).
  destruct params as [title notes whenDate deadline tags completed canceled listId].
  cbn [ut_title ut_notes ut_whenDate ut_deadline ut_tags ut_completed ut_canceled ut_listId].
  split; [|split; [|split; [|split; [|split; [|split; [|split; [|split]]]]]]].
  - unfold with_auth. destruct (token_given e), title; reflexivity.
  - unfold with_auth. destruct (token_given e), notes; reflexivity.
  - unfold with_auth.
    destruct (token_given e), whenDate as [| |text]; try reflexivity;
      cbn [set get String.eqb Ascii.eqb Bool.eqb date_attribute];
      destruct (formatDateForUrl e (Val text)); reflexivity.
  - unfold with_auth.
    destruct (token_given e), deadline as [| |text]; try reflexivity;
      cbn [set get String.eqb Ascii.eqb Bool.eqb date_attribute];
      destruct (formatDateForUrl e (Val text)); reflexivity.
  - unfold with_auth. destruct (token_given e), tags; reflexivity.
  - unfold with_auth. destruct (token_given e), completed; reflexivity.
  - unfold with_auth. destruct (token_given e), canceled; reflexivity.
  - unfold with_auth. destruct (token_given e), listId; reflexivity.
  - reflexivity.
Qed.

(** A date that is set in words the engine does not read leaves the same
    document as an update that sets nothing. *)
Lemma updateTodo_unread_date_as_absent :
  formatDateForUrl Examples.env_utc (Val "next week") = None
  /\ updateTodo_attributes Examples.env_utc Examples.when_next_week
     = updateTodo_attributes Examples.env_utc Examples.nothing_to_update.
Proof. split; reflexivity. Qed.

End ObjectFacts.

Section UrlFacts.
Import Str Json Url UrlScheme.

Lemma replace_plus_app (a b : string) :
  replace_plus (a ++ b) = replace_plus a ++ replace_plus b.
Proof.
  induction a as [|c a IH]; simpl; [reflexivity|].
  destruct (Ascii.eqb c "+"); simpl; rewrite IH; reflexivity.
Qed.

Lemma replace_plus_join (l : list string) :
  replace_plus (join "&" l) = join "&" (map replace_plus l).
Proof.
  unfold join. induction l as [|a [|b l] IH]; [reflexivity|reflexivity|].
  cbn [String.concat map] in *. rewrite !replace_plus_app, IH. reflexivity.
Qed.

(** No [+] is left by the replacement. *)
Lemma replace_plus_no_plus (s : string) : has_char "+" (replace_plus s) = false.
Proof.
  induction s as [|c s IH]; [reflexivity|].
  cbn [replace_plus]. destruct (Ascii.eqb c "+") eqn:E.
  - rewrite has_char_app, IH. reflexivity.
  - unfold has_char in *. cbn [existsb_string]. rewrite Ascii.eqb_sym, E. exact IH.
Qed.

Lemma encode_component_app (a b : string) :
  encode_component (a ++ b) = encode_component a ++ encode_component b.
Proof.
  unfold encode_component. rewrite <- replace_plus_app. f_equal.
  induction a as [|c a IH]; simpl; [reflexivity|].
  rewrite IH, append_assoc. reflexivity.
Qed.

Lemma encode_component_chars (s : string) :
  forallb_string query_char (encode_component s) = true.
Proof.
  induction s as [|c s IH]; [reflexivity|].
  change (String c s) with (chr c ++ s). rewrite encode_component_app.
  rewrite forallb_string_app, IH, andb_true_r.
  destruct c as [[] [] [] [] [] [] [] []]; reflexivity.
Qed.

Lemma query_string_pairs (e : Env) (params : list (string * ParamValue)) :
  query_string e params = join "&" (map encode_pair (url_params e params)).
Proof.
  unfold query_string, toString. rewrite replace_plus_join, map_map.
  f_equal. apply map_ext. intros [k v]. unfold encode_pair, encode_component.
  cbn [fst snd]. rewrite !replace_plus_app. reflexivity.
Qed.

Lemma join_chars (p : ascii -> bool) (sep : string) (l : list string) :
  forallb_string p sep = true ->
  (forall x, In x l -> forallb_string p x = true) ->
  forallb_string p (join sep l) = true.
Proof.
  intros Hsep. unfold join.
  induction l as [|a [|b l] IH]; intros Hl; [reflexivity|apply Hl; now left|].
  cbn [String.concat]. rewrite !forallb_string_app, Hsep.
  rewrite (Hl a) by now left. apply IH. intros x Hx. apply Hl. now right.
Qed.

Lemma query_string_chars (e : Env) (params : list (string * ParamValue)) :
  forallb_string query_char (query_string e params) = true.
Proof.
  rewrite query_string_pairs. apply join_chars; [reflexivity|].
  intros x Hx. apply in_map_iff in Hx as ([k v] & <- & _).
  unfold encode_pair. rewrite !forallb_string_app, !encode_component_chars. reflexivity.
Qed.

(** The pairs a parameter record adds to the [URLSearchParams] object. *)
Lemma append_params (params : list (string * ParamValue)) (ps : URLSearchParams) :
  fold_left append_param params ps = (ps ++ flat_map (append_param []) params)%list.
Proof.
  revert ps. induction params as [|[k v] params IH]; intros ps; cbn [fold_left flat_map].
  - rewrite app_nil_r. reflexivity.
  - rewrite IH. destruct v; cbn [append_param]; unfold Url.append; cbn [app];
      rewrite <- ?app_assoc; reflexivity.
Qed.

Lemma url_params_split (e : Env) (params : list (string * ParamValue)) :
  url_params e params
  = (match token_given e with
     | Some authToken => [("auth-token", authToken)]
     | None => []
     end ++ flat_map (append_param []) params)%list.
Proof.
  unfold url_params. rewrite append_params. destruct (token_given e); reflexivity.
Qed.

(** A pair added for a parameter comes from a value that is neither [null]
    nor [undefined]. *)
Lemma param_pair_origin (params : list (string * ParamValue)) (k : string) :
  In k (map fst (flat_map (append_param []) params)) ->
  exists v, In (k, v) params /\ v <> PNull /\ v <> PUndefined.
Proof.
  induction params as [|[k' v'] params IH]; cbn [flat_map map]; [intros []|].
  rewrite map_app, in_app_iff. intros [H|H].
  - exists v'. destruct v'; cbn in H; try contradiction;
      destruct H as [<-|[]]; (split; [now left|split; discriminate]).
  - destruct (IH H) as (v & Hin & Hv). exists v. split; [now right|exact Hv].
Qed.

Lemma param_pair_added (params : list (string * ParamValue)) (k text : string)
  (v : ParamValue) :
  In (k, v) params -> append_param [] (k, v) = [(k, text)] ->
  In (k, text) (flat_map (append_param []) params).
Proof.
  intros Hin Hv. apply in_flat_map. exists (k, v). split; [exact Hin|].
  rewrite Hv. now left.
Qed.

Lemma unique_value (params : list (string * ParamValue)) (k : string) (v w : ParamValue) :
  NoDup (map fst params) -> In (k, v) params -> In (k, w) params -> v = w.
Proof.
  induction params as [|[k' v'] params IH]; [intros _ []|].
  cbn [map fst]. intros Hnd Hv Hw. inversion Hnd as [|? ? Hk Hrest]; subst.
  destruct Hv as [Hv|Hv], Hw as [Hw|Hw].
  - congruence.
  - injection Hv as -> ->. exfalso. apply Hk. apply in_map_iff. exists (k, w). now split.
  - injection Hw as -> ->. exfalso. apply Hk. apply in_map_iff. exists (k, v). now split.
  - apply IH; assumption.
Qed.

Lemma encode_component_space (a b : string) :
  encode_component (a ++ " " ++ b) = encode_component a ++ "%20" ++ encode_component b.
Proof. rewrite !encode_component_app. reflexivity. Qed.

(** The pairs a parameter record adds, one by one. *)
Lemma param_pair_in (params : list (string * ParamValue)) (k text : string) :
  In (k, text) (flat_map (append_param []) params)
  <-> (exists items, In (k, PArray items) params /\ text = join "," items)
      \/ (exists b : bool, In (k, PBool b) params /\ text = if b then "true" else "false")
      \/ In (k, PScalar text) params.
Proof.
  rewrite in_flat_map. split.
  - intros ([k' v] & Hin & Hpair).
    destruct v as [| |items|b|scalar]; cbn in Hpair; try contradiction;
      destruct Hpair as [Hpair|[]]; injection Hpair as -> <-.
    + left. exists items. split; [exact Hin|reflexivity].
    + right. left. exists b. split; [exact Hin|reflexivity].
    + right. right. exact Hin.
  - intros [(items & Hin & ->)|[(b & Hin & ->)|Hin]].
    + exists (k, PArray items). split; [exact Hin|now left].
    + exists (k, PBool b). split; [exact Hin|now left].
    + exists (k, PScalar text). split; [exact Hin|now left].
Qed.

(** The keys a parameter record adds: those of a value that is neither
    [null] nor [undefined], in the order of the record. *)
Lemma param_pair_keys (params : list (string * ParamValue)) :
  map fst (flat_map (append_param []) params)
  = map fst (filter (fun kv => match snd kv with
                               | PNull | PUndefined => false
                               | _ => true
                               end) params).
Proof.
  induction params as [|[k v] params IH]; [reflexivity|].
  cbn [flat_map filter snd]. rewrite map_app, IH.
  destruct v; reflexivity.
Qed.

Lemma createTodo_params_keys (e : Env) (p : CreateTodoParams) :
  NoDup (map fst (createTodo_params e p))
  /\ ~ In "auth-token" (map fst (createTodo_params e p)).
Proof.
  unfold createTodo_params.
  destruct (ct_checklistItems p) as [[|item items]|]; cbn [map fst app];
    (split; [repeat constructor; cbn [In]; intuition discriminate
            |cbn [In]; intuition discriminate]).
Qed.

(** C10.  For a parameter record that has each key once and not the key
    [auth-token], as every record [createTodo], the one caller, passes:
    the pairs of the query string are the pair of the authorization token,
    when the environment gives one, and then one pair for each key whose
    value is neither [null] nor [undefined], in the order of the record; a
    key whose value is [null] or [undefined] does not appear; an array is
    one pair whose value is its elements joined with commas, a boolean is
    [true] or [false], any other value is its text; the query string is
    the pairs encoded and joined, a space is encoded as [%20], and no [+]
    is left in the query string. *)
Theorem buildUrl_query_invariant :
  forall (e : Env) (operation : Things3Operation) (params : list (string * ParamValue)),
    NoDup (map fst params) ->
    ~ In "auth-token" (map fst params) ->
    let pairs := url_params e params in
    let queryString := query_string e params in
    (forall k, In (k, PNull) params \/ In (k, PUndefined) params ->
               ~ In k (map fst pairs))
    /\ map fst pairs
       = ((match token_given e with Some _ => ["auth-token"] | None => [] end)
          ++ map fst (filter (fun kv => match snd kv with
                                        | PNull | PUndefined => false
                                        | _ => true
                                        end) params))%list
    /\ (forall k text,
          In (k, text) pairs
          <-> (k = "auth-token" /\ token_given e = Some text)
              \/ (exists items, In (k, PArray items) params /\ text = join "," items)
              \/ (exists b : bool,
                    In (k, PBool b) params /\ text = if b then "true" else "false")
              \/ In (k, PScalar text) params)
    /\ queryString = join "&" (map encode_pair pairs)
    /\ (forall a b,
          encode_component (a ++ " " ++ b)
          = encode_component a ++ "%20" ++ encode_component b)
    /\ has_char "+" queryString = false
    /\ buildUrl e operation params
       = "things:///" ++ operation_name operation
         ++ (if truthy queryString then "?" ++ queryString else EmptyString)
    /\ (forall p : CreateTodoParams,
          NoDup (map fst (createTodo_params e p))
          /\ ~ In "auth-token" (map fst (createTodo_params e p))).
Proof.
  intros e operation params Hnd Hauth pairs queryString.
  subst pairs queryString.
  split; [|split; [|split; [|split; [|split; [|split; [|split]]]]]].
  - intros k Hnull Hin. rewrite url_params_split, map_app, in_app_iff in Hin.
    destruct Hin as [Hin|Hin].
    + destruct (token_given e); cbn in Hin; [|contradiction].
      destruct Hin as [<-|[]]. apply Hauth.
      destruct Hnull as [Hk|Hk]; apply in_map_iff;
        eexists; (split; [|exact Hk]); reflexivity.
    + apply param_pair_origin in Hin as (v & Hv & Hn & Hu).
      destruct Hnull as [Hk|Hk];
        pose proof (unique_value params k v _ Hnd Hv Hk); contradiction.
  - rewrite url_params_split, map_app, param_pair_keys.
    destruct (token_given e); reflexivity.
  - intros k text. rewrite url_params_split, in_app_iff, param_pair_in.
    split.
    + intros [Hin|Hin]; [|right; exact Hin].
      destruct (token_given e); cbn in Hin; [|contradiction].
      destruct Hin as [Hin|[]]. injection Hin as <- <-. left. split; reflexivity.
    + intros [[-> Htoken]|Hin]; [|right; exact Hin].
      left. rewrite Htoken. now left.
  - apply query_string_pairs.
  - apply encode_component_space.
  - apply replace_plus_no_plus.
  - unfold buildUrl. destruct (truthy (query_string e params)).
    + apply append_assoc.
    + rewrite append_empty_r. reflexivity.
  - intros p. apply createTodo_params_keys.
Qed.

Lemma buildUrl_query_invariant_witness :
  let params :=
    [ ("title", PScalar "Buy milk"); ("notes", PNull); ("when", PUndefined);
      ("tags", PArray ["home"; "errand"]); ("reveal", PBool true) ] in
  ~ In "notes" (map fst (url_params Examples.env_token params))
  /\ map fst (url_params Examples.env_token params)
     = ["auth-token"; "title"; "tags"; "reveal"]
  /\ In ("tags", "home,errand") (url_params Examples.env_token params)
  /\ In ("reveal", "true") (url_params Examples.env_token params)
  /\ has_char "+" (query_string Examples.env_token params) = false.
Proof.
  intros params.
  destruct (buildUrl_query_invariant Examples.env_token ADD params)
    as (Hnull & Hkeys & Hpairs & _ & _ & Hplus & _).
  - subst params. distinct_keys.
  - subst params. cbn [map fst In]. intuition discriminate.
  - split; [|split; [|split; [|split]]].
    + apply (Hnull "notes"). left. subst params. cbn [In]. intuition.
    + exact Hkeys.
    + apply Hpairs. right. left. exists ["home"; "errand"].
      split; [subst params; cbn [In]; intuition|reflexivity].
    + apply Hpairs. right. right. left. exists true.
      split; [subst params; cbn [In]; intuition|reflexivity].
    + exact Hplus.
Defined.

(** The condition on the key [auth-token] is needed: [buildUrl] appends the
    token of the environment before it looks at the record. *)
Lemma buildUrl_auth_token_first :
  let params := [("auth-token", PNull)] in
  In "auth-token" (map fst (url_params Examples.env_token params))
  /\ buildUrl Examples.env_token ADD params = "things:///add?auth-token=s3cret".
Proof. intros params. subst params. split; [now left|reflexivity]. Qed.

Lemma join_cons (sep x : string) (l : list string) :
  join sep (x :: l)
  = x ++ match l with [] => EmptyString | _ => sep ++ join sep l end.
Proof.
  unfold join. destruct l; cbn [String.concat]; [|reflexivity].
  symmetry. apply append_empty_r.
Qed.

Lemma token_given_some (e : Env) (token : string) :
  getAuthToken e = Some token -> token <> EmptyString -> token_given e = Some token.
Proof.
  intros H Hne. unfold token_given. rewrite H.
  destruct token; [contradiction|reflexivity].
Qed.

Lemma token_given_none (e : Env) : getAuthToken e = None -> token_given e = None.
Proof. intros H. unfold token_given. rewrite H. reflexivity. Qed.

Lemma set_new_key (k : string) (v : JSValue) (o : Obj) :
  ~ In k (map fst o) -> set k v o = (o ++ [(k, v)])%list.
Proof.
  induction o as [|[k' v'] o IH]; cbn [map fst set app]; intros Hk; [reflexivity|].
  destruct (String.eqb k k') eqn:E.
  - apply String.eqb_eq in E. subst. exfalso. apply Hk. now left.
  - f_equal. apply IH. intros Hin. apply Hk. now right.
Qed.

Lemma get_new_key (k : string) (v : JSValue) (o : Obj) :
  ~ In k (map fst o) -> get k (o ++ [(k, v)])%list = Some v.
Proof.
  induction o as [|[k' v'] o IH]; cbn [map fst get app]; intros Hk.
  - rewrite String.eqb_refl. reflexivity.
  - destruct (String.eqb k k') eqn:E.
    + apply String.eqb_eq in E. subst. exfalso. apply Hk. now left.
    + apply IH. intros Hin. apply Hk. now right.
Qed.

(** A document built with [with_auth] carries the token that is given. *)
Lemma auth_token_in_document (e : Env) (token : string) (attributes : Obj) :
  token_given e = Some token ->
  NoDup (map fst attributes) ->
  ~ In "auth-token" (map fst attributes) ->
  get "auth-token" (remove_undefined (with_auth e attributes)) = Some (JString token).
Proof.
  intros Htoken Hnd Hnew. unfold with_auth. rewrite Htoken.
  rewrite (set_new_key _ _ _ Hnew).
  assert (Hnd' : NoDup (map fst (attributes ++ [("auth-token", JString token)])%list)).
  { rewrite map_app. cbn [map fst]. apply NoDup_app; [exact Hnd| |].
    - repeat constructor. intros [].
    - intros k Hk [<-|[]]. contradiction. }
  rewrite (remove_undefined_filter _ Hnd'), (get_filter _ _ _ Hnd').
  rewrite (get_new_key _ _ _ Hnew). reflexivity.
Qed.

Ltac fresh_key := cbn [map fst In]; intuition discriminate.

(** C9.  When the environment gives an authorization token (a non-empty
    string), every URL of [buildUrl] has the token as its first parameter,
    every URL of [buildJsonUrl] ends with it, and the documents of the
    updates and of the project create carry it as the attribute
    [auth-token].  When the environment gives none, a create of a to-do on
    a host that accepts the URL returns without an error, and its URL is
    [things:///add?title=...], made of the characters of a query string
    only. *)
Theorem auth_token_attached :
  forall e : Env,
    (forall token : string,
        getAuthToken e = Some token -> token <> EmptyString ->
        (forall operation params,
            exists rest suffix,
              url_params e params = ("auth-token", token) :: rest
              /\ buildUrl e operation params
                 = "things:///" ++ operation_name operation ++ "?auth-token="
                   ++ encode_component token ++ suffix)
        /\ (forall items,
              buildJsonUrl e items
              = "things:///json?data=" ++ encodeURIComponent (stringify_items items)
                ++ "&auth-token=" ++ token)
        /\ (forall params,
              get "auth-token" (updateTodo_attributes e params) = Some (JString token))
        /\ (forall params,
              get "auth-token" (createProject_attributes e params) = Some (JString token))
        /\ (forall params,
              get "auth-token" (updateProject_attributes e params) = Some (JString token))
        /\ (forall ids,
              completeTodos_items e ids
              = map (fun id => update_item TODO id
                                 [("completed", JBool true); ("auth-token", JString token)])
                  ids))
    /\ (getAuthToken e = None ->
        forall (h : Channel.Host) (cfg : UrlSchemeIO.Config) (params : CreateTodoParams),
          UrlSchemeIO.env cfg = e ->
          Channel.open_url h [] (createTodo_url e params) = None ->
          Channel.run (UrlSchemeIO.createTodo h cfg params)
          = (inr tt, [ Channel.EvOpen (createTodo_url e params);
                       Channel.EvSleep (UrlSchemeIO.delay_urlScheme cfg) ])
          /\ exists suffix,
               createTodo_url e params
               = "things:///add?" ++ query_string e (createTodo_params e params)
               /\ query_string e (createTodo_params e params)
                  = "title=" ++ encode_component (ct_title params) ++ suffix
               /\ forallb_string query_char (query_string e (createTodo_params e params))
                  = true).
Proof.
  intros e. split.
  - intros token Hget Hne.
    pose proof (token_given_some e token Hget Hne) as Htoken.
    split; [|split; [|split; [|split; [|split]]]].
    + intros operation params.
      exists (flat_map (append_param []) params).
      exists (match map encode_pair (flat_map (append_param []) params) with
              | [] => EmptyString
              | _ => "&" ++ join "&" (map encode_pair (flat_map (append_param []) params))
              end).
      split; [rewrite url_params_split, Htoken; reflexivity|].
      unfold buildUrl. rewrite query_string_pairs, url_params_split, Htoken.
      cbn [app map]. rewrite join_cons.
      change (encode_pair ("auth-token", token))
        with ("auth-token=" ++ encode_component token).
      cbn [append truthy]. rewrite !append_assoc. reflexivity.
    + intros items. unfold buildJsonUrl. rewrite Htoken. reflexivity.
    + intros params. apply auth_token_in_document;
        [exact Htoken|distinct_keys|fresh_key].
    + intros params. apply auth_token_in_document;
        [exact Htoken|distinct_keys|fresh_key].
    + intros params. apply auth_token_in_document;
        [exact Htoken|distinct_keys|fresh_key].
    + intros ids. unfold completeTodos_items, batch_items, with_auth.
      rewrite Htoken. reflexivity.
  - intros Hget h cfg params Hcfg Hopen.
    pose proof (token_given_none e Hget) as Htoken.
    split.
    + unfold Channel.run, UrlSchemeIO.createTodo. rewrite Hcfg.
      apply (url_execute_ok h cfg _ [] Hopen).
    + assert (Hquery : exists suffix,
                query_string e (createTodo_params e params)
                = "title=" ++ encode_component (ct_title params) ++ suffix).
      { rewrite query_string_pairs, url_params_split, Htoken. cbn [app].
        assert (Hfirst : exists rest,
                  createTodo_params e params = ("title", PScalar (ct_title params)) :: rest).
        { unfold createTodo_params.
          destruct (ct_checklistItems params) as [[|item items]|]; eexists; reflexivity. }
        destruct Hfirst as [rest ->]. cbn [flat_map append_param].
        unfold Url.append. cbn [app map]. rewrite join_cons.
        eexists. change (encode_pair ("title", ct_title params))
          with ("title=" ++ encode_component (ct_title params)).
        rewrite append_assoc. reflexivity. }
      destruct Hquery as [suffix Hquery]. exists suffix.
      split; [|split; [exact Hquery|apply query_string_chars]].
      unfold createTodo_url, buildUrl. rewrite Hquery. reflexivity.
Qed.

Lemma auth_token_attached_witness :
  buildJsonUrl Examples.env_token (completeTodos_items Examples.env_token ["T-1"])
  = "things:///json?data="
    ++ encodeURIComponent
         (stringify_items (completeTodos_items Examples.env_token ["T-1"]))
    ++ "&auth-token=s3cret"
  /\ Channel.run
       (UrlSchemeIO.createTodo (Sim.scripted_host (fun _ => []))
          (Examples.config Examples.env_utc)
          (Todos.create_params (Examples.titled "Buy milk")))
     = (inr tt, [Channel.EvOpen "things:///add?title=Buy%20milk"; Channel.EvSleep 2000]).
Proof.
  split.
  - destruct (auth_token_attached Examples.env_token) as [Hgiven _].
    destruct (Hgiven "s3cret" eq_refl) as (_ & Hjson & _); [discriminate|].
    apply Hjson.
  - destruct (auth_token_attached Examples.env_utc) as [_ Habsent].
    destruct (Habsent eq_refl (Sim.scripted_host (fun _ => []))
                (Examples.config Examples.env_utc)
                (Todos.create_params (Examples.titled "Buy milk")) eq_refl eq_refl)
      as [Hrun _].
    exact Hrun.
Defined.

End UrlFacts.

Section DecimalFacts.
Import Str Todos.

Lemma rev_string_app (a b : string) :
  rev_string (a ++ b) = rev_string b ++ rev_string a.
Proof.
  induction a as [|c a IH]; simpl; [symmetry; apply append_empty_r|].
  rewrite IH, append_assoc. reflexivity.
Qed.

Lemma rev_string_involutive (s : string) : rev_string (rev_string s) = s.
Proof.
  induction s as [|c s IH]; simpl; [reflexivity|].
  rewrite rev_string_app, IH. reflexivity.
Qed.

Lemma rev_string_chars (p : ascii -> bool) (s : string) :
  forallb_string p (rev_string s) = forallb_string p s.
Proof.
  induction s as [|c s IH]; simpl; [reflexivity|].
  rewrite forallb_string_app, IH. simpl. rewrite andb_true_r. apply andb_comm.
Qed.

Lemma digit_not_space (c : ascii) : is_digit c = true -> is_js_space c = false.
Proof.
  destruct c as [[] [] [] [] [] [] [] []]; vm_compute; intros H;
    first [reflexivity|discriminate H].
Qed.

Ltac byte_tests :=
  repeat (match goal with
          | |- context [Nat.eqb ?a ?b] => destruct (Nat.eqb_spec a b)
          | |- context [Nat.leb ?a ?b] => destruct (Nat.leb_spec a b)
          end; try lia);
  try reflexivity.

(** No white space of more than one byte has a byte below 128. *)
Lemma space2_ascii (n1 n2 : nat) : n1 < 128 \/ n2 < 128 -> space2 n1 n2 = false.
Proof. intros H. unfold space2. byte_tests. Qed.

Lemma space3_ascii (n1 n2 n3 : nat) :
  n1 < 128 \/ n2 < 128 \/ n3 < 128 -> space3 n1 n2 n3 = false.
Proof. intros H. unfold space3. byte_tests. Qed.

(** A text that starts with no white space is not cut at its start. *)
Lemma trim_start_plain (s : string) : starts_with_space s = false -> trim_start s = s.
Proof.
  destruct s as [|c1 [|c2 [|c3 r3]]]; cbn [starts_with_space trim_start]; intros H;
    try reflexivity.
  - rewrite orb_false_r in H. rewrite H. reflexivity.
  - apply orb_false_iff in H as [H1 H2]. rewrite orb_false_r in H2. rewrite H1, H2.
    reflexivity.
  - apply orb_false_iff in H as [H1 H2]. apply orb_false_iff in H2 as [H2 H3].
    rewrite H1, H2, H3. reflexivity.
Qed.

(** A byte below 128 that is no white space starts no white space, read
    forwards or backwards. *)
Lemma plain_byte_forwards (c : ascii) (r : string) :
  nat_of_ascii c < 128 -> is_js_space c = false -> starts_with_space (String c r) = false.
Proof.
  intros Hc Hs. cbn [starts_with_space]. rewrite Hs.
  destruct r as [|c2 [|c3 r3]]; try reflexivity;
    rewrite ?space2_ascii, ?space3_ascii by (left; exact Hc); reflexivity.
Qed.

Lemma plain_byte_backwards (c : ascii) (r : string) :
  nat_of_ascii c < 128 -> is_js_space c = false ->
  trim_start_reversed (String c r) = String c r.
Proof.
  intros Hc Hs. cbn [trim_start_reversed]. rewrite Hs.
  destruct r as [|c2 [|c3 r3]]; try reflexivity.
  - rewrite space2_ascii by (right; exact Hc). reflexivity.
  - rewrite space2_ascii by (right; exact Hc).
    rewrite space3_ascii by (right; right; exact Hc). reflexivity.
Qed.

Lemma digit_ascii (c : ascii) : is_digit c = true -> nat_of_ascii c < 128.
Proof.
  unfold is_digit. intros H. apply andb_true_iff in H as [_ H].
  apply Nat.leb_le in H. lia.
Qed.

Lemma drop_spaces_digits (s : string) :
  forallb_string is_digit s = true -> trim_start s = s.
Proof.
  intros H. apply trim_start_plain.
  destruct s as [|c s]; [reflexivity|].
  cbn [forallb_string] in H. apply andb_true_iff in H as [Hc _].
  apply plain_byte_forwards; [apply digit_ascii, Hc|apply digit_not_space, Hc].
Qed.

(** Trimming leaves a string of digits as it is. *)
Lemma trim_digits (s : string) : forallb_string is_digit s = true -> trim s = s.
Proof.
  intros H. unfold trim. rewrite (drop_spaces_digits s H).
  assert (Hback : trim_start_reversed (rev_string s) = rev_string s).
  { pose proof H as Hrev. rewrite <- rev_string_chars in Hrev.
    destruct (rev_string s) as [|c r]; [reflexivity|].
    cbn [forallb_string] in Hrev. apply andb_true_iff in Hrev as [Hc _].
    apply plain_byte_backwards; [apply digit_ascii, Hc|apply digit_not_space, Hc]. }
  rewrite Hback. apply rev_string_involutive.
Qed.

Lemma read_radix_decimal (d : Decimal.uint) (a : nat) :
  read_radix 10 (NilEmpty.string_of_uint d) (Some (Z.of_nat a))
  = Some (Z.of_nat (Nat.of_uint_acc d a)).
Proof.
  revert a. induction d; intros a; cbn [NilEmpty.string_of_uint Nat.of_uint_acc];
    [reflexivity| | | | | | | | | |];
    cbn [read_radix]; rewrite <- IHd; rewrite Nat.tail_mul_spec;
    (match goal with
     | |- context [digit_in 10 ?c] =>
         let v := eval vm_compute in (digit_in 10 c) in
         change (digit_in 10 c) with v
     end); cbv beta iota; do 2 f_equal; lia.
Qed.

Lemma to_uint_nonnil (n : nat) : Nat.to_uint n <> Decimal.Nil.
Proof.
  intros H. pose proof (Unsigned.of_to n) as Hn. rewrite H in Hn.
  cbn in Hn. subst n. discriminate H.
Qed.

(** [parseInt] reads the decimal text of a count back. *)
Lemma parseInt_of_nat (n : nat) : parseInt (trim (of_nat n)) = Some (Z.of_nat n).
Proof.
  rewrite (trim_digits _ (of_nat_digits n)).
  unfold parseInt. rewrite (drop_spaces_digits _ (of_nat_digits n)).
  pose proof (of_nat_digits n) as Hdigits.
  pose proof (read_radix_decimal (Nat.to_uint n) 0) as Hread.
  fold (Nat.of_uint (Nat.to_uint n)) in Hread. rewrite Unsigned.of_to in Hread.
  pose proof (to_uint_nonnil n) as Hnonnil.
  unfold of_nat in *.
  destruct (Nat.to_uint n) as [|d|d|d|d|d|d|d|d|d|d]; [contradiction| | | | | | | | | |];
    cbn [NilEmpty.string_of_uint] in *; try exact Hread.
  (* a leading zero: the next character is a digit, not the [x] of a hex prefix *)
  unfold read_unsigned.
  destruct (NilEmpty.string_of_uint d) as [|x rest] eqn:Hd; [exact Hread|].
  cbn [forallb_string] in Hdigits.
  apply andb_true_iff in Hdigits as [_ Hdigits].
  apply andb_true_iff in Hdigits as [Hx _].
  assert (Hnot : Ascii.eqb x "x" || Ascii.eqb x "X" = false).
  { destruct x as [[] [] [] [] [] [] [] []]; vm_compute in Hx;
      first [discriminate Hx|reflexivity]. }
  rewrite Hnot. exact Hread.
Qed.

End DecimalFacts.

Section BatchFacts.
Import Str Json Templates Things Channel Sim UrlScheme Todos.

Lemma find_todo_remove (i j : string) (store : Store) :
  find_todo j (remove_todo i store)
  = if String.eqb j i then None else find_todo j store.
Proof.
  unfold find_todo, remove_todo.
  induction store as [|t store IH]; cbn [filter find].
  - destruct (String.eqb j i); reflexivity.
  - destruct (String.eqb (id t) i) eqn:Ei; cbn [negb find].
    + rewrite IH. destruct (String.eqb j i) eqn:Eji; [reflexivity|].
      apply String.eqb_eq in Ei. rewrite Ei, (String.eqb_sym i j), Eji. reflexivity.
    + destruct (String.eqb (id t) j) eqn:Ej.
      * apply String.eqb_eq in Ej. subst j. rewrite Ei. reflexivity.
      * exact IH.
Qed.

Lemma knows_remove (i j : string) (store : Store) :
  knows (remove_todo i store) j = negb (String.eqb j i) && knows store j.
Proof.
  unfold knows. rewrite find_todo_remove.
  destruct (String.eqb j i); reflexivity.
Qed.

Lemma filter_without_absent (i : string) (l : list string) :
  ~ In i l -> filter (fun j => negb (String.eqb j i)) l = l.
Proof.
  induction l as [|x l IH]; cbn [filter]; intros Hi; [reflexivity|].
  destruct (String.eqb x i) eqn:E.
  - apply String.eqb_eq in E. subst. exfalso. apply Hi. now left.
  - cbn [negb]. f_equal. apply IH. intros Hin. apply Hi. now right.
Qed.

Lemma in_filter_without (i x : string) (l : list string) :
  x <> i -> (In x (filter (fun j => negb (String.eqb j i)) l) <-> In x l).
Proof.
  intros Hx. rewrite filter_In. split; [intros [H _]; exact H|].
  intros H. split; [exact H|]. apply negb_true_iff, String.eqb_neq, Hx.
Qed.

(** Taking one id out of a list lowers the number of distinct ids by one. *)
Lemma nodup_without (i : string) (l : list string) :
  In i l ->
  List.length (nodup string_dec l)
  = S (List.length (nodup string_dec (filter (fun j => negb (String.eqb j i)) l))).
Proof.
  induction l as [|x l IH]; [intros []|].
  intros Hin. cbn [nodup filter].
  destruct (String.eqb x i) eqn:E.
  - apply String.eqb_eq in E. subst x. cbn [negb].
    destruct (in_dec string_dec i l) as [Hil|Hil].
    + apply IH, Hil.
    + rewrite (filter_without_absent i l Hil). reflexivity.
  - cbn [negb nodup]. apply String.eqb_neq in E.
    assert (Hil : In i l) by (destruct Hin as [Heq|H]; [congruence|exact H]).
    destruct (in_dec string_dec x l) as [Hxl|Hxl];
      destruct (in_dec string_dec x (filter (fun j => negb (String.eqb j i)) l))
        as [Hxf|Hxf];
      try (exfalso; apply (in_filter_without i x l E) in Hxl; contradiction);
      try (exfalso; apply (in_filter_without i x l E) in Hxf; contradiction).
    + apply IH, Hil.
    + cbn [List.length]. f_equal. apply IH, Hil.
Qed.

(** The count of the delete script: the distinct ids of the request the
    application knows. *)
Lemma run_deleteTodos_count (ids : list string) (c : nat) (store : Store) :
  fst (run_deleteTodos ids c store)
  = c + List.length (nodup string_dec (filter (knows store) ids)).
Proof.
  revert c store. induction ids as [|i ids IH]; intros c store; cbn [run_deleteTodos filter].
  - cbn. lia.
  - unfold knows at 1. destruct (find_todo i store) as [t|] eqn:Hfind.
    + rewrite IH.
      rewrite (filter_ext (knows (remove_todo i store))
                 (fun j => negb (String.eqb j i) && knows store j))
        by (intros j; apply knows_remove).
      set (l := filter (knows store) ids).
      assert (Hl : filter (fun j => negb (String.eqb j i) && knows store j) ids
                   = filter (fun j => negb (String.eqb j i)) l).
      { subst l. clear. induction ids as [|x ids IHl]; [reflexivity|].
        cbn [filter]. destruct (knows store x); cbn [filter];
          destruct (String.eqb x i); cbn [negb andb]; rewrite ?IHl; reflexivity. }
      rewrite Hl. cbn [nodup].
      destruct (in_dec string_dec i l) as [Hil|Hil].
      * rewrite (nodup_without i l Hil). lia.
      * rewrite (filter_without_absent i l Hil). cbn [List.length]. lia.
    + apply IH.
Qed.

Lemma filter_partition_length {A : Type} (f : A -> bool) (l : list A) :
  List.length (filter f l) + List.length (filter (fun x => negb (f x)) l) = List.length l.
Proof.
  induction l as [|x l IH]; cbn [filter]; [reflexivity|].
  destruct (f x); cbn [negb List.length]; lia.
Qed.

(** What [deleteTodos] makes of the count the script returns. *)
Lemma deleteTodos_result (h : Host) (ids : list string) (n : nat) :
  ensure_running h [] = None ->
  execute_script h [EvEnsureRunning] (Templates.deleteTodos ids)
  = inr (ReplyText (of_nat n)) ->
  run (deleteTodos h (ManyIds ids))
  = (inr {| success := (0 <? Z.of_nat n)%Z; count := Z.of_nat n |},
     [EvEnsureRunning; EvExecute (Templates.deleteTodos ids)]).
Proof.
  intros Hrun Hreply.
  unfold run, deleteTodos, wrap_unknown, try_catch, bind.
  rewrite (ensureThings3Running_ok _ _ Hrun). cbn [ids_array app].
  rewrite (execute_ok _ _ _ _ Hreply). cbn [reply_text ret app].
  rewrite parseInt_of_nat. reflexivity.
Qed.

(** C6.  On a host that runs the delete script on its store, a batch delete
    returns without an error; an id the application does not know is
    skipped; the count reported is the number of distinct ids of the
    request that the application knew, and so deleted; and the success flag
    is true exactly when that count is positive.  For a request without
    repeated ids, the count is the length of the request less the unknown
    ids. *)
Theorem deleteTodos_counts_deleted :
  forall (h : Host) (ids : list string) (store : Store),
    ensure_running h [] = None ->
    execute_script h [EvEnsureRunning] (Templates.deleteTodos ids)
    = inr (answer (Templates.deleteTodos ids) store) ->
    let deletedCount := List.length (nodup string_dec (filter (knows store) ids)) in
    run (deleteTodos h (ManyIds ids))
    = (inr {| success := (0 <? Z.of_nat deletedCount)%Z; count := Z.of_nat deletedCount |},
       [EvEnsureRunning; EvExecute (Templates.deleteTodos ids)])
    /\ fst (run_deleteTodos ids 0 store) = deletedCount
    /\ ((0 <? Z.of_nat deletedCount)%Z = true <-> 0 < deletedCount)
    /\ (NoDup ids ->
        deletedCount + List.length (filter (fun i => negb (knows store i)) ids)
        = List.length ids).
Proof.
  intros h ids store Hrun Hreply deletedCount.
  assert (Hcount : fst (run_deleteTodos ids 0 store) = deletedCount)
    by apply run_deleteTodos_count.
  split; [|split; [exact Hcount|split]].
  - cbn [answer Templates.deleteTodos] in Hreply. rewrite Hcount in Hreply.
    apply deleteTodos_result; assumption.
  - rewrite Z.ltb_lt. lia.
  - intros Hnd. subst deletedCount.
    rewrite (nodup_fixed_point string_dec (NoDup_filter (knows store) Hnd)).
    apply filter_partition_length.
Qed.

Lemma deleteTodos_counts_deleted_witness :
  run (deleteTodos (scripted_host (fun _ => Examples.two_of_three)) (ManyIds ["A"; "B"; "C"]))
  = (inr {| success := true; count := 2 |},
     [EvEnsureRunning; EvExecute (DeleteTodosScript ["A"; "B"; "C"])]).
Proof.
  destruct (deleteTodos_counts_deleted (scripted_host (fun _ => Examples.two_of_three))
              ["A"; "B"; "C"] Examples.two_of_three eq_refl eq_refl) as [Hrun _].
  exact Hrun.
Defined.

(** [completeTodos] on a host that accepts the URL: the count is the length
    of the request, whatever the host holds. *)
Lemma completeTodos_result (h : Host) (cfg : UrlSchemeIO.Config) (ids : list string) :
  ensure_running h [] = None ->
  open_url h [EvEnsureRunning] (completeTodos_url (UrlSchemeIO.env cfg) ids) = None ->
  fst (run (completeTodos h cfg (ManyIds ids)))
  = inr {| success := true; count := Z.of_nat (List.length ids) |}.
Proof.
  intros Hrun Hopen.
  unfold run, completeTodos, wrap_unknown, try_catch, bind, UrlSchemeIO.completeTodos.
  rewrite (ensureThings3Running_ok _ _ Hrun). cbn [ids_array app].
  rewrite (url_execute_ok _ _ _ _ Hopen). reflexivity.
Qed.

(** C7, the code at the failing input.  Asked to complete one to-do the
    application does not hold, [completeTodos] reports success and a count
    of 1, where the status script of the templates, which counts per item,
    counts 0; and when the URL cannot be opened, the whole batch fails. *)
Theorem completeTodos_reports_request_size :
  fst (run (completeTodos (scripted_host (fun _ => [])) (Examples.config Examples.env_utc)
              (ManyIds ["no-such-id"])))
  = inr {| success := true; count := 1 |}
  /\ fst (run_completeTodos ["no-such-id"] []) = 0
  /\ fst (run (uncompleteTodos (scripted_host (fun _ => []))
                 (Examples.config Examples.env_utc) (ManyIds ["no-such-id"])))
     = inr {| success := true; count := 1 |}
  /\ fst (run (completeTodos (closed_host "LSOpenURLsWithRole() failed" Examples.two_of_three)
                 (Examples.config Examples.env_utc) (ManyIds ["A"; "B"; "C"])))
     = inl (Things3Error UNKNOWN "Failed to complete TODOs").
Proof. repeat split. Qed.

(** [removeTagsFromItems] of the URL scheme handler takes no tags to
    remove: as its comment says, it removes all tags, writing the empty tag
    list to each item. *)
Lemma removeTagsFromItems_clears_all_tags :
  removeTagsFromItems_items Examples.env_utc ["T-1"]
  = [update_item TODO "T-1" [("tags", JArray [])]]
  /\ (exists url,
        run (UrlSchemeIO.removeTagsFromItems (scripted_host (fun _ => []))
               (Examples.config Examples.env_utc) ["T-1"])
        = (inr tt, [EvOpen url; EvSleep 2000])).
Proof.
  split; [reflexivity|]. eexists; reflexivity.
Qed.

Lemma split_whole (sep : ascii) (s : string) :
  has_char sep s = false -> split sep s = [s].
Proof.
  unfold has_char. induction s as [|c s IH]; cbn [split existsb_string]; [reflexivity|].
  intros H. apply orb_false_iff in H as [Hc Hs].
  rewrite Ascii.eqb_sym, Hc, (IH Hs). reflexivity.
Qed.

Lemma plain_tag_spec (t : string) :
  plain_tag t = true -> has_char "," t = false /\ trim_spaces t = t.
Proof.
  unfold plain_tag. intros H. apply andb_true_iff in H as [Hc Ht].
  split; [apply negb_true_iff, Hc|apply String.eqb_eq, Ht].
Qed.

(** The text items of the tag names of plain tags, trimmed, are the tags. *)
Lemma tag_names_items (t : string) (tags : list string) :
  forallb plain_tag (t :: tags) = true ->
  map trim_spaces (split "," (tag_names_of (t :: tags))) = t :: tags.
Proof.
  revert t. induction tags as [|t' tags IH]; intros t Hplain;
    apply andb_true_iff in Hplain as [Ht Hrest];
    destruct (plain_tag_spec t Ht) as [Hcomma Htrim];
    unfold tag_names_of; rewrite join_cons.
  - rewrite append_empty_r, (split_whole _ _ Hcomma). cbn [map].
    rewrite Htrim. reflexivity.
  - cbn [append].
    rewrite (split_first_piece _ _ _ Hcomma). cbn [map]. rewrite Htrim. f_equal.
    specialize (IH t' Hrest). unfold tag_names_of in IH.
    cbn [split]. change (Ascii.eqb " " ",") with false. cbv iota.
    destruct (split "," (join ", " (t' :: tags))) as [|piece pieces];
      [discriminate IH|].
    cbn [map] in *. injection IH as Hpiece Hpieces.
    rewrite Hpieces. f_equal. rewrite <- Hpiece. reflexivity.
Qed.

(** The subroutine on a set of plain tags: the set without the tag. *)
Lemma removeTag_tag_names (tags : list string) (x : string) :
  forallb plain_tag tags = true ->
  removeTag (tag_names_of tags) x
  = tag_names_of (filter (fun t => negb (String.eqb t x)) tags).
Proof.
  intros Hplain. unfold removeTag. destruct tags as [|t tags].
  - cbn. destruct x; reflexivity.
  - rewrite (tag_names_items t tags Hplain). reflexivity.
Qed.

Lemma plain_tags_filter (f : string -> bool) (tags : list string) :
  forallb plain_tag tags = true -> forallb plain_tag (filter f tags) = true.
Proof.
  induction tags as [|t tags IH]; cbn [forallb filter]; [reflexivity|].
  intros H. apply andb_true_iff in H as [Ht Hrest].
  destruct (f t); cbn [forallb]; rewrite ?Ht; auto.
Qed.

(** The subroutine over all the tags to remove: what is left of the set, in
    its order. *)
Lemma removeTags_tag_names (toRemove tags : list string) :
  forallb plain_tag tags = true ->
  fold_left removeTag toRemove (tag_names_of tags)
  = tag_names_of (filter (fun t => negb (existsb (String.eqb t) toRemove)) tags).
Proof.
  revert tags. induction toRemove as [|x toRemove IH]; intros tags Hplain; cbn [fold_left].
  - f_equal. symmetry. clear Hplain.
    induction tags as [|t tags IHt]; cbn; [reflexivity|]. f_equal. exact IHt.
  - rewrite (removeTag_tag_names tags x Hplain).
    rewrite IH by (apply plain_tags_filter, Hplain).
    f_equal. clear. induction tags as [|t tags IHt]; [reflexivity|].
    cbn [filter existsb]. destruct (String.eqb t x); cbn [negb orb filter];
      rewrite IHt; reflexivity.
Qed.

(** The template on a set of plain tags: it writes the names of the tags
    that are left, and writes nothing when the names did not change; so
    nothing is written when no tag to remove is in the set. *)
Lemma removeTags_write_plain (existing toRemove : list string) :
  forallb plain_tag existing = true ->
  let remaining := filter (fun t => negb (existsb (String.eqb t) toRemove)) existing in
  removeTags_write (Some (tag_names_of existing)) toRemove
  = (if negb (truthy (tag_names_of existing)) then None
     else if String.eqb (tag_names_of remaining) (tag_names_of existing) then None
          else Some (tag_names_of remaining))
  /\ ((forall x, In x toRemove -> ~ In x existing) ->
      removeTags_write (Some (tag_names_of existing)) toRemove = None).
Proof.
  intros Hplain remaining.
  assert (Hwrite :
    removeTags_write (Some (tag_names_of existing)) toRemove
    = (if negb (truthy (tag_names_of existing)) then None
       else if String.eqb (tag_names_of remaining) (tag_names_of existing) then None
            else Some (tag_names_of remaining))).
  { unfold removeTags_write. rewrite (removeTags_tag_names _ _ Hplain). reflexivity. }
  split; [exact Hwrite|].
  intros Habsent. rewrite Hwrite.
  assert (Hsame : remaining = existing).
  { subst remaining. clear Hwrite Hplain.
    induction existing as [|t existing IHe]; [reflexivity|]. cbn [filter].
    assert (Hnot : existsb (String.eqb t) toRemove = false).
    { apply not_true_is_false. intros Hex. apply existsb_exists in Hex as (x & Hx & Heq).
      apply String.eqb_eq in Heq. subst x. apply (Habsent t Hx). now left. }
    rewrite Hnot. cbn [negb]. f_equal. apply IHe.
    intros x Hx Hin. apply (Habsent x Hx). now right. }
  rewrite Hsame, String.eqb_refl. destruct (negb (truthy (tag_names_of existing))); reflexivity.
Qed.

Lemma truthy_tags_filter (f : string -> bool) (tags : list string) :
  forallb truthy tags = true -> forallb truthy (filter f tags) = true.
Proof.
  induction tags as [|t tags IH]; cbn [forallb filter]; [reflexivity|].
  intros H. apply andb_true_iff in H as [Ht Hrest].
  destruct (f t); cbn [forallb]; rewrite ?Ht; auto.
Qed.

(** Two sets of plain tags, none of them empty, with the same tag names
    are the same. *)
Lemma tag_names_inj (a b : list string) :
  forallb plain_tag a = true -> forallb truthy a = true ->
  forallb plain_tag b = true -> forallb truthy b = true ->
  tag_names_of a = tag_names_of b -> a = b.
Proof.
  assert (Hne : forall t tags, forallb truthy (t :: tags) = true ->
                               tag_names_of (t :: tags) <> EmptyString).
  { intros t tags H. cbn [forallb] in H. apply andb_true_iff in H as [Ht _].
    unfold tag_names_of. rewrite join_cons.
    destruct t; [discriminate Ht|discriminate]. }
  intros Ha Hta Hb Htb Heq.
  destruct a as [|x a], b as [|y b]; [reflexivity| | |].
  - exfalso. apply (Hne y b Htb). rewrite <- Heq. reflexivity.
  - exfalso. apply (Hne x a Hta). rewrite Heq. reflexivity.
  - rewrite <- (tag_names_items x a Ha), <- (tag_names_items y b Hb), Heq. reflexivity.
Qed.



End BatchFacts.

Section DatabaseFacts.
Import Str Database.

Lemma concat_empty_cons (x : string) (l : list string) :
  String.concat EmptyString (x :: l) = x ++ String.concat EmptyString l.
Proof.
  destruct l; cbn [String.concat]; [symmetry; apply append_empty_r|reflexivity].
Qed.

(** Output events only gather output. *)
Lemma step_data (data : list ProcEvent) (st : QueryState) :
  forallb is_data data = true ->
  fold_left step data st
  = {| stdout := stdout st ++ out_of data;
       stderr := stderr st ++ err_of data;
       timer_armed := timer_armed st;
       promise := promise st |}.
Proof.
  revert st. induction data as [|ev data IH]; intros st Hdata.
  - cbn. rewrite !append_empty_r. destruct st; reflexivity.
  - cbn [forallb] in Hdata. apply andb_true_iff in Hdata as [Hev Hdata].
    cbn [fold_left]. rewrite (IH _ Hdata).
    unfold out_of, err_of. cbn [map]. rewrite !concat_empty_cons.
    destruct ev; try discriminate Hev; cbn [step stdout stderr timer_armed promise];
      rewrite ?append_assoc; reflexivity.
Qed.

(** A promise that is settled stays as it is. *)
Lemma step_settled (evs : list ProcEvent) (st : QueryState) :
  promise st <> Pending -> promise (fold_left step evs st) = promise st.
Proof.
  revert st. induction evs as [|ev evs IH]; intros st Hst; [reflexivity|].
  cbn [fold_left].
  assert (Hsame : promise (step st ev) = promise st).
  { destruct ev; cbn [step promise]; try reflexivity;
      try (destruct (promise st); [contradiction|reflexivity|reflexivity]).
    destruct (timer_armed st); [|reflexivity].
    cbn [promise]. destruct (promise st); [contradiction|reflexivity|reflexivity]. }
  rewrite IH; [exact Hsame|]. rewrite Hsame. exact Hst.
Qed.

(** The promise of a query whose first event other than output is [ev]. *)
Lemma queryDatabase_first (db : Sqlite) (sql : string) (data rest : list ProcEvent)
  (ev : ProcEvent) (outcome : Promise string) :
  forallb is_data data = true ->
  db sql = (data ++ ev :: rest)%list ->
  outcome <> Pending ->
  promise (step {| stdout := out_of data; stderr := err_of data;
                   timer_armed := true; promise := Pending |} ev) = outcome ->
  queryDatabase db sql = outcome.
Proof.
  intros Hdata Hdb Hsettled Hev.
  unfold queryDatabase. rewrite Hdb, fold_left_app. cbn [fold_left].
  rewrite (step_data data initial Hdata). cbn [initial stdout stderr timer_armed promise append].
  rewrite step_settled; rewrite Hev; [reflexivity|exact Hsettled].
Qed.

(** C8, amended.  [queryDatabase] surfaces the three failures of the
    [sqlite3] channel as rejections with three different messages: the
    failure to start the process, an exit status other than 0, and the
    timeout of ten seconds, whichever comes first after the output.
    [getChecklistItems] catches every rejection and hands the caller the
    empty list. *)
Theorem queryDatabase_rejects_getChecklistItems_empties :
  forall (db : Sqlite) (sql : string) (data rest : list ProcEvent),
    forallb is_data data = true ->
    (forall message,
        db sql = (data ++ SpawnError message :: rest)%list ->
        queryDatabase db sql = Rejected ("Failed to spawn sqlite3: " ++ message))
    /\ (forall code,
          code <> Some 0%Z ->
          db sql = (data ++ Close code :: rest)%list ->
          queryDatabase db sql
          = Rejected ("sqlite3 exited with code " ++ code_text code ++ ": " ++ err_of data))
    /\ (db sql = (data ++ TimerFired :: rest)%list ->
        queryDatabase db sql = Rejected "SQLite query timed out after 10s")
    /\ (forall message code,
          "Failed to spawn sqlite3: " ++ message
          <> "sqlite3 exited with code " ++ code_text code ++ ": " ++ err_of data
          /\ "Failed to spawn sqlite3: " ++ message <> "SQLite query timed out after 10s"
          /\ "sqlite3 exited with code " ++ code_text code ++ ": " ++ err_of data
             <> "SQLite query timed out after 10s")
    /\ (forall todoId message,
          queryDatabase db (checklist_sql todoId) = Rejected message ->
          getChecklistItems db todoId = Resolved []).
Proof.
  intros db sql data rest Hdata.
  split; [|split; [|split; [|split]]].
  - intros message Hdb.
    apply (queryDatabase_first db sql data rest _ _ Hdata Hdb); [discriminate|reflexivity].
  - intros code Hcode Hdb.
    apply (queryDatabase_first db sql data rest _ _ Hdata Hdb); [discriminate|].
    cbn [step promise settle stderr].
    destruct code as [[| |]|]; try reflexivity. contradiction.
  - intros Hdb.
    apply (queryDatabase_first db sql data rest _ _ Hdata Hdb); [discriminate|reflexivity].
  - intros message code. cbn [append]. repeat split; discriminate.
  - intros todoId message Hrejected. unfold getChecklistItems.
    rewrite Hrejected. reflexivity.
Qed.

Lemma queryDatabase_rejects_getChecklistItems_empties_witness :
  queryDatabase Examples.sqlite_missing (checklist_sql "T-1")
  = Rejected "Failed to spawn sqlite3: spawn sqlite3 ENOENT"
  /\ queryDatabase Examples.sqlite_fails (checklist_sql "T-1")
     = Rejected "sqlite3 exited with code 1: Error: unable to open database file"
  /\ queryDatabase Examples.sqlite_hangs (checklist_sql "T-1")
     = Rejected "SQLite query timed out after 10s"
  /\ getChecklistItems Examples.sqlite_fails "T-1" = Resolved [].
Proof.
  destruct (queryDatabase_rejects_getChecklistItems_empties Examples.sqlite_missing
              (checklist_sql "T-1") [] [] eq_refl) as (Hspawn & _).
  destruct (queryDatabase_rejects_getChecklistItems_empties Examples.sqlite_fails
              (checklist_sql "T-1")
              [StderrData "Error: unable to open database file"] [] eq_refl)
    as (_ & Hexit & _ & _ & Hempty).
  destruct (queryDatabase_rejects_getChecklistItems_empties Examples.sqlite_hangs
              (checklist_sql "T-1") [] [Close None] eq_refl) as (_ & _ & Htimeout & _).
  split; [apply Hspawn; reflexivity|].
  split; [apply (Hexit (Some 1%Z)); [discriminate|reflexivity]|].
  split; [apply Htimeout; reflexivity|].
  apply (Hempty "T-1" "sqlite3 exited with code 1: Error: unable to open database file").
  apply (Hexit (Some 1%Z)); [discriminate|reflexivity].
Defined.

(** C8, as stated, fails for the checklist channel: a process that cannot
    be started, an exit status 1 and a timeout each reach the caller of
    [getChecklistItems] as the empty list, the result of a query that finds
    no row. *)
Lemma getChecklistItems_swallows_failures :
  getChecklistItems Examples.sqlite_missing "T-1" = Resolved []
  /\ getChecklistItems Examples.sqlite_fails "T-1" = Resolved []
  /\ getChecklistItems Examples.sqlite_hangs "T-1" = Resolved []
  /\ getChecklistItems Examples.sqlite_no_rows "T-1" = Resolved [].
Proof. repeat split. Qed.

End DatabaseFacts.


Section SearchParamsFacts.
Import Str Json Url UrlScheme UrlSchemeMore SearchParams.

Lemma form_char_encoded (c : ascii) : forallb_string encoded_char (form_char c) = true.
Proof. destruct c as [[] [] [] [] [] [] [] []]; reflexivity. Qed.

Lemma form_encode_encoded (s : string) : forallb_string encoded_char (form_encode s) = true.
Proof.
  induction s as [|c s IH]; [reflexivity|].
  cbn [form_encode]. rewrite forallb_string_app, form_char_encoded, IH. reflexivity.
Qed.

Lemma replace_plus_encoded (s : string) :
  forallb_string encoded_char s = true ->
  forallb_string encoded_char (replace_plus s) = true.
Proof.
  induction s as [|c s IH]; [reflexivity|].
  cbn [forallb_string replace_plus]. intros H. apply andb_true_iff in H as [Hc Hs].
  destruct (Ascii.eqb c "+").
  - rewrite forallb_string_app, (IH Hs). reflexivity.
  - cbn [forallb_string]. rewrite (IH Hs), Hc. reflexivity.
Qed.

Lemma decode_form_char (c : ascii) (t : string) :
  decode_component (form_char c ++ t) = String c (decode_component t).
Proof. destruct c as [[] [] [] [] [] [] [] []]; reflexivity. Qed.

Lemma decode_replaced_char (c : ascii) (t : string) :
  decode_component (replace_plus (form_char c) ++ t) = String c (decode_component t).
Proof. destruct c as [[] [] [] [] [] [] [] []]; reflexivity. Qed.

(** Decoding undoes the encoding of a name or a value, with the plus sign
    for a space or with [%20]. *)
Lemma decode_form_encode (s : string) : decode_component (form_encode s) = s.
Proof.
  induction s as [|c s IH]; [reflexivity|].
  cbn [form_encode]. rewrite decode_form_char, IH. reflexivity.
Qed.

Lemma decode_encode_component (s : string) : decode_component (encode_component s) = s.
Proof.
  induction s as [|c s IH]; [reflexivity|].
  unfold encode_component in *. cbn [form_encode].
  rewrite replace_plus_app, decode_replaced_char, IH. reflexivity.
Qed.

Lemma split_pair_at (a b : string) :
  has_char "=" a = false -> split_pair (a ++ String "=" b) = (a, b).
Proof.
  unfold has_char. induction a as [|c a IH]; intros H.
  - reflexivity.
  - cbn [existsb_string] in H. apply orb_false_iff in H as [Hc Ha].
    change (split_pair (String c a ++ String "=" b))
      with (if Ascii.eqb c "=" then (EmptyString, a ++ String "=" b)
            else let '(name, value) := split_pair (a ++ String "=" b) in
                 (String c name, value)).
    rewrite Ascii.eqb_sym in Hc. rewrite Hc, (IH Ha). reflexivity.
Qed.

Lemma split_joined (sep : ascii) (x : string) (l : list string) :
  (forall y, In y (x :: l) -> has_char sep y = false) ->
  split sep (join (chr sep) (x :: l)) = x :: l.
Proof.
  revert x. induction l as [|y l IH]; intros x Hfree.
  - unfold join. cbn [String.concat]. apply split_whole. apply Hfree. now left.
  - rewrite join_cons.
    change (x ++ chr sep ++ join (chr sep) (y :: l))
      with (x ++ String sep (join (chr sep) (y :: l))).
    rewrite split_first_piece by (apply Hfree; now left).
    f_equal. apply IH. intros z Hz. apply Hfree. now right.
Qed.

(** A pair as the serializer writes it, with either encoding of the space,
    is read back as the pair. *)
Lemma parse_sequence_pair (enc : string -> string) (kv : string * string) :
  (forall s, forallb_string encoded_char (enc s) = true) ->
  (forall s, decode_component (enc s) = s) ->
  parse_sequence (enc (fst kv) ++ "=" ++ enc (snd kv)) = kv.
Proof.
  intros Hchars Hdecode. destruct kv as [k v]. cbn [fst snd].
  unfold parse_sequence.
  change (enc k ++ "=" ++ enc v) with (enc k ++ String "=" (enc v)).
  rewrite split_pair_at by (apply (has_char_outside encoded_char); [apply Hchars|reflexivity]).
  rewrite !Hdecode. reflexivity.
Qed.

Lemma parse_serialized (enc : string -> string) (ps : URLSearchParams) :
  (forall s, forallb_string encoded_char (enc s) = true) ->
  (forall s, decode_component (enc s) = s) ->
  map parse_sequence
    (filter truthy
       (split "&" (join "&" (map (fun kv => enc (fst kv) ++ "=" ++ enc (snd kv)) ps))))
  = ps.
Proof.
  intros Hchars Hdecode.
  set (pair_text := fun kv : string * string => enc (fst kv) ++ "=" ++ enc (snd kv)).
  assert (Hfilter : forall l, filter truthy (map pair_text l) = map pair_text l).
  { induction l as [|x l IH]; [reflexivity|].
    cbn [map filter]. rewrite IH.
    assert (Htruthy : truthy (pair_text x) = true)
      by (unfold pair_text; destruct (enc (fst x)); reflexivity).
    rewrite Htruthy. reflexivity. }
  assert (Hread : forall l, map parse_sequence (map pair_text l) = l).
  { induction l as [|x l IH]; [reflexivity|].
    cbn [map]. rewrite IH. unfold pair_text at 1.
    rewrite (parse_sequence_pair enc x Hchars Hdecode). reflexivity. }
  destruct ps as [|kv ps]; [reflexivity|].
  change (join "&") with (join (chr "&")).
  cbn [map]. rewrite split_joined.
  - change (pair_text kv :: map pair_text ps) with (map pair_text (kv :: ps)).
    rewrite Hfilter. apply Hread.
  - intros y Hy.
    change (pair_text kv :: map pair_text ps) with (map pair_text (kv :: ps)) in Hy.
    apply in_map_iff in Hy as (x & <- & _). unfold pair_text.
    rewrite !has_char_app, !(has_char_outside encoded_char "&" _ (Hchars _));
      reflexivity.
Qed.

Lemma parse_without_question (s : string) :
  (forall rest, s <> String "?" rest) ->
  parse s = map parse_sequence (filter truthy (split "&" s)).
Proof.
  intros H. unfold parse. destruct s as [|c rest]; [reflexivity|].
  destruct c as [[] [] [] [] [] [] [] []]; try reflexivity.
  exfalso. apply (H rest). reflexivity.
Qed.

Lemma serialized_without_question (enc : string -> string) (ps : URLSearchParams) :
  (forall s, forallb_string encoded_char (enc s) = true) ->
  forall rest,
    join "&" (map (fun kv => enc (fst kv) ++ "=" ++ enc (snd kv)) ps) <> String "?" rest.
Proof.
  intros Hchars rest Heq.
  destruct ps as [|kv ps]; [discriminate Heq|].
  cbn [map] in Heq. rewrite join_cons in Heq.
  pose proof (Hchars (fst kv)) as Hk.
  destruct (enc (fst kv)) as [|c k]; cbn [append] in Heq.
  - discriminate Heq.
  - injection Heq as Hc _. subst c. discriminate Hk.
Qed.

Lemma encode_component_encoded (s : string) :
  forallb_string encoded_char (encode_component s) = true.
Proof. apply replace_plus_encoded, form_encode_encoded. Qed.

Lemma decode_uri_char (c : ascii) (t : string) :
  decode_component ((if uri_unreserved c then chr c else percent c) ++ t)
  = String c (decode_component t).
Proof. destruct c as [[] [] [] [] [] [] [] []]; reflexivity. Qed.

Lemma decode_encodeURIComponent (s : string) :
  decode_component (encodeURIComponent s) = s.
Proof.
  induction s as [|c s IH]; [reflexivity|].
  cbn [encodeURIComponent]. rewrite decode_uri_char, IH. reflexivity.
Qed.

Lemma encodeURIComponent_chars (s : string) :
  forallb_string uri_char (encodeURIComponent s) = true.
Proof.
  induction s as [|c s IH]; [reflexivity|].
  cbn [encodeURIComponent]. rewrite forallb_string_app, IH, andb_true_r.
  destruct c as [[] [] [] [] [] [] [] []]; reflexivity.
Qed.

Lemma decode_unreserved_char (c : ascii) (t : string) :
  uri_unreserved c = true -> decode_component (String c t) = String c (decode_component t).
Proof. destruct c as [[] [] [] [] [] [] [] []]; intros H; try discriminate H; reflexivity. Qed.

Lemma decode_unreserved (t : string) :
  forallb_string uri_unreserved t = true -> decode_component t = t.
Proof.
  induction t as [|c t IH]; [reflexivity|].
  cbn [forallb_string]. intros H. apply andb_true_iff in H as [Hc Ht].
  rewrite (decode_unreserved_char c t Hc), (IH Ht). reflexivity.
Qed.

Lemma existsb_string_app (p : ascii -> bool) (a b : string) :
  existsb_string p (a ++ b) = existsb_string p a || existsb_string p b.
Proof.
  induction a as [|x a IH]; simpl; [reflexivity|].
  rewrite IH, orb_assoc. reflexivity.
Qed.

Lemma existsb_string_outside (p q : ascii -> bool) (s : string) :
  (forall c, p c = true -> q c = false) ->
  forallb_string p s = true -> existsb_string q s = false.
Proof.
  intros Hpq. induction s as [|c s IH]; [reflexivity|].
  cbn [forallb_string existsb_string]. intros H.
  apply andb_true_iff in H as [Hc Hs]. rewrite (Hpq c Hc), (IH Hs). reflexivity.
Qed.

Lemma query_char_not_special (c : ascii) : query_char c = true -> shell_special c = false.
Proof. destruct c as [[] [] [] [] [] [] [] []]; intros H; try discriminate H; reflexivity. Qed.

Lemma uri_char_not_special (c : ascii) : uri_char c = true -> shell_special c = false.
Proof. destruct c as [[] [] [] [] [] [] [] []]; intros H; try discriminate H; reflexivity. Qed.

End SearchParamsFacts.

Section WireFacts.
Import Str Json Url UrlScheme UrlSchemeMore SearchParams.

(** X1.  What the receiver of a [buildUrl] URL reads is what was sent: the
    query string, parsed as the search part of a URL is (cut at the
    ampersands, each piece cut at its first equals sign, plus signs and
    percent escapes decoded), gives back the name-value pairs the builder
    appended, in their order and byte for byte, whatever characters the
    names and the values hold; so does the serialization of any
    [URLSearchParams] object, and a leading question mark changes nothing. *)
Theorem query_string_reads_back :
  forall (e : Env) (params : list (string * ParamValue)) (ps : URLSearchParams),
    SearchParams.parse (toString ps) = ps
    /\ SearchParams.parse (query_string e params) = url_params e params
    /\ SearchParams.parse ("?" ++ query_string e params) = url_params e params.
Proof.
  intros e params ps. split; [|split].
  - rewrite parse_without_question.
    + apply (parse_serialized form_encode); [apply form_encode_encoded|apply decode_form_encode].
    + apply (serialized_without_question form_encode), form_encode_encoded.
  - rewrite query_string_pairs, parse_without_question.
    + apply (parse_serialized encode_component);
        [apply encode_component_encoded|apply decode_encode_component].
    + apply (serialized_without_question encode_component), encode_component_encoded.
  - rewrite query_string_pairs.
    apply (parse_serialized encode_component);
      [apply encode_component_encoded|apply decode_encode_component].
Qed.

(** X2.  The receiver of a [buildJsonUrl] URL reads the JSON text of the
    items back exactly from the parameter [data], and after it the
    authorization token when the environment gives one, provided the token
    is made of letters, digits and [-_.!~*'()]: the token is written into
    the URL as it stands, without encoding. *)
Theorem json_url_reads_back :
  forall (e : Env) (items : list JSValue),
    token_plain e = true ->
    exists q,
      buildJsonUrl e items = "things:///json?" ++ q
      /\ SearchParams.parse q
         = ("data", stringify_items items)
           :: match token_given e with
              | Some t => [("auth-token", t)]
              | None => []
              end.
Proof.
  intros e items Hplain. unfold buildJsonUrl, token_plain in *.
  set (json := stringify_items items).
  assert (Hamp : has_char "&" ("data=" ++ encodeURIComponent json) = false).
  { rewrite has_char_app.
    rewrite (has_char_outside uri_char "&" _ (encodeURIComponent_chars json)); reflexivity. }
  assert (Hdata : parse_sequence ("data=" ++ encodeURIComponent json) = ("data", json)).
  { change ("data=" ++ encodeURIComponent json)
      with ("data" ++ String "=" (encodeURIComponent json)).
    unfold parse_sequence. rewrite split_pair_at by reflexivity.
    rewrite decode_encodeURIComponent. reflexivity. }
  destruct (token_given e) as [t|].
  - exists ("data=" ++ encodeURIComponent json ++ "&auth-token=" ++ t). split; [reflexivity|].
    change (parse ("data=" ++ encodeURIComponent json ++ "&auth-token=" ++ t))
      with (map parse_sequence
              (filter truthy
                 (split "&" ("data=" ++ encodeURIComponent json ++ "&auth-token=" ++ t)))).
    replace ("data=" ++ encodeURIComponent json ++ "&auth-token=" ++ t)
      with (("data=" ++ encodeURIComponent json) ++ String "&" ("auth-token=" ++ t))
      by (rewrite append_assoc; reflexivity).
    rewrite split_first_piece by exact Hamp.
    rewrite split_whole.
    + change (filter truthy ["data=" ++ encodeURIComponent json; "auth-token=" ++ t])
        with ["data=" ++ encodeURIComponent json; "auth-token=" ++ t].
      cbn [map]. rewrite Hdata. do 2 f_equal.
      change ("auth-token=" ++ t) with ("auth-token" ++ String "=" t).
      unfold parse_sequence. rewrite split_pair_at by reflexivity.
      rewrite (decode_unreserved t Hplain). reflexivity.
    + rewrite has_char_app.
      rewrite (has_char_outside uri_unreserved "&" t Hplain); reflexivity.
  - exists ("data=" ++ encodeURIComponent json). split; [reflexivity|].
    change (parse ("data=" ++ encodeURIComponent json))
      with (map parse_sequence
              (filter truthy (split "&" ("data=" ++ encodeURIComponent json)))).
    rewrite split_whole by exact Hamp.
    change (filter truthy ["data=" ++ encodeURIComponent json])
      with ["data=" ++ encodeURIComponent json].
    cbn [map]. rewrite Hdata. reflexivity.
Qed.

Lemma json_url_reads_back_witness :
  exists q,
    buildJsonUrl Examples.env_token
      [update_item TODO "T-1" [("title", JString "a & b = 100%")]]
    = "things:///json?" ++ q
    /\ SearchParams.parse q
       = [("data",
           stringify_items [update_item TODO "T-1" [("title", JString "a & b = 100%")]]);
          ("auth-token", "s3cret")].
Proof.
  apply (json_url_reads_back Examples.env_token
           [update_item TODO "T-1" [("title", JString "a & b = 100%")]]).
  reflexivity.
Defined.

(** A byte below 128 is decoded as itself; any other first byte gives a
    first byte that is not below 128. *)
Lemma utf8_decode_head (c : ascii) (r : string) :
  exists x y,
    utf8_decode (String c r) = String x y
    /\ (is_ascii c = true -> x = c /\ y = utf8_decode r)
    /\ (is_ascii c = false -> is_ascii x = false).
Proof.
  cbn [utf8_decode]. destruct (is_ascii c) eqn:Hc.
  - exists c, (utf8_decode r). split; [reflexivity|]. split; [auto|discriminate].
  - assert (Hrep : forall rest, exists x y,
              replaced rest = String x y
              /\ (false = true -> x = c /\ y = utf8_decode r)
              /\ (false = false -> is_ascii x = false)).
    { intros rest. eexists. eexists. split; [reflexivity|].
      split; [discriminate|reflexivity]. }
    assert (Hkept : forall rest, exists x y,
              String c rest = String x y
              /\ (false = true -> x = c /\ y = utf8_decode r)
              /\ (false = false -> is_ascii x = false)).
    { intros rest. exists c, rest. split; [reflexivity|].
      split; [discriminate|intros _; exact Hc]. }
    destruct (between 194 223 c); [|destruct (between 224 239 c);
                                     [|destruct (between 240 244 c)]].
    + destruct r as [|c2 r2]; [apply Hrep|].
      destruct (second_byte c c2); [apply Hkept|apply Hrep].
    + destruct r as [|c2 r2]; [apply Hrep|].
      destruct (second_byte c c2); [|apply Hrep].
      destruct r2 as [|c3 r3]; [apply Hrep|].
      destruct (between 128 191 c3); [apply Hkept|apply Hrep].
    + destruct r as [|c2 r2]; [apply Hrep|].
      destruct (second_byte c c2); [|apply Hrep].
      destruct r2 as [|c3 r3]; [apply Hrep|].
      destruct (between 128 191 c3); [|apply Hrep].
      destruct r3 as [|c4 r4]; [apply Hrep|].
      destruct (between 128 191 c4); [apply Hkept|apply Hrep].
    + apply Hrep.
Qed.

(** A text of bytes below 128 is decoded as itself. *)
Lemma utf8_decode_ascii (s : string) :
  forallb_string is_ascii s = true -> utf8_decode s = s.
Proof.
  induction s as [|c s IH]; [reflexivity|].
  cbn [forallb_string]. intros H. apply andb_true_iff in H as [Hc Hs].
  cbn [utf8_decode]. rewrite Hc, (IH Hs). reflexivity.
Qed.

(** Only the empty text is decoded as the empty text. *)
Lemma utf8_decode_truthy (s : string) : truthy (utf8_decode s) = truthy s.
Proof.
  destruct s as [|c r]; [reflexivity|].
  destruct (utf8_decode_head c r) as (x & y & -> & _). reflexivity.
Qed.

(** Only a text of bytes below 128 is decoded as itself. *)
Lemma utf8_decode_eqb (name s : string) :
  forallb_string is_ascii name = true ->
  String.eqb (utf8_decode s) name = String.eqb s name.
Proof.
  revert s. induction name as [|a name IH]; intros s Hname.
  - destruct s as [|c r]; [reflexivity|].
    destruct (utf8_decode_head c r) as (x & y & -> & _). reflexivity.
  - cbn [forallb_string] in Hname. apply andb_true_iff in Hname as [Ha Hrest].
    destruct s as [|c r]; [reflexivity|].
    destruct (utf8_decode_head c r) as (x & y & -> & Hlow & Hhigh).
    cbn [String.eqb]. destruct (is_ascii c) eqn:Hc.
    + destruct (Hlow eq_refl) as [-> ->]. rewrite (IH r Hrest). reflexivity.
    + assert (Hx : Ascii.eqb x a = false).
      { apply Ascii.eqb_neq. intros ->. rewrite (Hhigh eq_refl) in Ha. discriminate Ha. }
      assert (Hca : Ascii.eqb c a = false).
      { apply Ascii.eqb_neq. intros ->. rewrite Hc in Ha. discriminate Ha. }
      rewrite Hx, Hca. reflexivity.
Qed.

Lemma get_decoded (name : string) (ps : URLSearchParams) :
  forallb_string is_ascii name = true ->
  SearchParams.get name (map (fun kv => (utf8_decode (fst kv), utf8_decode (snd kv))) ps)
  = option_map utf8_decode (SearchParams.get name ps).
Proof.
  intros Hname. induction ps as [|[k v] ps IH]; [reflexivity|].
  cbn [map SearchParams.get fst snd]. rewrite (utf8_decode_eqb name k Hname).
  destruct (String.eqb k name); [reflexivity|exact IH].
Qed.

(** X3.  [parseCallbackResponse], from the search part of the callback URL
    on: when the search part is the serialization of name-value pairs, the
    id and the error of the result are the values of the first pairs named
    [x-things-id] and [x-error], decoded as UTF-8, and a value that is
    empty is reported like a value that is missing; a value of bytes below
    128 is given back byte for byte, and of the search part
    [?x-things-id=%FF] the id is U+FFFD. *)
Theorem callback_reads_back :
  forall (ps : URLSearchParams),
    let given (o : option string) :=
      match o with
      | Some v => if truthy v then Some (utf8_decode v) else None
      | None => None
      end in
    callback_of_search ("?" ++ toString ps)
    = {| cb_id := given (SearchParams.get "x-things-id" ps);
         cb_error := given (SearchParams.get "x-error" ps) |}
    /\ (forall v, forallb_string is_ascii v = true -> utf8_decode v = v)
    /\ callback_of_search "?x-things-id=%FF"
       = {| cb_id := Some (replaced EmptyString); cb_error := None |}.
Proof.
  intros ps given. split; [|split; [apply utf8_decode_ascii|reflexivity]].
  unfold callback_of_search, parse_text.
  change (parse ("?" ++ toString ps))
    with (map parse_sequence (filter truthy (split "&" (toString ps)))).
  unfold toString.
  rewrite (parse_serialized form_encode ps form_encode_encoded decode_form_encode).
  rewrite !get_decoded by reflexivity.
  subst given. cbv beta.
  destruct (SearchParams.get "x-things-id" ps) as [i|],
           (SearchParams.get "x-error" ps) as [err|];
    cbn [option_map]; rewrite ?utf8_decode_truthy; reflexivity.
Qed.

(** X4.  The command [open "<url>"] that [execute] hands to the shell: a
    URL of [buildUrl] never holds a double quote, a backslash, a dollar
    sign or a backquote, the characters that are special between double
    quotes, whatever the parameters are; a URL of [buildJsonUrl] holds one
    exactly when the authorization token of the environment does. *)
Theorem urls_free_of_shell_specials :
  forall (e : Env),
    (forall op params, existsb_string shell_special (buildUrl e op params) = false)
    /\ (forall items,
          existsb_string shell_special (buildJsonUrl e items)
          = match token_given e with
            | Some t => existsb_string shell_special t
            | None => false
            end).
Proof.
  intros e. split.
  - intros op params. unfold buildUrl.
    assert (Hbase : existsb_string shell_special ("things:///" ++ operation_name op) = false)
      by (destruct op; reflexivity).
    assert (Hquery : existsb_string shell_special (query_string e params) = false)
      by (apply (existsb_string_outside query_char);
          [apply query_char_not_special|apply query_string_chars]).
    destruct (truthy (query_string e params)); [|exact Hbase].
    rewrite (existsb_string_app _ ("things:///" ++ operation_name op)), Hbase.
    rewrite existsb_string_app, Hquery. reflexivity.
  - intros items. unfold buildJsonUrl.
    assert (Hdata : existsb_string shell_special
                      (encodeURIComponent (stringify_items items)) = false)
      by (apply (existsb_string_outside uri_char);
          [apply uri_char_not_special|apply encodeURIComponent_chars]).
    destruct (token_given e) as [t|].
    + change ("things:///json?data=" ++ encodeURIComponent (stringify_items items)
              ++ "&auth-token=" ++ t)
        with ("things:///json?data=" ++ (encodeURIComponent (stringify_items items)
              ++ ("&auth-token=" ++ t))).
      rewrite (existsb_string_app _ "things:///json?data=").
      rewrite (existsb_string_app _ (encodeURIComponent (stringify_items items))), Hdata.
      rewrite (existsb_string_app _ "&auth-token="). reflexivity.
    + rewrite (existsb_string_app _ "things:///json?data="), Hdata. reflexivity.
Qed.

End WireFacts.

Section DocumentFacts.
Import Str Json Url JsDate UrlScheme UrlSchemeMore SearchParams.

(** [JSON.stringify] writes an object with its [undefined] properties as it
    writes the object without them. *)
Lemma stringify_without_undefined (o : Obj) :
  stringify (JObject (filter (fun kv => negb (is_undefined (snd kv))) o))
  = stringify (JObject o).
Proof.
  cbn [stringify]. do 4 f_equal.
  induction o as [|[k v] o IH]; [reflexivity|].
  destruct v; cbn [filter snd is_undefined negb]; try exact IH;
    rewrite IH; reflexivity.
Qed.

Lemma stringify_update_item (type : Things3ItemType) (id : string) (a b : Obj) :
  stringify (JObject a) = stringify (JObject b) ->
  stringify (update_item type id a) = stringify (update_item type id b).
Proof.
  unfold update_item. generalize (JObject a) (JObject b). intros x y Hxy.
  cbn [stringify]. rewrite Hxy. reflexivity.
Qed.

Lemma stringify_items_map (f g : string -> JSValue) (ids : list string) :
  (forall id, stringify (f id) = stringify (g id)) ->
  stringify_items (map f ids) = stringify_items (map g ids).
Proof.
  intros Hfg. unfold stringify_items. cbn [stringify]. rewrite !map_map.
  do 3 f_equal. apply map_ext. intros id. rewrite Hfg. reflexivity.
Qed.

Lemma single_updates_map (e : Env) (params : UpdateTodoParams) (ids : list string) :
  single_updates e params ids
  = map (fun id => update_item TODO id (updateTodo_attributes e params)) ids.
Proof.
  unfold single_updates, updateTodo_items.
  induction ids as [|id ids IH]; [reflexivity|].
  cbn [flat_map map app]. rewrite IH. reflexivity.
Qed.

Lemma buildJsonUrl_same_text (e : Env) (a b : list JSValue) :
  stringify_items a = stringify_items b -> buildJsonUrl e a = buildJsonUrl e b.
Proof. intros H. unfold buildJsonUrl. rewrite H. reflexivity. Qed.

(** The documents of a batch are written as the documents [updateTodo]
    makes, when the attributes of the two agree once the [undefined] ones
    are left out. *)
Lemma batch_as_single_updates (e : Env) (attributes all : Obj)
  (params : UpdateTodoParams) (ids : list string) :
  updateTodo_attributes e params = remove_undefined (with_auth e all) ->
  map fst all
  = ["title"; "notes"; "when"; "deadline"; "tags"; "completed"; "canceled"; "list-id"] ->
  filter (fun kv => negb (is_undefined (snd kv))) (with_auth e all)
  = filter (fun kv => negb (is_undefined (snd kv))) (with_auth e attributes) ->
  stringify_items (batch_items e attributes ids)
  = stringify_items (single_updates e params ids).
Proof.
  intros Hall Hkeys Hsame. rewrite single_updates_map. unfold batch_items.
  apply stringify_items_map. intros id. apply stringify_update_item.
  rewrite Hall, (remove_undefined_filter _ (updateTodo_keys_distinct e all Hkeys)).
  rewrite Hsame. symmetry. apply stringify_without_undefined.
Qed.

Ltac same_documents :=
  apply buildJsonUrl_same_text;
  eapply batch_as_single_updates;
  [ reflexivity | reflexivity
  | unfold with_auth; destruct (token_given _); reflexivity ].

(** X5.  A batch operation of [URLSchemeHandler] sends, for each id, the
    document [updateTodo] sends for that id alone: the URL of
    [bulkUpdateDates] is the URL of the single updates of the two dates (an
    absent date is not written although no loop deletes it, a date [null]
    is written as the empty string), the URL of [bulkMoveTodos] that of the
    updates of the list, with the project before the area and, with
    neither, the update that takes a to-do out of its list, and the URLs of
    [completeTodos], [uncompleteTodos] and [cancelTodos] those of the
    updates of the one flag. *)
Theorem batch_documents_are_single_updates :
  forall (e : Env) (ids : list string),
    (forall whenDate deadline,
        bulkUpdateDates_url e ids whenDate deadline
        = buildJsonUrl e (single_updates e (dates_update whenDate deadline) ids))
    /\ (forall projectId areaId,
          buildJsonUrl e (bulkMoveTodos_items e ids projectId areaId)
          = buildJsonUrl e
              (single_updates e
                 (list_update match or_else projectId areaId with
                              | Some listId => Val listId
                              | None => Null
                              end) ids))
    /\ completeTodos_url e ids
       = buildJsonUrl e (single_updates e (completed_update true) ids)
    /\ uncompleteTodos_url e ids
       = buildJsonUrl e (single_updates e (completed_update false) ids)
    /\ buildJsonUrl e (cancelTodos_items e ids)
       = buildJsonUrl e (single_updates e canceled_update ids).
Proof.
  intros e ids. repeat split.
  - intros whenDate deadline.
    unfold bulkUpdateDates_url, bulkUpdateDates_items, bulkUpdateDates_attributes.
    same_documents.
  - intros projectId areaId. unfold bulkMoveTodos_items, bulkMove_listId.
    destruct (or_else projectId areaId); same_documents.
  - unfold completeTodos_url, completeTodos_items. same_documents.
  - unfold uncompleteTodos_url, uncompleteTodos_items. same_documents.
  - unfold cancelTodos_items. same_documents.
Qed.

Lemma query_string_truthy (e : Env) (params : list (string * ParamValue)) :
  url_params e params <> [] -> truthy (query_string e params) = true.
Proof.
  rewrite query_string_pairs. destruct (url_params e params) as [|[k v] ps]; [contradiction|].
  intros _. cbn [map]. rewrite join_cons. unfold encode_pair. cbn [fst snd].
  destruct (encode_component k); reflexivity.
Qed.

(** X6.  What the receiver reads from the URL of [createTodo]: the command
    is [add], and the parameters are the authorization token when the
    environment gives one, the title, always, and then, each one only
    when it is given, the notes, the start date and the deadline as
    [formatDateForUrl] normalizes them (a text that is no date gives no
    parameter and no error), the tags joined by commas, the list (the
    project when it is given and not empty, else the area), the heading,
    and the checklist items joined by line feeds when there is at least
    one; in this order, each name once, every value byte for byte. *)
Theorem createTodo_url_read_back :
  forall (e : Env) (p : CreateTodoParams),
  exists q,
    createTodo_url e p = "things:///add?" ++ q
    /\ SearchParams.parse q
       = (pair_if "auth-token" (token_given e)
          ++ [("title", ct_title p)]
          ++ pair_if "notes" (ct_notes p)
          ++ pair_if "when" (formatDateForUrl e (of_opt (ct_whenDate p)))
          ++ pair_if "deadline" (formatDateForUrl e (of_opt (ct_deadline p)))
          ++ pair_if "tags" (option_map (join ",") (ct_tags p))
          ++ pair_if "list-id" (or_else (ct_projectId p) (ct_areaId p))
          ++ pair_if "heading" (ct_heading p)
          ++ pair_if "checklist-items"
               match ct_checklistItems p with
               | Some (item :: items) => Some (join (chr lf) (item :: items))
               | _ => None
               end)%list.
Proof.
  intros e p. exists (query_string e (createTodo_params e p)). split.
  - unfold createTodo_url, buildUrl. rewrite query_string_truthy; [reflexivity|].
    rewrite url_params_split. unfold createTodo_params.
    destruct (token_given e); [discriminate|].
    destruct (ct_checklistItems p) as [[|item items]|]; discriminate.
  - rewrite query_string_pairs, parse_without_question.
    + rewrite (parse_serialized encode_component _
                 encode_component_encoded decode_encode_component).
      rewrite url_params_split. unfold createTodo_params.
      destruct (token_given e), (ct_notes p),
        (formatDateForUrl e (of_opt (ct_whenDate p))),
        (formatDateForUrl e (of_opt (ct_deadline p))),
        (ct_tags p), (or_else (ct_projectId p) (ct_areaId p)), (ct_heading p),
        (ct_checklistItems p) as [[|item items]|]; reflexivity.
    + apply (serialized_without_question encode_component), encode_component_encoded.
Qed.

End DocumentFacts.

Section ToolFacts.
Import Str Json Templates Things Channel Sim UrlScheme UrlSchemeMore JsNumber Todos Protocol
  TodosMore.

(** Each call of a channel, whatever the host answers. *)
Lemma ensureThings3Running_cases (h : Host) (log : list Event) :
  ensureThings3Running h log
  = (match ensure_running h log with Some x => inl x | None => inr tt end,
     (log ++ [EvEnsureRunning])%list).
Proof.
  unfold ensureThings3Running, bind, record, of_failure.
  destruct (ensure_running h log); reflexivity.
Qed.

Lemma ensureTagsExist_cases (h : Host) (tags : list string) (log : list Event) :
  ensureTagsExist h tags log
  = (match ensure_tags h log tags with Some x => inl x | None => inr tt end,
     (log ++ [EvEnsureTags tags])%list).
Proof.
  unfold ensureTagsExist, bind, record, of_failure.
  destruct (ensure_tags h log tags); reflexivity.
Qed.

Lemma execute_cases (h : Host) (script : Script) (log : list Event) :
  Channel.execute h script log
  = (match execute_script h log script with inr reply => inr reply | inl x => inl x end,
     (log ++ [EvExecute script])%list).
Proof.
  unfold Channel.execute, bind, record.
  destruct (execute_script h log script); reflexivity.
Qed.

Lemma url_execute_cases (h : Host) (cfg : UrlSchemeIO.Config) (url : string)
  (log : list Event) :
  UrlSchemeIO.execute h cfg url log
  = match open_url h log url with
    | Some message =>
        (inl (Error ("URL scheme execution failed: " ++ message)), (log ++ [EvOpen url])%list)
    | None =>
        (inr tt, (log ++ [EvOpen url; EvSleep (UrlSchemeIO.delay_urlScheme cfg)])%list)
    end.
Proof.
  unfold UrlSchemeIO.execute, try_catch, bind, exec_open, sleep, record, of_failure.
  destruct (open_url h log url); cbn; [reflexivity|].
  rewrite <- app_assoc. reflexivity.
Qed.

Lemma listTodos_cases (h : Host) (params : TodosListParams) (log : list Event) :
  listTodos h params log
  = match ensure_running h log with
    | Some x => (inl (rethrown "Failed to list TODOs" x), (log ++ [EvEnsureRunning])%list)
    | None =>
        (match
           execute_script h (log ++ [EvEnsureRunning])
             (Templates.listTodos (l_filter params) (l_status params) (l_searchText params))
         with
         | inl x => inl (rethrown "Failed to list TODOs" x)
         | inr (ReplyText _) => inl (Things3Error UNKNOWN "Failed to list TODOs")
         | inr (ReplyRows rows) => inr (page params rows)
         end,
         (log ++ [EvEnsureRunning;
                  EvExecute (Templates.listTodos (l_filter params) (l_status params)
                               (l_searchText params))])%list)
    end.
Proof.
  unfold listTodos, wrap_unknown, try_catch, bind.
  rewrite ensureThings3Running_cases.
  destruct (ensure_running h log) as [[ty m|m]|]; try reflexivity.
  rewrite execute_cases.
  destruct (execute_script h (log ++ [EvEnsureRunning]) _) as [[ty m|m]|[t|rows]];
    cbn [JSON_parse_rows ret throw rethrown]; rewrite <- app_assoc; reflexivity.
Qed.

Ltac host_step :=
  match goal with
  | |- context [ensureThings3Running ?h ?l] =>
      rewrite (ensureThings3Running_cases h l);
      destruct (ensure_running h l) as [[? ?|?]|]
  | |- context [ensureTagsExist ?h ?t ?l] =>
      rewrite (ensureTagsExist_cases h t l);
      destruct (ensure_tags h l t) as [[? ?|?]|]
  | |- context [UrlSchemeIO.execute ?h ?c ?u ?l] =>
      rewrite (url_execute_cases h c u l);
      destruct (open_url h l u)
  | |- context [Channel.execute ?h ?s ?l] =>
      rewrite (execute_cases h s l);
      destruct (execute_script h l s) as [[? ?|?]|?]
  | |- context [listTodos ?h ?p ?l] =>
      rewrite (listTodos_cases h p l);
      destruct (ensure_running h l) as [[? ?|?]|]
  | |- context [match execute_script ?h ?l ?s with _ => _ end] =>
      destruct (execute_script h l s) as [[? ?|?]|[?|?]]
  end;
  cbn beta iota zeta delta [app fst snd ret throw rethrown].

Ltac pick_event :=
  first [ reflexivity | (eexists; reflexivity) | (left; pick_event) | (right; pick_event) ].

(** X7.  A create, on any host and whatever fails: it opens at most one
    URL, the creation URL of the corrected request, and never a second
    time; a create that returns a result has opened it; every use it makes
    of a channel is the check that the application runs, the check of the
    tags of the request, the opening of that URL, a wait, or one of the two
    list scripts of the search; and what it throws is a [Things3Error]. *)
Theorem createTodo_opens_at_most_once :
  forall (correct : TodosCreateParams -> CorrectionReport) (h : Host)
         (cfg : UrlSchemeIO.Config) (params : TodosCreateParams),
    let corrected := correctedData (correct params) in
    let url := createTodo_url (UrlSchemeIO.env cfg) (create_params corrected) in
    let out := run (createTodo correct h cfg params) in
    (opened (snd out) = [] \/ opened (snd out) = [url])
    /\ (forall result, fst out = inr result -> opened (snd out) = [url])
    /\ Forall (create_event cfg corrected) (snd out)
    /\ (forall x, fst out = inl x -> is_things3_error x = true).
Proof.
  intros correct h cfg params corrected url out. subst out url corrected.
  unfold create_event, narrow, broad.
  unfold run, createTodo, UrlSchemeIO.createTodo, wrap_unknown, try_catch, bind, sleep, record.
  destruct (p_tags (correctedData (correct params))) as [[|tag tags]|];
    repeat host_step;
    repeat match goal with
      | |- context [match filter ?f ?l with _ => _ end] => destruct (filter f l)
      | |- context [match find ?f ?l with _ => _ end] => destruct (find f l)
      | _ => host_step
      end;
    (split; [|split; [|split]];
     [ first [left; reflexivity | right; reflexivity]
     | intros result H; first [discriminate H | reflexivity]
     | repeat (apply Forall_cons; [cbn [tag_check]; pick_event|]); apply Forall_nil
     | intros x H; first [discriminate H | injection H as <-; reflexivity] ]).
Qed.

Lemma createTodo_opens_at_most_once_witness :
  opened
    (snd (run (createTodo Examples.no_correction (scripted_host Examples.milk_after_open)
                 (Examples.config Examples.env_utc) (Examples.titled "Buy milk"))))
  = [createTodo_url Examples.env_utc (create_params (Examples.titled "Buy milk"))].
Proof.
  destruct (createTodo_opens_at_most_once Examples.no_correction
              (scripted_host Examples.milk_after_open)
              (Examples.config Examples.env_utc) (Examples.titled "Buy milk"))
    as (_ & Hresult & _).
  exact (Hresult _ eq_refl).
Defined.

Ltac outcome :=
  split; [|split];
  [ first [ exists 0; reflexivity | exists 1; reflexivity
          | exists 2; reflexivity | exists 3; reflexivity ]
  | intros result H; first [discriminate H | reflexivity]
  | intros x H; first [discriminate H | injection H as <-; reflexivity] ].





(** The page for an offset and a limit that are natural numbers. *)
Lemma page_naturals (params : TodosListParams) (rows : list TodosListResult)
  (offset limit : nat) :
  number_or (l_offset params) (number_of_Z 0) = number_of_nat offset ->
  number_or (l_limit params) (number_of_nat (List.length rows)) = number_of_nat limit ->
  (Z.of_nat (offset + limit) < 2 ^ 53)%Z ->
  page params rows = firstn limit (skipn offset rows).
Proof.
  intros Hoffset Hlimit Hbound. unfold page.
  assert (Hslice : slice (number_or (l_offset params) (number_of_Z 0))
                     (add (number_or (l_offset params) (number_of_Z 0))
                        (number_or (l_limit params) (number_of_nat (List.length rows))))
                     rows
                   = firstn limit (skipn offset rows)).
  { rewrite Hoffset, Hlimit, (add_naturals offset limit Hbound), slice_naturals.
    replace (offset + limit - offset) with limit by lia. reflexivity. }
  destruct (l_offset params) as [o|], (l_limit params) as [k|]; try exact Hslice.
  cbn [number_or] in Hoffset, Hlimit.
  unfold number_of_Z, number_of_nat in Hoffset, Hlimit.
  injection Hoffset as Hoffset. injection Hlimit as Hlimit.
  apply Nat2Z.inj in Hlimit. subst limit.
  replace offset with 0 by lia. cbn [skipn]. symmetry. apply firstn_all.
Qed.

Lemma listTodos_rows (h : Host) (params : TodosListParams) (log : list Event)
  (rows : list TodosListResult) :
  ensure_running h log = None ->
  execute_script h (log ++ [EvEnsureRunning])
    (Templates.listTodos (l_filter params) (l_status params) (l_searchText params))
  = inr (ReplyRows rows) ->
  listTodos h params log
  = (inr (page params rows),
     (log ++ [EvEnsureRunning;
              EvExecute (Templates.listTodos (l_filter params) (l_status params)
                           (l_searchText params))])%list).
Proof. intros Hrun Hrows. rewrite listTodos_cases, Hrun, Hrows. reflexivity. Qed.

(** X10.  The page [listTodos] returns, when the host answers with rows and
    the offset is a natural number (or absent, which is 0).  With a limit
    that is a natural number other than zero: the rows after the first
    [offset] rows, as many as the limit allows.  With no limit, or with a
    limit that counts as false (zero, not a number): every row from the
    offset on; a limit of zero does not give the empty page.  An offset
    below zero counts from the end and the sum of offset and limit is the
    index the page ends before: the offset -2 with the limit 2 gives the
    empty page.  A fraction is dropped after the sum is made: the offset
    0.5 with the limit 1.5 gives the first two rows. *)
Theorem listTodos_page :
  forall (h : Host) (params : TodosListParams) (log : list Event)
         (rows : list TodosListResult) (offset : nat),
    ensure_running h log = None ->
    execute_script h (log ++ [EvEnsureRunning])
      (Templates.listTodos (l_filter params) (l_status params) (l_searchText params))
    = inr (ReplyRows rows) ->
    number_or (l_offset params) (number_of_Z 0) = number_of_nat offset ->
    (Z.of_nat (offset + List.length rows) < 2 ^ 53)%Z ->
    exists result log',
      listTodos h params log = (inr result, log')
      /\ (forall n, l_limit params = Some (number_of_nat (S n)) ->
                    (Z.of_nat (offset + S n) < 2 ^ 53)%Z ->
                    result = firstn (S n) (skipn offset rows))
      /\ (l_limit params = None
          \/ (exists x, l_limit params = Some x /\ truthy_number x = false) ->
          result = skipn offset rows)
      /\ page {| l_filter := l_filter params; l_status := l_status params;
                 l_searchText := l_searchText params;
                 l_limit := Some (number_of_Z 2); l_offset := Some (number_of_Z (-2)) |}
            rows = []
      /\ page {| l_filter := l_filter params; l_status := l_status params;
                 l_searchText := l_searchText params;
                 l_limit := Some (Finite 3 (-1)); l_offset := Some (Finite 1 (-1)) |}
            rows = firstn 2 rows.
Proof.
  intros h params log rows offset Hrun Hrows Hoffset Hbound.
  exists (page params rows). eexists.
  split; [apply (listTodos_rows h params log rows Hrun Hrows)|].
  split; [|split; [|split]].
  - intros n Hn Hsum. apply (page_naturals params rows offset (S n) Hoffset); [|exact Hsum].
    rewrite Hn. reflexivity.
  - intros Hnone.
    rewrite (page_naturals params rows offset (List.length rows) Hoffset).
    + apply firstn_all2. rewrite length_skipn. lia.
    + destruct Hnone as [->|(x & -> & Hx)]; cbn [number_or]; rewrite ?Hx; reflexivity.
    + exact Hbound.
  - unfold page, slice. cbn [l_offset l_limit]. cbv beta iota zeta.
    change (ToIntegerOrInfinity (number_or (Some (number_of_Z (-2))) (number_of_Z 0)))
      with (Integer (-2)).
    change (ToIntegerOrInfinity
              (add (number_or (Some (number_of_Z (-2))) (number_of_Z 0))
                 (number_or (Some (number_of_Z 2)) (number_of_nat (List.length rows)))))
      with (Integer 0).
    cbv beta iota.
    change (-2 <? 0)%Z with true. change (0 <? 0)%Z with false. cbv iota.
    replace (Z.to_nat (Z.min 0 (Z.of_nat (List.length rows))
                       - Z.max (Z.of_nat (List.length rows) + -2) 0)) with 0 by lia.
    reflexivity.
  - unfold page. cbn [l_offset l_limit].
    change (slice (number_or (Some (Finite 1 (-1))) (number_of_Z 0))
              (add (number_or (Some (Finite 1 (-1))) (number_of_Z 0))
                 (number_or (Some (Finite 3 (-1))) (number_of_nat (List.length rows))))
              rows)
      with (slice (number_of_nat 0) (number_of_nat 2) rows).
    apply slice_naturals.
Qed.

Lemma listTodos_page_witness :
  exists result log',
    listTodos (scripted_host (fun _ => Examples.two_of_three))
      {| l_filter := None; l_status := None; l_searchText := None;
         l_limit := Some (number_of_nat 0); l_offset := Some (number_of_nat 1) |} []
    = (inr result, log')
    /\ result = skipn 1 (run_listTodos None None None Examples.two_of_three).
Proof.
  destruct (listTodos_page (scripted_host (fun _ => Examples.two_of_three))
              {| l_filter := None; l_status := None; l_searchText := None;
                 l_limit := Some (number_of_nat 0); l_offset := Some (number_of_nat 1) |} []
              (run_listTodos None None None Examples.two_of_three) 1
              eq_refl eq_refl eq_refl eq_refl) as (result & log' & Hcall & _ & Hall & _).
  exists result, log'. split; [exact Hcall|].
  apply Hall. right. exists (number_of_nat 0). split; reflexivity.
Defined.

(** X11.  Two consecutive pages: when the host gives the same rows to two
    list calls of the same filters, offsets and limits being natural
    numbers, the second call with the offset raised by the limit of the
    first, the two pages put end to end are the page of the two limits
    together: no row is lost and none comes twice. *)
Theorem listTodos_consecutive_pages :
  forall (h : Host) (first second : TodosListParams) (log1 log2 : list Event)
         (rows : list TodosListResult) (offset n m : nat),
    let script :=
      Templates.listTodos (l_filter first) (l_status first) (l_searchText first) in
    Templates.listTodos (l_filter second) (l_status second) (l_searchText second) = script ->
    number_or (l_offset first) (number_of_Z 0) = number_of_nat offset ->
    l_limit first = Some (number_of_nat (S n)) ->
    l_offset second = Some (number_of_nat (offset + S n)) ->
    l_limit second = Some (number_of_nat (S m)) ->
    (Z.of_nat (offset + S n + S m) < 2 ^ 53)%Z ->
    ensure_running h log1 = None ->
    ensure_running h log2 = None ->
    execute_script h (log1 ++ [EvEnsureRunning]) script = inr (ReplyRows rows) ->
    execute_script h (log2 ++ [EvEnsureRunning]) script = inr (ReplyRows rows) ->
    exists page1 page2 log1' log2',
      listTodos h first log1 = (inr page1, log1')
      /\ listTodos h second log2 = (inr page2, log2')
      /\ (page1 ++ page2)%list = firstn (S n + S m) (skipn offset rows).
Proof.
  intros h first second log1 log2 rows offset n m script
    Hscript Hoffset Hlimit1 Hoffset2 Hlimit2 Hbound Hrun1 Hrun2 Hrows1 Hrows2.
  exists (page first rows), (page second rows). do 2 eexists.
  split; [apply (listTodos_rows h first log1 rows Hrun1 Hrows1)|].
  split; [apply (listTodos_rows h second log2 rows Hrun2); rewrite Hscript; exact Hrows2|].
  assert (Hfirst : (Z.of_nat (offset + S n) < 2 ^ 53)%Z).
  { eapply Z.le_lt_trans; [|exact Hbound]. lia. }
  rewrite (page_naturals first rows offset (S n) Hoffset);
    [|rewrite Hlimit1; reflexivity|exact Hfirst].
  rewrite (page_naturals second rows (offset + S n) (S m));
    [|rewrite Hoffset2, Nat.add_succ_r; reflexivity|rewrite Hlimit2; reflexivity
     |exact Hbound].
  rewrite (Nat.add_comm offset (S n)), <- skipn_skipn.
  generalize (skipn offset rows). intros l.
  rewrite <- (firstn_skipn (S n) l) at 3.
  rewrite firstn_app, firstn_firstn.
  replace (Nat.min (S n + S m) (S n)) with (S n) by lia.
  f_equal.
  rewrite length_firstn.
  destruct (Nat.le_gt_cases (S n) (List.length l)) as [Hle|Hgt].
  - replace (S n + S m - Nat.min (S n) (List.length l)) with (S m) by lia. reflexivity.
  - rewrite (skipn_all2 l) by lia. rewrite !firstn_nil. reflexivity.
Qed.

Lemma listTodos_consecutive_pages_witness :
  exists page1 page2 log1' log2',
    listTodos (scripted_host (fun _ => Examples.two_of_three))
      {| l_filter := None; l_status := None; l_searchText := None;
         l_limit := Some (number_of_nat 1); l_offset := None |} []
    = (inr page1, log1')
    /\ listTodos (scripted_host (fun _ => Examples.two_of_three))
         {| l_filter := None; l_status := None; l_searchText := None;
            l_limit := Some (number_of_nat 1); l_offset := Some (number_of_nat 1) |} []
       = (inr page2, log2')
    /\ (page1 ++ page2)%list
       = firstn (1 + 1) (skipn 0 (run_listTodos None None None Examples.two_of_three)).
Proof.
  exact (listTodos_consecutive_pages (scripted_host (fun _ => Examples.two_of_three))
           {| l_filter := None; l_status := None; l_searchText := None;
              l_limit := Some (number_of_nat 1); l_offset := None |}
           {| l_filter := None; l_status := None; l_searchText := None;
              l_limit := Some (number_of_nat 1); l_offset := Some (number_of_nat 1) |}
           [] [] (run_listTodos None None None Examples.two_of_three) 0 0 0
           eq_refl eq_refl eq_refl eq_refl eq_refl eq_refl eq_refl eq_refl eq_refl eq_refl).
Defined.

Lemma list_attribute (e : Env) (params : UpdateTodoParams) :
  Json.get "list-id" (updateTodo_attributes e params)
  = match ut_listId params with
    | Undefined => None
    | Null => Some (JString EmptyString)
    | Val listId => Some (JString listId)
    end
  /\ has_key "list-id" (updateTodo_attributes e params)
     = negb match ut_listId params with Undefined => true | _ => false end
  /\ has_key "completed" (updateTodo_attributes e params)
     = match ut_completed params with Some _ => true | None => false end
  /\ has_key "canceled" (updateTodo_attributes e params)
     = match ut_canceled params with Some _ => true | None => false end.
Proof.
  unfold updateTodo_attributes.
  rewrite remove_undefined_filter by (apply updateTodo_keys_distinct; reflexivity).
  rewrite get_filter by (apply updateTodo_keys_distinct; reflexivity).
  rewrite !has_key_filter.
  unfold with_auth.
  destruct (token_given e), (ut_listId params), (ut_completed params), (ut_canceled params);
    repeat split; reflexivity.
Qed.

(** X12.  The list an update moves a to-do to: [updateTodo] of the tools
    writes no list into the document when neither a project nor an area is
    part of the request; the project when it is a string that is not
    empty, whatever the area is; else the area when it is a string that is
    not empty; and else, a project or an area being [null] or empty, the
    empty list id, which takes the to-do out of its list.  It never writes
    the flags [completed] and [canceled]. *)
Theorem updateTodo_list_of_project_and_area :
  forall (e : Env) (corrected : TodosUpdateParams),
    let attributes := updateTodo_attributes e (update_params corrected) in
    (u_projectId corrected = Undefined -> u_areaId corrected = Undefined ->
     has_key "list-id" attributes = false)
    /\ (forall projectId,
          u_projectId corrected = Val projectId -> projectId <> EmptyString ->
          Json.get "list-id" attributes = Some (JString projectId))
    /\ (forall areaId,
          truthy_value (u_projectId corrected) = None ->
          u_areaId corrected = Val areaId -> areaId <> EmptyString ->
          Json.get "list-id" attributes = Some (JString areaId))
    /\ (truthy_value (u_projectId corrected) = None ->
        truthy_value (u_areaId corrected) = None ->
        u_projectId corrected <> Undefined \/ u_areaId corrected <> Undefined ->
        Json.get "list-id" attributes = Some (JString EmptyString))
    /\ has_key "completed" attributes = false
    /\ has_key "canceled" attributes = false.
Proof.
  intros e corrected attributes. subst attributes.
  destruct (list_attribute e (update_params corrected)) as (Hget & Hkey & Hcompleted & Hcanceled).
  rewrite Hget, Hkey, Hcompleted, Hcanceled. cbn [update_params ut_listId ut_completed ut_canceled].
  repeat split.
  - intros -> ->. reflexivity.
  - intros projectId -> Hne. destruct projectId; [contradiction|].
    destruct (u_areaId corrected); reflexivity.
  - intros areaId Hproject -> Hne. destruct areaId; [contradiction|].
    destruct (u_projectId corrected) as [| |p]; try reflexivity.
    unfold update_listId. rewrite Hproject. reflexivity.
  - intros Hproject Harea Hgiven. unfold update_listId. rewrite Hproject, Harea.
    destruct (u_projectId corrected), (u_areaId corrected); try reflexivity.
    destruct Hgiven as [H|H]; contradiction.
Qed.

Lemma updateTodo_list_of_project_and_area_witness :
  Json.get "list-id"
    (updateTodo_attributes Examples.env_utc
       (update_params
          {| u_id := "T-1"; u_title := None; u_notes := Undefined; u_whenDate := Undefined;
             u_deadline := Undefined; u_tags := None; u_projectId := Val EmptyString;
             u_areaId := Undefined |}))
  = Some (JString EmptyString).
Proof.
  apply (updateTodo_list_of_project_and_area Examples.env_utc
           {| u_id := "T-1"; u_title := None; u_notes := Undefined; u_whenDate := Undefined;
              u_deadline := Undefined; u_tags := None; u_projectId := Val EmptyString;
              u_areaId := Undefined |}).
  - reflexivity.
  - reflexivity.
  - left. discriminate.
Defined.

End ToolFacts.

Section QueryFacts.
Import Str Database Sql.

Lemma read_escaped (text after : string) :
  (forall rest, after <> String "'" rest) ->
  read_literal_body (escape_quotes text ++ String "'" after) = Some (text, after).
Proof.
  intros Hafter. induction text as [|c text IH].
  - cbn [escape_quotes append read_literal_body]. rewrite Ascii.eqb_refl.
    destruct after as [|c' after']; [reflexivity|].
    destruct (Ascii.eqb c' "'") eqn:E; [|reflexivity].
    apply Ascii.eqb_eq in E. subst c'. exfalso. apply (Hafter after'). reflexivity.
  - cbn [escape_quotes]. destruct (Ascii.eqb c "'") eqn:E.
    + apply Ascii.eqb_eq in E. subst c.
      change (read_literal_body
                (String "'" (String "'" (escape_quotes text ++ String "'" after)))
              = Some (String "'" text, after)).
      cbn [read_literal_body]. rewrite !Ascii.eqb_refl, IH. reflexivity.
    + change (read_literal_body (String c (escape_quotes text ++ String "'" after))
              = Some (String c text, after)).
      cbn [read_literal_body]. rewrite E, IH. reflexivity.
Qed.

(** X13.  The query of [getChecklistItems] is, for every id, the same
    statement with the id as a string literal: after the opening quote,
    [sqlite3] reads the id back, byte for byte, with whatever quotes it
    holds, and then the rest of the statement; the id is never read as SQL. *)
Theorem checklist_sql_reads_id_as_literal :
  forall (todoId : string),
  exists body,
    checklist_sql todoId
    = "SELECT uuid, title, status FROM TMChecklistItem WHERE task = '" ++ body
    /\ read_literal_body body
       = Some (todoId, " ORDER BY " ++ chr dquote ++ "index" ++ chr dquote ++ " ASC").
Proof.
  intros todoId.
  exists (escape_quotes todoId
          ++ String "'" (" ORDER BY " ++ chr dquote ++ "index" ++ chr dquote ++ " ASC")).
  split; [reflexivity|].
  apply read_escaped. intros rest H. discriminate H.
Qed.

(** The events of a process: output only, or output up to a first event of
    another kind. *)
Lemma first_other_event (evs : list ProcEvent) :
  forallb is_data evs = true
  \/ exists data ev rest,
       evs = (data ++ ev :: rest)%list /\ forallb is_data data = true /\ is_data ev = false.
Proof.
  induction evs as [|ev evs IH]; [left; reflexivity|].
  destruct (is_data ev) eqn:E.
  - destruct IH as [Hall|(data & ev' & rest & -> & Hdata & Hev)].
    + left. cbn [forallb]. rewrite E, Hall. reflexivity.
    + right. exists (ev :: data), ev', rest. repeat split; [|exact Hev].
      cbn [forallb]. rewrite E, Hdata. reflexivity.
  - right. exists [], ev, evs. repeat split. exact E.
Qed.

Lemma queryDatabase_output_only (db : Sqlite) (sql : string) :
  forallb is_data (db sql) = true -> queryDatabase db sql = Pending.
Proof.
  intros Hdata. unfold queryDatabase. rewrite (step_data _ initial Hdata). reflexivity.
Qed.

Lemma queryDatabase_at_first (db : Sqlite) (sql : string) (data rest : list ProcEvent)
  (ev : ProcEvent) :
  forallb is_data data = true ->
  is_data ev = false ->
  db sql = (data ++ ev :: rest)%list ->
  queryDatabase db sql
  = promise (step {| stdout := out_of data; stderr := err_of data;
                     timer_armed := true; promise := Pending |} ev).
Proof.
  intros Hdata Hev Hdb.
  apply (queryDatabase_first db sql data rest ev _ Hdata Hdb); [|reflexivity].
  destruct ev as [d|d|[[| |]|]|m|]; try discriminate Hev; discriminate.
Qed.

(** X14.  [queryDatabase] resolves exactly when the first thing that
    happens, apart from output, is the end of the process with status 0,
    before the timer and before any error; the value is then the standard
    output so far, in the order it came, trimmed.  What the process wrote
    to its standard error and whatever happens later change nothing. *)
Theorem queryDatabase_resolves_on_clean_exit :
  forall (db : Sqlite) (sql output : string),
    queryDatabase db sql = Resolved output
    <-> exists data rest,
          forallb is_data data = true
          /\ db sql = (data ++ Close (Some 0%Z) :: rest)%list
          /\ output = trim (out_of data).
Proof.
  intros db sql output. split.
  - intros Hresolved.
    destruct (first_other_event (db sql)) as [Hall|(data & ev & rest & Hdb & Hdata & Hev)].
    + rewrite (queryDatabase_output_only db sql Hall) in Hresolved. discriminate Hresolved.
    + exists data, rest.
      rewrite (queryDatabase_at_first db sql data rest ev Hdata Hev Hdb) in Hresolved.
      destruct ev as [d|d|[[| |]|]|m|]; try discriminate Hev; try discriminate Hresolved.
      injection Hresolved as <-. repeat split; assumption.
  - intros (data & rest & Hdata & Hdb & ->).
    rewrite (queryDatabase_at_first db sql data rest (Close (Some 0%Z)) Hdata eq_refl Hdb).
    reflexivity.
Qed.

Lemma of_nat_inj (n m : nat) : of_nat n = of_nat m -> n = m.
Proof.
  unfold of_nat. intros H. apply (f_equal NilEmpty.uint_of_string) in H.
  rewrite !NilEmpty.usu in H. injection H as H. apply Unsigned.to_uint_inj, H.
Qed.

Lemma of_nat_nonempty (n : nat) : exists c t, of_nat n = String c t.
Proof.
  unfold of_nat. pose proof (to_uint_nonnil n) as H.
  destruct (Nat.to_uint n); [contradiction| | | | | | | | | |];
    cbn [NilEmpty.string_of_uint]; eexists; eexists; reflexivity.
Qed.

(** The status is 3 exactly when its text is [3]. *)
Lemma status_text_three (z : Z) : String.eqb (of_Z z) "3" = (z =? 3)%Z.
Proof.
  unfold of_Z. destruct (z <? 0)%Z eqn:Hneg.
  - apply Z.ltb_lt in Hneg. cbn [String.eqb Ascii.eqb]. symmetry. apply Z.eqb_neq. lia.
  - apply Z.ltb_ge in Hneg. destruct (z =? 3)%Z eqn:E.
    + apply Z.eqb_eq in E. subst z. reflexivity.
    + apply String.eqb_neq. intros H. change "3" with (of_nat 3) in H.
      apply of_nat_inj in H. apply Z.eqb_neq in E. lia.
Qed.

Lemma of_Z_chars (z : Z) : forallb_string number_char (of_Z z) = true.
Proof.
  assert (Hdigits : forall n, forallb_string number_char (of_nat n) = true).
  { intros n. pose proof (of_nat_digits n) as H. revert H.
    generalize (of_nat n). intros s. induction s as [|c s IH]; [reflexivity|].
    cbn [forallb_string]. intros H. apply andb_true_iff in H as [Hc Hs].
    unfold number_char at 1. rewrite Hc, (IH Hs). reflexivity. }
  unfold of_Z. destruct (z <? 0)%Z; [|apply Hdigits].
  cbn [forallb_string]. rewrite Hdigits. reflexivity.
Qed.

Lemma of_Z_cell (z : Z) : cell (of_Z z) = true.
Proof.
  unfold cell.
  rewrite !(has_char_outside number_char _ _ (of_Z_chars z)); reflexivity.
Qed.

Lemma plain_head_app (a b : string) : plain_head a = true -> plain_head (a ++ b) = true.
Proof. destruct a; [discriminate|intros H; exact H]. Qed.

Lemma plain_head_backwards (s : string) :
  plain_head s = true -> trim_start_reversed s = s.
Proof.
  destruct s as [|c r]; [discriminate|]. cbn [plain_head]. intros H.
  apply andb_true_iff in H as [Hc Hs]. apply Nat.ltb_lt in Hc. apply negb_true_iff in Hs.
  apply plain_byte_backwards; assumption.
Qed.

(** A byte below 128 after a text does not change whether the text starts
    with white space. *)
Lemma starts_with_space_app (a b : string) (c : ascii) :
  a <> EmptyString -> nat_of_ascii c < 128 ->
  starts_with_space (a ++ String c b) = starts_with_space a.
Proof.
  intros Ha Hc. destruct a as [|c1 [|c2 [|c3 r3]]]; [contradiction| | |reflexivity].
  - cbn [append starts_with_space].
    rewrite space2_ascii by (right; exact Hc).
    destruct b; [reflexivity|].
    rewrite space3_ascii by (right; left; exact Hc). reflexivity.
  - cbn [append starts_with_space].
    rewrite space3_ascii by (right; right; exact Hc). reflexivity.
Qed.

Lemma starts_plain_app (a b : string) (c : ascii) :
  nat_of_ascii c < 128 -> starts_plain a = true -> starts_plain (a ++ String c b) = true.
Proof.
  unfold starts_plain. intros Hc H. apply andb_true_iff in H as [Ha Hs].
  assert (Hne : a <> EmptyString) by (intros ->; discriminate Ha).
  rewrite (starts_with_space_app a b c Hne Hc), Hs.
  destruct a; [contradiction|reflexivity].
Qed.

(** The last character of the text of a status is a digit. *)
Lemma of_Z_ends_plain (z : Z) : plain_head (rev_string (of_Z z)) = true.
Proof.
  assert (Hdigits : forall n, plain_head (rev_string (of_nat n)) = true).
  { intros n. pose proof (of_nat_digits n) as H. rewrite <- rev_string_chars in H.
    destruct (of_nat_nonempty n) as (c & t & Hn).
    assert (Hne : rev_string (of_nat n) <> EmptyString).
    { intros Hempty. apply (f_equal rev_string) in Hempty.
      rewrite rev_string_involutive, Hn in Hempty. discriminate Hempty. }
    destruct (rev_string (of_nat n)) as [|d r]; [contradiction|].
    cbn [forallb_string] in H. apply andb_true_iff in H as [Hd _].
    cbn [plain_head]. rewrite (digit_not_space d Hd).
    pose proof (digit_ascii d Hd) as Hlt. apply Nat.ltb_lt in Hlt. rewrite Hlt.
    reflexivity. }
  unfold of_Z. destruct (z <? 0)%Z; [|apply Hdigits].
  cbn [rev_string]. apply plain_head_app, Hdigits.
Qed.

Lemma trim_line (s : string) :
  starts_plain s = true -> plain_head (rev_string s) = true ->
  trim (s ++ chr lf) = s.
Proof.
  intros Hstart Hend. unfold trim.
  assert (Hlf : nat_of_ascii lf < 128) by (vm_compute; lia).
  pose proof (starts_plain_app s EmptyString lf Hlf Hstart) as Hline.
  unfold starts_plain in Hline. apply andb_true_iff in Hline as [_ Hline].
  apply negb_true_iff in Hline.
  change (chr lf) with (String lf EmptyString).
  rewrite (trim_start_plain _ Hline).
  rewrite rev_string_app. cbn [rev_string append].
  change (trim_start_reversed (chr lf ++ rev_string s))
    with (trim_start_reversed (rev_string s)).
  rewrite (plain_head_backwards _ Hend). apply rev_string_involutive.
Qed.

Lemma line_starts_plain (item : Item) (rest : string) :
  printable item = true -> starts_plain (line_of item ++ rest) = true.
Proof.
  unfold printable, line_of. intros H.
  apply andb_true_iff in H as [H _]. apply andb_true_iff in H as [_ H].
  rewrite append_assoc.
  change ((chr tab ++ title item ++ chr tab ++ of_Z (status item)) ++ rest)
    with (String tab ((title item ++ chr tab ++ of_Z (status item)) ++ rest)).
  apply starts_plain_app; [vm_compute; lia|exact H].
Qed.

Lemma line_ends_plain (item : Item) : plain_head (rev_string (line_of item)) = true.
Proof.
  unfold line_of. rewrite !rev_string_app. do 4 apply plain_head_app.
  apply of_Z_ends_plain.
Qed.

Lemma line_without_feed (item : Item) :
  printable item = true -> has_char lf (line_of item) = false.
Proof.
  unfold printable, line_of, cell. intros H.
  apply andb_true_iff in H as [H Htitle]. apply andb_true_iff in H as [Huuid _].
  apply andb_true_iff in Huuid as [_ Huuid]. apply andb_true_iff in Htitle as [_ Htitle].
  apply negb_true_iff in Huuid, Htitle.
  pose proof (of_Z_cell (status item)) as Hstatus. unfold cell in Hstatus.
  apply andb_true_iff in Hstatus as [_ Hstatus]. apply negb_true_iff in Hstatus.
  rewrite !has_char_app, Huuid, Htitle, Hstatus. reflexivity.
Qed.

Lemma row_of_printed_line (item : Item) :
  printable item = true -> row_of_line (line_of item) = row_of_item item.
Proof.
  unfold printable, cell. intros H.
  apply andb_true_iff in H as [H Htitle]. apply andb_true_iff in H as [Huuid _].
  apply andb_true_iff in Huuid as [Huuid _]. apply andb_true_iff in Htitle as [Htitle _].
  apply negb_true_iff in Huuid, Htitle.
  pose proof (of_Z_cell (status item)) as Hstatus. unfold cell in Hstatus.
  apply andb_true_iff in Hstatus as [Hstatus _]. apply negb_true_iff in Hstatus.
  unfold row_of_line, line_of.
  change (uuid item ++ chr tab ++ title item ++ chr tab ++ of_Z (status item))
    with (uuid item ++ String tab (title item ++ String tab (of_Z (status item)))).
  rewrite (split_first_piece tab _ _ Huuid), (split_first_piece tab _ _ Htitle).
  rewrite (split_whole tab _ Hstatus).
  cbn [nth nth_error]. rewrite status_text_three. reflexivity.
Qed.

Lemma printed_lines (item : Item) (items : list Item) :
  printed (item :: items) = join (chr lf) (map line_of (item :: items)) ++ chr lf.
Proof.
  unfold printed. revert item. induction items as [|next items IH]; intros item.
  - cbn [map String.concat join]. reflexivity.
  - cbn [map]. rewrite concat_empty_cons.
    cbn [map] in IH. rewrite IH.
    rewrite (join_cons (chr lf) (line_of item) (line_of next :: map line_of items)).
    rewrite !append_assoc. reflexivity.
Qed.

Lemma lines_end_plain (item : Item) (items : list Item) :
  plain_head (rev_string (join (chr lf) (map line_of (item :: items)))) = true.
Proof.
  revert item. induction items as [|next items IH]; intros item.
  - cbn [map]. rewrite join_cons, append_empty_r. apply line_ends_plain.
  - cbn [map]. rewrite join_cons. cbn [map] in IH.
    rewrite !rev_string_app. do 2 apply plain_head_app. apply IH.
Qed.

(** X15.  [getChecklistItems] on a query that ends well: when the process
    printed the rows of the table, one line for each with the cells
    between TABs, no cell holds a TAB or a line feed, and each id is not
    empty and starts with no white space, the result is
    one item for each row, in the order of the rows, with the id and the
    title of the row, and completed exactly when the status is 3; and no
    row gives the empty list. *)
Theorem getChecklistItems_reads_rows :
  forall (db : Sqlite) (todoId : string) (data rest : list ProcEvent) (items : list Item),
    forallb is_data data = true ->
    db (checklist_sql todoId) = (data ++ Close (Some 0%Z) :: rest)%list ->
    out_of data = printed items ->
    forallb printable items = true ->
    getChecklistItems db todoId = Resolved (map row_of_item items).
Proof.
  intros db todoId data rest items Hdata Hdb Hout Hitems.
  unfold getChecklistItems.
  rewrite (queryDatabase_at_first db _ data rest (Close (Some 0%Z)) Hdata eq_refl Hdb).
  cbn [step promise settle stdout]. rewrite Hout.
  destruct items as [|item items]; [reflexivity|].
  assert (Hfirst : printable item = true)
    by (cbn [forallb] in Hitems; apply andb_true_iff in Hitems as [H _]; exact H).
  assert (Hstart : starts_plain (join (chr lf) (map line_of (item :: items))) = true).
  { cbn [map]. rewrite join_cons. apply line_starts_plain, Hfirst. }
  rewrite printed_lines, (trim_line _ Hstart (lines_end_plain item items)).
  assert (Htruthy : truthy (join (chr lf) (map line_of (item :: items))) = true)
    by (unfold starts_plain in Hstart; apply andb_true_iff in Hstart as [H _]; exact H).
  rewrite Htruthy. cbn [negb]. f_equal.
  change (map line_of (item :: items)) with (line_of item :: map line_of items).
  rewrite split_joined.
  - change (line_of item :: map line_of items) with (map line_of (item :: items)).
    rewrite map_map. apply map_ext_in. intros x Hx.
    apply row_of_printed_line. rewrite forallb_forall in Hitems. apply Hitems, Hx.
  - intros y Hy.
    change (line_of item :: map line_of items) with (map line_of (item :: items)) in Hy.
    apply in_map_iff in Hy as (x & <- & Hx).
    apply line_without_feed. rewrite forallb_forall in Hitems. apply Hitems, Hx.
Qed.

Lemma getChecklistItems_reads_rows_witness :
  getChecklistItems
    (fun _ =>
       [ StdoutData (line_of {| uuid := "A"; title := "Buy milk"; status := 3 |} ++ chr lf);
         StderrData "warning";
         StdoutData (line_of {| uuid := "B"; title := "Eggs"; status := 0 |} ++ chr lf);
         Close (Some 0%Z); TimerFired ])
    "T-1"
  = Resolved [ {| ci_id := "A"; ci_title := "Buy milk"; ci_completed := true |};
               {| ci_id := "B"; ci_title := "Eggs"; ci_completed := false |} ].
Proof.
  exact (getChecklistItems_reads_rows
           (fun _ =>
              [ StdoutData (line_of {| uuid := "A"; title := "Buy milk"; status := 3 |}
                            ++ chr lf);
                StderrData "warning";
                StdoutData (line_of {| uuid := "B"; title := "Eggs"; status := 0 |} ++ chr lf);
                Close (Some 0%Z); TimerFired ])
           "T-1"
           [ StdoutData (line_of {| uuid := "A"; title := "Buy milk"; status := 3 |} ++ chr lf);
             StderrData "warning";
             StdoutData (line_of {| uuid := "B"; title := "Eggs"; status := 0 |} ++ chr lf) ]
           [TimerFired]
           [ {| uuid := "A"; title := "Buy milk"; status := 3 |};
             {| uuid := "B"; title := "Eggs"; status := 0 |} ]
           eq_refl eq_refl eq_refl eq_refl).
Defined.

End QueryFacts.

Section ResourceFacts.
Import Str Templates Resources.

Lemma after_prefix_spec (prefix s rest : string) :
  after_prefix prefix s = Some rest <-> s = prefix ++ rest.
Proof.
  revert s. induction prefix as [|p prefix IH]; intros s; cbn [after_prefix append].
  - split; [intros H; injection H as ->; reflexivity|intros ->; reflexivity].
  - destruct s as [|c s]; [split; intros H; discriminate H|].
    destruct (Ascii.eqb p c) eqn:E.
    + apply Ascii.eqb_eq in E. subst c. rewrite IH.
      split; [intros ->; reflexivity|intros H; injection H as ->; reflexivity].
    + split; [intros H; discriminate H|].
      intros H. injection H as Hc _. subst c. rewrite Ascii.eqb_refl in E. discriminate E.
Qed.

Lemma match_id_spec (prefix uri id : string) :
  match_id prefix uri = Some id
  <-> uri = prefix ++ id /\ id <> EmptyString /\ has_line_terminator id = false.
Proof.
  unfold match_id. split.
  - destruct (after_prefix prefix uri) as [rest|] eqn:E; [|intros H; discriminate H].
    apply after_prefix_spec in E.
    destruct rest as [|c rest]; [intros H; discriminate H|].
    cbn [truthy andb]. destruct (has_line_terminator (String c rest)) eqn:Ht;
      cbn [negb]; intros H; [discriminate H|].
    injection H as <-. repeat split; [exact E|discriminate|exact Ht].
  - intros (-> & Hne & Hline).
    assert (E : after_prefix prefix (prefix ++ id) = Some id)
      by (apply after_prefix_spec; reflexivity).
    rewrite E, Hline. destruct id; [contradiction|reflexivity].
Qed.

(** X16.  The resource templates: [readResource] gets the to-do [id]
    exactly for the URIs [things3://todos/] followed by [id], when [id] is
    not empty and holds no line terminator, and the project [id] exactly
    for [things3://projects/] followed by such an [id]; the id is what
    stands in the URI, byte for byte, with no decoding. *)
Theorem readResource_templates :
  forall (uri id : string),
    (readResource uri = GetTodo id
     <-> uri = "things3://todos/" ++ id
         /\ id <> EmptyString /\ has_line_terminator id = false)
    /\ (readResource uri = GetProject id
        <-> uri = "things3://projects/" ++ id
            /\ id <> EmptyString /\ has_line_terminator id = false).
Proof.
  intros uri id. split; split.
  - unfold readResource.
    destruct (FILTER_MAP uri); try (intros H; discriminate H).
    destruct (String.eqb uri "things3://projects"); [intros H; discriminate H|].
    destruct (String.eqb uri "things3://areas"); [intros H; discriminate H|].
    destruct (String.eqb uri "things3://tags"); [intros H; discriminate H|].
    destruct (match_id "things3://todos/" uri) as [x|] eqn:E.
    + intros H. injection H as ->. apply match_id_spec, E.
    + destruct (match_id "things3://projects/" uri); intros H; discriminate H.
  - intros (-> & Hne & Hline).
    assert (E : match_id "things3://todos/" ("things3://todos/" ++ id) = Some id)
      by (apply match_id_spec; repeat split; assumption).
    unfold readResource. rewrite E. reflexivity.
  - unfold readResource.
    destruct (FILTER_MAP uri); try (intros H; discriminate H).
    destruct (String.eqb uri "things3://projects"); [intros H; discriminate H|].
    destruct (String.eqb uri "things3://areas"); [intros H; discriminate H|].
    destruct (String.eqb uri "things3://tags"); [intros H; discriminate H|].
    destruct (match_id "things3://todos/" uri) as [x|] eqn:E; [intros H; discriminate H|].
    destruct (match_id "things3://projects/" uri) as [x|] eqn:E'; [|intros H; discriminate H].
    intros H. injection H as ->. apply match_id_spec, E'.
  - intros (-> & Hne & Hline).
    assert (E : match_id "things3://projects/" ("things3://projects/" ++ id) = Some id)
      by (apply match_id_spec; repeat split; assumption).
    unfold readResource.
    destruct id as [|c id]; [contradiction|].
    rewrite E. reflexivity.
Qed.

Ltac by_uri :=
  repeat match goal with
    | |- context [String.eqb ?u ?k] =>
        let E := fresh "E" in
        destruct (String.eqb u k) eqn:E;
        [ apply String.eqb_eq in E; subst u | ]
    end.

(** X17.  The resources the server lists and the ones it reads as lists
    are the same: every URI of [STATIC_RESOURCES] is read with a list call
    of the tools (the to-dos of the list the URI names, the projects, the
    areas, the tags), and no other URI is.  A URI that is the name of a
    property every object inherits, as [constructor] or [toString], is not
    refused as unknown: [FILTER_MAP] gives the inherited property for it,
    and the to-dos are listed with that as the filter. *)
Theorem static_resources_are_the_list_calls :
  forall (u : string),
    (is_list_call (readResource u) = true <-> In u (map uri STATIC_RESOURCES))
    /\ (forall property,
          readResource u = ListTodos (Inherited property)
          <-> u = property /\ In property object_prototype_names).
Proof.
  intros u. split; [split|intros property; split].
  - unfold readResource, FILTER_MAP. by_uri; intros H; try discriminate H;
      try (cbn; tauto).
    + destruct (existsb (String.eqb u) object_prototype_names); [discriminate H|].
      destruct (match_id "things3://todos/" u); [discriminate H|].
      destruct (match_id "things3://projects/" u); discriminate H.
  - cbn [map uri STATIC_RESOURCES In].
    intros [<-|[<-|[<-|[<-|[<-|[<-|[<-|[<-|[<-|[]]]]]]]]]]; reflexivity.
  - unfold readResource, FILTER_MAP.
    destruct (String.eqb u "things3://inbox"); [intros H; discriminate H|].
    destruct (String.eqb u "things3://today"); [intros H; discriminate H|].
    destruct (String.eqb u "things3://upcoming"); [intros H; discriminate H|].
    destruct (String.eqb u "things3://anytime"); [intros H; discriminate H|].
    destruct (String.eqb u "things3://someday"); [intros H; discriminate H|].
    destruct (String.eqb u "things3://logbook"); [intros H; discriminate H|].
    destruct (existsb (String.eqb u) object_prototype_names) eqn:E.
    + intros H. injection H as <-. split; [reflexivity|].
      apply existsb_exists in E as (x & Hx & Heq). apply String.eqb_eq in Heq. subst x.
      exact Hx.
    + destruct (String.eqb u "things3://projects"); [intros H; discriminate H|].
      destruct (String.eqb u "things3://areas"); [intros H; discriminate H|].
      destruct (String.eqb u "things3://tags"); [intros H; discriminate H|].
      destruct (match_id "things3://todos/" u); [intros H; discriminate H|].
      destruct (match_id "things3://projects/" u); intros H; discriminate H.
  - intros (-> & Hin). cbn [object_prototype_names In] in Hin.
    repeat (destruct Hin as [<-|Hin]; [reflexivity|]). contradiction.
Qed.

End ResourceFacts.

Section LoggingFacts.
Import Str Logging.

(** X18.  The level of the logger comes from [LOG_LEVEL] through
    [parseLogLevel], whatever the variable holds and whatever lower-casing
    does to it: it is one of the four levels, [info] when the variable is
    not set or names no level; errors are logged at every level; and a
    level that is enabled enables every level above it. *)
Theorem log_level_keeps_errors :
  forall (toLowerCase : string -> string) (value : option string),
    let config_level := parseLogLevel toLowerCase value in
    In config_level validLevels
    /\ isLevelEnabled config_level ERROR = true
    /\ (forall low high,
          (level_number low <= level_number high)%Z ->
          isLevelEnabled config_level low = true ->
          isLevelEnabled config_level high = true)
    /\ (value = None -> config_level = "info")
    /\ (forall text,
          value = Some text -> ~ In (toLowerCase text) validLevels ->
          config_level = "info").
Proof.
  intros toLowerCase value config_level. subst config_level.
  assert (Hvalid : In (parseLogLevel toLowerCase value) validLevels).
  { unfold parseLogLevel.
    destruct (existsb _ validLevels) eqn:E.
    - apply existsb_exists in E as (x & Hx & Heq). apply String.eqb_eq in Heq.
      rewrite Heq. exact Hx.
    - right. left. reflexivity. }
  split; [exact Hvalid|].
  split; [|split; [|split]].
  - cbn [validLevels In] in Hvalid.
    destruct Hvalid as [<-|[<-|[<-|[<-|[]]]]]; reflexivity.
  - intros low high Hle. cbn [validLevels In] in Hvalid.
    destruct Hvalid as [<-|[<-|[<-|[<-|[]]]]]; destruct low, high;
      cbn in Hle |- *; intros H; first [reflexivity | discriminate H | lia].
  - intros ->. reflexivity.
  - intros text -> Hnot. unfold parseLogLevel. cbn [option_map].
    destruct (existsb _ validLevels) eqn:E; [|reflexivity].
    apply existsb_exists in E as (x & Hx & Heq). apply String.eqb_eq in Heq.
    exfalso. apply Hnot. rewrite Heq. exact Hx.
Qed.

Lemma log_level_keeps_errors_witness :
  isLevelEnabled (parseLogLevel (fun text => text) (Some "warn")) ERROR = true
  /\ parseLogLevel (fun text => text) (Some "verbose") = "info".
Proof.
  destruct (log_level_keeps_errors (fun text => text) (Some "warn"))
    as (_ & _ & Hup & _).
  destruct (log_level_keeps_errors (fun text => text) (Some "verbose"))
    as (_ & _ & _ & _ & Hdefault).
  split.
  - apply (Hup WARN ERROR); [discriminate|reflexivity].
  - apply (Hdefault "verbose"); [reflexivity|].
    cbn. intros [H|[H|[H|[H|[]]]]]; discriminate H.
Defined.

End LoggingFacts.
